(** * GoSheet: a shallow embedding of the cell store, the eviction policy,
      the structural editor, the workbook persistence, the evaluator's
      function library and the validation rules.

    Go values are embedded as follows.
    - [int32] and [int] are [Z] with the wrap-around of the conversion
      written out ([int32], [int64]).
    - a Go [string] is a sequence of bytes: [string] of the Standard Library,
      whose characters are the bytes.  Code points are obtained by the UTF-8
      decoder [DecodeRunes], as Go's [[]rune(s)] conversion does.
    - [float64] is the primitive binary64 type [float].
    - [map[[2]int]*cell.Cell] is [gmap (Z * Z) Cell]; a [for ... range] loop
      over a map is a [map_fold], and every result below is independent of
      the iteration order.
    - a pointer that may be nil ([*string]) is an [option]. *)

From Stdlib Require Import ZArith String Ascii List Bool Lia.
From Stdlib Require Import Floats.
From stdpp Require Import gmap strings list fin_maps pretty.

Local Open Scope string_scope.
Local Open Scope Z_scope.

(** ** Machine integers *)

Module GoInt.

(** Conversion to [int32]: the low 32 bits, read as a signed number. *)
Definition int32 (z : Z) : Z := (z + 2 ^ 31) mod 2 ^ 32 - 2 ^ 31.

(** Conversion to [int] (64 bits on the supported platforms). *)
Definition int64 (z : Z) : Z := (z + 2 ^ 63) mod 2 ^ 64 - 2 ^ 63.

Definition MaxInt32 : Z := 2 ^ 31 - 1.
Definition MinInt32 : Z := - 2 ^ 31.

Definition in_int32 (z : Z) : Prop := MinInt32 <= z <= MaxInt32.

End GoInt.
Import GoInt.

(** ** Strings: bytes, code points, and the functions of package [strings] *)

Module GoString.

Definition byteZ (a : ascii) : Z := Z.of_N (N_of_ascii a).
Definition ascii_of_Z (z : Z) : ascii := ascii_of_N (Z.to_N z).

(** [len(s)]: the number of bytes. *)
Definition len (s : string) : Z := Z.of_nat (String.length s).

(** [s[n:]] for [0 <= n <= len(s)]. *)
Fixpoint drop_bytes (n : nat) (s : string) : string :=
  match n, s with
  | O, _ => s
  | S n', String _ t => drop_bytes n' t
  | S _, EmptyString => EmptyString
  end.

(** [utf8.RuneError], the replacement character. *)
Definition RuneError : Z := 0xFFFD.

Definition is_cont (b : Z) : bool := (0x80 <=? b) && (b <=? 0xBF).

(** Range accepted for the second byte, by lead byte. *)
Definition second_lo (b0 : Z) : Z :=
  if b0 =? 0xE0 then 0xA0 else if b0 =? 0xF0 then 0x90 else 0x80.
Definition second_hi (b0 : Z) : Z :=
  if b0 =? 0xED then 0x9F else if b0 =? 0xF4 then 0x8F else 0xBF.
Definition second_ok (b0 b1 : Z) : bool :=
  (second_lo b0 <=? b1) && (b1 <=? second_hi b0).

Definition rune2 (b0 b1 : Z) : Z :=
  Z.lor (Z.shiftl (Z.land b0 0x1F) 6) (Z.land b1 0x3F).
Definition rune3 (b0 b1 b2 : Z) : Z :=
  Z.lor (Z.lor (Z.shiftl (Z.land b0 0x0F) 12) (Z.shiftl (Z.land b1 0x3F) 6))
        (Z.land b2 0x3F).
Definition rune4 (b0 b1 b2 b3 : Z) : Z :=
  Z.lor (Z.lor (Z.lor (Z.shiftl (Z.land b0 0x07) 18)
                      (Z.shiftl (Z.land b1 0x3F) 12))
               (Z.shiftl (Z.land b2 0x3F) 6))
        (Z.land b3 0x3F).

(** The UTF-8 decoding that [range s], [[]rune(s)] and [utf8.DecodeRune]
    perform: the string is cut into encoded code points, and each byte that
    does not start a well-formed encoding is a [RuneError] of width one.
    Each element of the result is a code point with the bytes it came from. *)
Fixpoint DecodeRunes (s : string) : list (Z * string) :=
  match s with
  | EmptyString => []
  | String a0 t0 =>
    let b0 := byteZ a0 in
    let invalid := (RuneError, String a0 EmptyString) :: DecodeRunes t0 in
    if b0 <? 0x80 then (b0, String a0 EmptyString) :: DecodeRunes t0
    else if (b0 <? 0xC2) || (0xF4 <? b0) then invalid
    else
      match t0 with
      | EmptyString => invalid
      | String a1 t1 =>
        let b1 := byteZ a1 in
        if negb (second_ok b0 b1) then invalid
        else if b0 <? 0xE0 then
          (rune2 b0 b1, String a0 (String a1 EmptyString)) :: DecodeRunes t1
        else
          match t1 with
          | EmptyString => invalid
          | String a2 t2 =>
            let b2 := byteZ a2 in
            if negb (is_cont b2) then invalid
            else if b0 <? 0xF0 then
              (rune3 b0 b1 b2, String a0 (String a1 (String a2 EmptyString)))
                :: DecodeRunes t2
            else
              match t2 with
              | EmptyString => invalid
              | String a3 t3 =>
                let b3 := byteZ a3 in
                if negb (is_cont b3) then invalid
                else
                  (rune4 b0 b1 b2 b3,
                   String a0 (String a1 (String a2 (String a3 EmptyString))))
                    :: DecodeRunes t3
              end
          end
      end
  end.

(** [[]rune(s)]. *)
Definition runes (s : string) : list Z := map fst (DecodeRunes s).

(** [utf8.ValidString(s)]: no byte of [s] is decoded as an invalid
    encoding, that is as a [RuneError] of width one (the encoding of the
    replacement character itself has three bytes). *)
Definition valid_utf8 (s : string) : bool :=
  forallb (λ c : Z * string,
             negb ((fst c =? RuneError) && (len (snd c) =? 1)))
          (DecodeRunes s).

(** [utf8.RuneCountInString(s)], the length of [[]rune(s)]. *)
Definition RuneCount (s : string) : Z := Z.of_nat (List.length (runes s)).

(** [utf8.AppendRune]: the encoding of one code point; surrogates and values
    out of range are encoded as [RuneError]. *)
Definition EncodeRune (r : Z) : string :=
  let r := if (r <? 0) || (0x10FFFF <? r) || ((0xD800 <=? r) && (r <=? 0xDFFF))
           then RuneError else r in
  if r <=? 0x7F then String (ascii_of_Z r) EmptyString
  else if r <=? 0x7FF then
    String (ascii_of_Z (Z.lor 0xC0 (Z.shiftr r 6)))
      (String (ascii_of_Z (Z.lor 0x80 (Z.land r 0x3F))) EmptyString)
  else if r <=? 0xFFFF then
    String (ascii_of_Z (Z.lor 0xE0 (Z.shiftr r 12)))
      (String (ascii_of_Z (Z.lor 0x80 (Z.land (Z.shiftr r 6) 0x3F)))
        (String (ascii_of_Z (Z.lor 0x80 (Z.land r 0x3F))) EmptyString))
  else
    String (ascii_of_Z (Z.lor 0xF0 (Z.shiftr r 18)))
      (String (ascii_of_Z (Z.lor 0x80 (Z.land (Z.shiftr r 12) 0x3F)))
        (String (ascii_of_Z (Z.lor 0x80 (Z.land (Z.shiftr r 6) 0x3F)))
          (String (ascii_of_Z (Z.lor 0x80 (Z.land r 0x3F))) EmptyString))).

(** [string(rs)] for a slice of runes. *)
Definition string_of_runes (rs : list Z) : string :=
  fold_right (λ r acc, EncodeRune r ++ acc)%string EmptyString rs.

(** [unicode.IsSpace]. *)
Definition IsSpace (r : Z) : bool :=
  ((0x09 <=? r) && (r <=? 0x0D)) || (r =? 0x20) || (r =? 0x85) || (r =? 0xA0)
  || (r =? 0x1680) || ((0x2000 <=? r) && (r <=? 0x200A))
  || (r =? 0x2028) || (r =? 0x2029) || (r =? 0x202F) || (r =? 0x205F)
  || (r =? 0x3000).

Definition chunk_is_space (c : Z * string) : bool := IsSpace (fst c).

Fixpoint drop_while {A} (p : A → bool) (l : list A) : list A :=
  match l with
  | [] => []
  | x :: l' => if p x then drop_while p l' else l
  end.

Definition join_chunks (cs : list (Z * string)) : string :=
  fold_right (λ c acc, snd c ++ acc)%string EmptyString cs.

(** [strings.TrimSpace]: the leading and the trailing white space code
    points are cut off; the bytes in between are kept as they are. *)
Definition TrimSpace (s : string) : string :=
  let cs := drop_while chunk_is_space (DecodeRunes s) in
  join_chunks (rev (drop_while chunk_is_space (rev cs))).

(** A string that is empty or made of white space only. *)
Definition blank (s : string) : bool := forallb IsSpace (runes s).

(** [strings.HasPrefix], [strings.HasSuffix], [strings.TrimPrefix]. *)
Definition HasPrefix (s p : string) : bool := String.prefix p s.
Definition HasSuffix (s p : string) : bool :=
  (String.length p <=? String.length s)%nat
  && String.eqb (drop_bytes (String.length s - String.length p) s) p.
Definition TrimPrefix (s p : string) : string :=
  if HasPrefix s p then drop_bytes (String.length p) s else s.

(** [strings.Index(s, sep)], -1 when [sep] does not occur. *)
Fixpoint Index_from (i : Z) (s sep : string) : Z :=
  if String.prefix sep s then i
  else match s with
       | EmptyString => -1
       | String _ t => Index_from (i + 1) t sep
       end.
Definition Index (s sep : string) : Z := Index_from 0 s sep.

(** [s[:n]]. *)
Fixpoint take_bytes (n : nat) (s : string) : string :=
  match n, s with
  | S n', String a t => String a (take_bytes n' t)
  | _, _ => EmptyString
  end.

(** [strings.ReplaceAll(s, old, new)] for a non-empty [old]: the
    non-overlapping occurrences of [old], found from the left, are replaced.
    [skip] counts the bytes of an occurrence still to be passed over. *)
Fixpoint replace_from (old new : string) (skip : nat) (s : string) : string :=
  match s with
  | EmptyString => EmptyString
  | String a t =>
    match skip with
    | S n => replace_from old new n t
    | O =>
      if String.prefix old s
      then (new ++ replace_from old new (String.length old - 1) t)%string
      else String a (replace_from old new 0 t)
    end
  end.

(** For an empty [old], [new] is put before every code point and at the
    end. *)
Definition ReplaceAll (s old new : string) : string :=
  match old with
  | EmptyString =>
    (fold_right (λ c acc, new ++ snd c ++ acc) new (DecodeRunes s))%string
  | _ => replace_from old new 0 s
  end.

(** The double quote character, and a string in double quotes. *)
Definition dquote : string := String (ascii_of_Z 34) EmptyString.

End GoString.
Import GoString.

(** ** Package [cell] *)

(** [utils.ColorRGB]: three colour channels, indexed 0, 1, 2. *)
Record ColorRGB := mkColor { ch0 : Z; ch1 : Z; ch2 : Z }.

Definition ColorWhite : ColorRGB := mkColor 255 255 255.
Definition ColorBlack : ColorRGB := mkColor 0 0 0.

(** The fields of [cell.Cell] that the sources under study read or write. *)
Record Cell := mkCell {
  Row : Z;                         (* int32 *)
  Column : Z;                      (* int32 *)
  MaxWidth : Z;
  MinWidth : Z;
  RawValue : option string;
  Display : option string;
  Type_ : option string;
  Notes : option string;
  Valrule : option string;
  Valrulemsg : option string;
  Color : ColorRGB;
  BgColor : ColorRGB;
  DecimalPoints : Z;
  ThousandsSeparator : Z;          (* rune *)
  DecimalSeparator : Z;            (* rune *)
  FinancialSign : Z;               (* rune *)
  DateTimeFormat : option string;
  Align : Z;
  Flags : Z;
  DependsOn : option (list string);
  Dependents : option (list string)
}.

(** Modelled from the spec: the flag constants and [HasFlag] of package
    [cell] are not among the sources.  The spec lists the style flags
    bold / italic / underline / strikethrough / all-caps / formula-marker;
    they are taken as the bits 0 to 5 of [Flags], tested by masking. *)
Definition FlagBold : Z := 1.
Definition FlagItalic : Z := 2.
Definition FlagUnderline : Z := 4.
Definition FlagStrikethrough : Z := 8.
Definition FlagAllCaps : Z := 16.
Definition FlagFormula : Z := 32.

Definition HasFlag (c : Cell) (f : Z) : bool := negb (Z.land (Flags c) f =? 0).

(** Modelled from the spec: a formula is "identified by a marker flag". *)
Definition IsFormula (c : Cell) : bool := HasFlag c FlagFormula.

(** [p != nil && *p != ""] for a [*string]. *)
Definition nonempty (p : option string) : bool :=
  match p with
  | Some s => negb (String.eqb s "")
  | None => false
  end.

(** Field updates used by the structural editor and the loader. *)
Definition set_Row (r : Z) (c : Cell) : Cell :=
  mkCell r (Column c) (MaxWidth c) (MinWidth c) (RawValue c) (Display c)
    (Type_ c) (Notes c) (Valrule c) (Valrulemsg c) (Color c) (BgColor c)
    (DecimalPoints c) (ThousandsSeparator c) (DecimalSeparator c)
    (FinancialSign c) (DateTimeFormat c) (Align c) (Flags c) (DependsOn c)
    (Dependents c).

Definition set_Column (k : Z) (c : Cell) : Cell :=
  mkCell (Row c) k (MaxWidth c) (MinWidth c) (RawValue c) (Display c)
    (Type_ c) (Notes c) (Valrule c) (Valrulemsg c) (Color c) (BgColor c)
    (DecimalPoints c) (ThousandsSeparator c) (DecimalSeparator c)
    (FinancialSign c) (DateTimeFormat c) (Align c) (Flags c) (DependsOn c)
    (Dependents c).

(** ** Package [utils]: the viewport *)

Record Viewport := mkViewport {
  TopRow : Z;
  LeftCol : Z;
  ViewRows : Z;
  ViewCols : Z
}.

(** ** Package [table]: eviction (table.go) *)

Module Table.

(** The cell store of a sheet. *)
Abbreviation Store := (gmap (Z * Z) Cell).

(** [isEmptyCell], test by test. *)
Definition isEmptyCell (c : Cell) : bool :=
  if nonempty (RawValue c) then false
  else if IsFormula c then false
  else if nonempty (Notes c) then false
  else if HasFlag c FlagBold || HasFlag c FlagItalic || HasFlag c FlagUnderline
    then false
  else if nonempty (Valrule c) then false
  else if negb (ch0 (Color c) =? 255) || negb (ch1 (Color c) =? 255)
          || negb (ch2 (Color c) =? 255) then false
  else if negb (ch0 (BgColor c) =? 0) || negb (ch1 (BgColor c) =? 0)
          || negb (ch2 (BgColor c) =? 0) then false
  else true.

(** The four bounds computed at the head of [CleanupDistantCells];
    the arithmetic is [int32] arithmetic. *)
Definition minRow (vp : Viewport) (keepDistance : Z) : Z :=
  Z.max 1 (int32 (TopRow vp - keepDistance)).
Definition maxRow (vp : Viewport) (keepDistance : Z) : Z :=
  int32 (int32 (TopRow vp + ViewRows vp) + keepDistance).
Definition minCol (vp : Viewport) (keepDistance : Z) : Z :=
  Z.max 1 (int32 (LeftCol vp - keepDistance)).
Definition maxCol (vp : Viewport) (keepDistance : Z) : Z :=
  int32 (int32 (LeftCol vp + ViewCols vp) + keepDistance).

(** The distance test of the loop body, on a key of the store. *)
Definition distant (vp : Viewport) (keepDistance : Z) (key : Z * Z) : bool :=
  let row := int32 (fst key) in
  let col := int32 (snd key) in
  (row <? minRow vp keepDistance) || (maxRow vp keepDistance <? row)
  || (col <? minCol vp keepDistance) || (maxCol vp keepDistance <? col).

(** One iteration of the loop: [delete(data, key)] under the two tests. *)
Definition cleanup_step (vp : Viewport) (keepDistance : Z)
    (key : Z * Z) (cellData : Cell) (data : Store) : Store :=
  if distant vp keepDistance key then
    if isEmptyCell cellData then delete key data else data
  else data.

(** [CleanupDistantCells]: the loop ranges over the entries of [data] and
    deletes from [data] itself. *)
Definition CleanupDistantCells (data : Store) (vp : Viewport)
    (keepDistance : Z) : Store :=
  map_fold (cleanup_step vp keepDistance) data data.

(** [RenderVisible] draws the visible window and then evicts with a
    retention distance of 100; only the eviction touches the store. *)
Definition RenderVisible (vp : Viewport) (data : Store) : Store :=
  CleanupDistantCells data vp 100.

End Table.
Import Table.

(** ** Package [table]: the structural editor (indel.go)

    Each of the four editors shows a confirmation modal; the work is done by
    the modal's callback, which receives the label of the button pressed.
    On "Yes" the callback builds [newData] by ranging over the active sheet's
    store, installs it as the sheet's store and calls [RenderVisible] on it.
    Any other button leaves the store as it is.

    A cell is held by value at its key.  In the source the map holds
    pointers and [cellData.Column++] writes through the pointer; the
    properties below are stated for stores in which every key is the
    (Row, Column) of its cell, where two keys never share a cell object. *)

Module Indel.

(** Loop body of [eliminateCol]. *)
Definition eliminateCol_step (col : Z) (key : Z * Z) (cellData : Cell)
    (newData : Store) : Store :=
  let r := fst key in
  let c := snd key in
  if int32 c <? col then <[key := cellData]> newData
  else if col <? int32 c then
    <[(r, int64 (c - 1)) := set_Column (int32 (Column cellData - 1)) cellData]> newData
  else newData.

(** Loop body of [eliminateRow]. *)
Definition eliminateRow_step (row : Z) (key : Z * Z) (cellData : Cell)
    (newData : Store) : Store :=
  let r := fst key in
  let c := snd key in
  if int32 r <? row then <[key := cellData]> newData
  else if row <? int32 r then
    <[(int64 (r - 1), c) := set_Row (int32 (Row cellData - 1)) cellData]> newData
  else newData.

(** Loop body of [insertCol]. *)
Definition insertCol_step (col : Z) (key : Z * Z) (cellData : Cell)
    (newData : Store) : Store :=
  let r := fst key in
  let c := snd key in
  if int32 c <? col then <[key := cellData]> newData
  else <[(r, int64 (c + 1)) := set_Column (int32 (Column cellData + 1)) cellData]> newData.

(** Loop body of [insertRow]. *)
Definition insertRow_step (row : Z) (key : Z * Z) (cellData : Cell)
    (newData : Store) : Store :=
  let r := fst key in
  let c := snd key in
  if int32 r <? row then <[key := cellData]> newData
  else <[(int64 (r + 1), c) := set_Row (int32 (Row cellData + 1)) cellData]> newData.

(** The map [newData] at the end of each loop. *)
Definition eliminateCol_newData (activeData : Store) (col : Z) : Store :=
  map_fold (eliminateCol_step col) ∅ activeData.
Definition eliminateRow_newData (activeData : Store) (row : Z) : Store :=
  map_fold (eliminateRow_step row) ∅ activeData.
Definition insertCol_newData (activeData : Store) (col : Z) : Store :=
  map_fold (insertCol_step col) ∅ activeData.
Definition insertRow_newData (activeData : Store) (row : Z) : Store :=
  map_fold (insertRow_step row) ∅ activeData.

(** The callbacks: the store of the active sheet once the callback returns. *)
Definition eliminateCol (buttonLabel : string) (activeData : Store)
    (activeViewport : Viewport) (col : Z) : Store :=
  if String.eqb buttonLabel "Yes"
  then RenderVisible activeViewport (eliminateCol_newData activeData col)
  else activeData.

Definition eliminateRow (buttonLabel : string) (activeData : Store)
    (activeViewport : Viewport) (row : Z) : Store :=
  if String.eqb buttonLabel "Yes"
  then RenderVisible activeViewport (eliminateRow_newData activeData row)
  else activeData.

Definition insertCol (buttonLabel : string) (activeData : Store)
    (activeViewport : Viewport) (col : Z) : Store :=
  if String.eqb buttonLabel "Yes"
  then RenderVisible activeViewport (insertCol_newData activeData col)
  else activeData.

Definition insertRow (buttonLabel : string) (activeData : Store)
    (activeViewport : Viewport) (row : Z) : Store :=
  if String.eqb buttonLabel "Yes"
  then RenderVisible activeViewport (insertRow_newData activeData row)
  else activeData.

(** The store invariant of the data model: a cell is stored under its own
    (Row, Column), and the coordinates leave room in [int32] for a shift by
    one.  (The data model has them 1-based.) *)
Definition store_wf (data : Store) : Prop :=
  ∀ key cellData, data !! key = Some cellData →
    key = (Row cellData, Column cellData) ∧
    MinInt32 < Row cellData < MaxInt32 ∧
    MinInt32 < Column cellData < MaxInt32.

(** The four loops have one shape: each entry is copied to a computed key,
    or dropped.  [rekey_step g] is that shape, for a function [g] giving the
    destination of an entry. *)
Definition rekey_step {K1 A K2 B : Type} `{Countable K2}
    (g : K1 → A → option (K2 * B))
    (key : K1) (x : A) (newData : gmap K2 B) : gmap K2 B :=
  match g key x with
  | Some (newKey, y) => <[newKey := y]> newData
  | None => newData
  end.

Definition eliminateCol_dest (col : Z) (key : Z * Z) (cellData : Cell)
    : option (Z * Z * Cell) :=
  if int32 (snd key) <? col then Some (key, cellData)
  else if col <? int32 (snd key) then
    Some ((fst key, int64 (snd key - 1)),
          set_Column (int32 (Column cellData - 1)) cellData)
  else None.

Definition eliminateRow_dest (row : Z) (key : Z * Z) (cellData : Cell)
    : option (Z * Z * Cell) :=
  if int32 (fst key) <? row then Some (key, cellData)
  else if row <? int32 (fst key) then
    Some ((int64 (fst key - 1), snd key),
          set_Row (int32 (Row cellData - 1)) cellData)
  else None.

Definition insertCol_dest (col : Z) (key : Z * Z) (cellData : Cell)
    : option (Z * Z * Cell) :=
  if int32 (snd key) <? col then Some (key, cellData)
  else Some ((fst key, int64 (snd key + 1)),
             set_Column (int32 (Column cellData + 1)) cellData).

Definition insertRow_dest (row : Z) (key : Z * Z) (cellData : Cell)
    : option (Z * Z * Cell) :=
  if int32 (fst key) <? row then Some (key, cellData)
  else Some ((int64 (fst key + 1), snd key),
             set_Row (int32 (Row cellData + 1)) cellData).

(** Whether the render pass that closes an edit evicts the cell stored at
    [key]. *)
Definition evicted (vp : Viewport) (key : Z * Z) (cellData : Cell) : bool :=
  distant vp 100 key && isEmptyCell cellData.

End Indel.
Import Indel.

(** ** Package [utils]: the evaluator's function library (govaluatefunc.go) *)

(** A Go [error]: nil, or an error with its message. *)
Definition error : Type := option string.

(** A computation that may panic (nil dereference, slice out of range). *)
Inductive Res (A : Type) : Type :=
| Ok (a : A)
| Panic.
Arguments Ok {A} a.
Arguments Panic {A}.

(** The dynamic types of the values ([any]) that the expression evaluator
    hands to the functions and takes back. *)
Inductive any : Type :=
| VFloat (f : float)
| VInt (z : Z)
| VString (s : string)
| VBool (b : bool)
| VNil.

(** What the verb [%T] prints. *)
Definition typeName (v : any) : string :=
  match v with
  | VFloat _ => "float64"
  | VInt _ => "int"
  | VString _ => "string"
  | VBool _ => "bool"
  | VNil => "<nil>"
  end.

(** The functions of Go's [fmt] and [strconv] that the sources call on
    floating-point numbers.  They are parameters of the development. *)
Class GoFmt := {
  (** [fmt.Sscanf(val, "%f", &f)]: the value left in [f], and the error. *)
  Sscanf_f : string → float * error;
  (** [fmt.Sprintf("%v", f)] for a [float64]. *)
  Sprintf_v : float → string;
  (** [strconv.ParseFloat(s, 64)]: the number, or nothing on an error. *)
  ParseFloat : string → option float
}.

(** The functions of Go's [math] that the division-like functions call. *)
Class GoMath := {
  math_Sin : float → float;
  math_Cos : float → float;
  math_Tan : float → float;
  math_Tanh : float → float
}.

(** [float64(z)] for an integer: rounding to the nearest binary64 number. *)
Definition float64_of_int (z : Z) : float :=
  SF2Prim (binary_normalize prec emax z 0 false).

(** [int(f)] and [int64(f)] for a [float64]: truncation towards zero.  For
    a NaN, an infinity or a magnitude out of range Go leaves the result to
    the platform; amd64 yields the least [int64]. *)
Definition int_of_float64 (f : float) : Z :=
  match Prim2SF f with
  | S754_zero _ => 0
  | S754_finite sign m e =>
    let mag := if 0 <=? e then Z.pos m * 2 ^ e else Z.pos m / 2 ^ (- e) in
    let z := if sign then - mag else mag in
    if (- 2 ^ 63 <=? z) && (z <? 2 ^ 63) then z else - 2 ^ 63
  | _ => - 2 ^ 63
  end.

(** [toString]. *)
Definition toString `{GoFmt} (v : any) : string :=
  match v with
  | VString val => val
  | VFloat val =>
    if PrimFloat.eqb val (float64_of_int (int_of_float64 val))
    then pretty (int_of_float64 val)
    else Sprintf_v val
  | VInt val => pretty val
  | VBool val => if val then "TRUE" else "FALSE"
  | VNil => "<nil>"
  end.

(** [toFloat]: the type switch has the cases [float64], [int], [string] and
    [default]. *)
Definition toFloat `{GoFmt} (v : any) : float * error :=
  match v with
  | VFloat val => (val, None)
  | VInt val => (float64_of_int val, None)
  | VString val => Sscanf_f val
  | _ => (0%float, Some ("cannot convert " ++ typeName v ++ " to float64")%string)
  end.

Definition validateArgs (funcName : string) (args : list any)
    (minArgs maxArgs : Z) : error :=
  let n := Z.of_nat (List.length args) in
  if n <? minArgs then
    if minArgs =? maxArgs then
      Some (funcName ++ " requires exactly " ++ pretty minArgs
            ++ " argument(s), got " ++ pretty n)%string
    else
      Some (funcName ++ " requires at least " ++ pretty minArgs
            ++ " argument(s), got " ++ pretty n)%string
  else if negb (maxArgs =? -1) && (maxArgs <? n) then
    Some (funcName ++ " accepts at most " ++ pretty maxArgs
          ++ " argument(s), got " ++ pretty n)%string
  else None.

(** [args[i]], read after [validateArgs] has checked the length. *)
Definition arg (i : nat) (args : list any) : any := nth i args VNil.

(** The constant [1e-10] of [CTAN], as the binary64 number nearest to it. *)
Definition epsilon : float := 0x1.b7cdfd9d7bdbbp-34%float.

Definition CTAN `{GoFmt} `{GoMath} (args : list any) : any * error :=
  match validateArgs "CTAN" args 1 1 with
  | Some err => (VNil, Some err)
  | None =>
    match toFloat (arg 0 args) with
    | (_, Some err) => (VNil, Some ("CTAN: " ++ err)%string)
    | (f, None) =>
      let tanVal := math_Tan f in
      if PrimFloat.ltb (PrimFloat.abs tanVal) epsilon
      then (VFloat infinity, Some "CTAN: division by zero")
      else (VFloat (1 / tanVal), None)
    end
  end.

Definition SEC `{GoFmt} `{GoMath} (args : list any) : any * error :=
  match validateArgs "SEC" args 1 1 with
  | Some err => (VNil, Some err)
  | None =>
    match toFloat (arg 0 args) with
    | (_, Some err) => (VNil, Some ("SEC: " ++ err)%string)
    | (f, None) =>
      if PrimFloat.eqb (math_Cos f) 0
      then (VFloat infinity, Some "division by zero")
      else (VFloat (1 / math_Cos f), None)
    end
  end.

Definition CSEC `{GoFmt} `{GoMath} (args : list any) : any * error :=
  match validateArgs "CSEC" args 1 1 with
  | Some err => (VNil, Some err)
  | None =>
    match toFloat (arg 0 args) with
    | (_, Some err) => (VNil, Some ("CSEC: " ++ err)%string)
    | (f, None) =>
      if PrimFloat.eqb (math_Sin f) 0
      then (VFloat infinity, Some "division by zero")
      else (VFloat (1 / math_Sin f), None)
    end
  end.

Definition CTANH `{GoFmt} `{GoMath} (args : list any) : any * error :=
  match validateArgs "CTANH" args 1 1 with
  | Some err => (VNil, Some err)
  | None =>
    match toFloat (arg 0 args) with
    | (_, Some err) => (VNil, Some ("CTANH: " ++ err)%string)
    | (f, None) =>
      if PrimFloat.eqb (math_Tanh f) 0
      then (VFloat infinity, Some "division by zero")
      else (VFloat (1 / math_Tanh f), None)
    end
  end.

(** [runes[i:j]], which panics unless [0 <= i <= j <= len(runes)]. *)
Definition slice {A} (l : list A) (i j : Z) : Res (list A) :=
  if (0 <=? i) && (i <=? j) && (j <=? Z.of_nat (List.length l))
  then Ok (firstn (Z.to_nat (j - i)) (skipn (Z.to_nat i) l))
  else Panic.

Definition MID `{GoFmt} (args : list any) : Res (any * error) :=
  match validateArgs "MID" args 3 3 with
  | Some err => Ok (VNil, Some err)
  | None =>
    let text := toString (arg 0 args) in
    match toFloat (arg 1 args) with
    | (_, Some err) => Ok (VNil, Some ("MID: " ++ err)%string)
    | (start, None) =>
      match toFloat (arg 2 args) with
      | (_, Some err) => Ok (VNil, Some ("MID: " ++ err)%string)
      | (length, None) =>
        let startIdx := int64 (int_of_float64 start - 1) in
        let n := int_of_float64 length in
        let rs := runes text in
        let startIdx := if startIdx <? 0 then 0 else startIdx in
        let sliced :=
          if Z.of_nat (List.length rs) <? int64 (startIdx + n)
          then slice rs startIdx (Z.of_nat (List.length rs))
          else slice rs startIdx (int64 (startIdx + n)) in
        match sliced with
        | Ok part => Ok (VString (string_of_runes part), None)
        | Panic => Panic
        end
      end
    end
  end.

Definition FIND `{GoFmt} (args : list any) : any * error :=
  match validateArgs "FIND" args 2 3 with
  | Some err => (VNil, Some err)
  | None =>
    let findText := toString (arg 0 args) in
    let withinText := toString (arg 1 args) in
    let sp : Z * error :=
      if 2 <? Z.of_nat (List.length args) then
        match toFloat (arg 2 args) with
        | (_, Some err) => (0, Some err)
        | (sp, None) => (int_of_float64 sp, None)
        end
      else (1, None) in
    match sp with
    | (_, Some err) => (VNil, Some ("FIND: " ++ err)%string)
    | (startPos, None) =>
      if startPos <? 1 then (VNil, Some "start position must be >= 1")
      else if len withinText <? startPos then (VFloat (-1), None)
      else
        let pos := Index (drop_bytes (Z.to_nat (startPos - 1)) withinText)
                         findText in
        if pos =? -1 then (VFloat (-1), None)
        else (VFloat (float64_of_int (pos + startPos)), None)
    end
  end.

Definition LEN `{GoFmt} (args : list any) : any * error :=
  match validateArgs "LEN" args 1 1 with
  | Some err => (VNil, Some err)
  | None => (VFloat (float64_of_int (len (toString (arg 0 args)))), None)
  end.

(** ** Package [ui]: validation rules (dataValidationUI.go) *)

(** Unicode case mapping of package [strings]; parameters. *)
Class GoCase := {
  ToUpper : string → string;
  ToLower : string → string
}.

(** The expression evaluator [govaluate], a library outside the repository:
    compiling an expression against the function library gives an expression
    or an error; evaluating an expression gives a value or an error.  The
    evaluator calls the functions of the library, and some of them panic on
    some arguments ([AND] and [LEFT] below, for instance): each of the two
    calls may therefore end in a panic instead of returning. *)
Class Govaluate := {
  EvaluableExpression : Type;
  NewEvaluableExpressionWithFunctions :
    string → Res (EvaluableExpression + string);
  Evaluate : EvaluableExpression → Res (any + string)
}.

Definition nl : string := String (ascii_of_Z 10) EmptyString.

(** [p == nil || strings.TrimSpace( *p ) == ""]. *)
Definition nil_or_blank (p : option string) : bool :=
  match p with
  | None => true
  | Some s => String.eqb (TrimSpace s) ""
  end.

(** The value that [CheckValidationRule] tests, from the switch on the cell
    type: a number for the types "number" and "financial", the candidate
    text otherwise.  [None] is the early return "Value must be a number". *)
Definition testValueOf `{GoFmt} `{GoCase} (cellData : Cell)
    (cellDataTypeAux newValue : string) : option any :=
  let t := ToLower cellDataTypeAux in
  if String.eqb t "number" || String.eqb t "financial" then
    let normalized :=
      ReplaceAll newValue (EncodeRune (ThousandsSeparator cellData)) "" in
    let normalized :=
      TrimPrefix normalized (EncodeRune (FinancialSign cellData)) in
    match ParseFloat normalized with
    | Some num => Some (VFloat num)
    | None => None
    end
  else Some (VString newValue).

(** The text put in place of the placeholder. *)
Definition replacementValueOf `{GoFmt} (testValue : any) : string :=
  match testValue with
  | VFloat f => Sprintf_v f
  | _ =>
    let strValue := toString testValue in
    let strValue := ReplaceAll strValue dquote ("\" ++ dquote)%string in
    (dquote ++ strValue ++ dquote)%string
  end.

(** The expression handed to the evaluator. *)
Definition evaluableRuleOf `{GoFmt} `{GoCase} (ruleText : string)
    (testValue : any) : string :=
  let rule := TrimSpace ruleText in
  let upperRule := ToUpper rule in
  ReplaceAll upperRule "THIS" (replacementValueOf testValue).

(** [CheckValidationRule].  The result is paired with the list of the
    expressions that were handed to the evaluator during the call. *)
Definition CheckValidationRule `{GoFmt} `{GoCase} `{Govaluate}
    (cellData : Cell) (newValue : string)
    : Res (bool * string) * list string :=
  if nil_or_blank (Valrule cellData) then (Ok (true, ""), [])
  else if String.eqb (TrimSpace newValue) "" then (Ok (true, ""), [])
  else
    match Type_ cellData, Valrule cellData with
    | None, _ | _, None => (Panic, [])
    | Some cellDataTypeAux, Some ruleText =>
      match testValueOf cellData cellDataTypeAux newValue with
      | None => (Ok (false, "Value must be a number"), [])
      | Some testValue =>
        let evaluableRule := evaluableRuleOf ruleText testValue in
        match NewEvaluableExpressionWithFunctions evaluableRule with
        | Panic => (Panic, [evaluableRule])
        | Ok (inr err) =>
          (Ok (false, "Invalid validation rule: " ++ err)%string,
           [evaluableRule])
        | Ok (inl expr) =>
          match Evaluate expr with
          | Panic => (Panic, [evaluableRule])
          | Ok (inr err) =>
            (Ok (false, "Validation error: " ++ err)%string, [evaluableRule])
          | Ok (inl (VBool isValid)) =>
            if negb isValid then
              match Valrulemsg cellData with
              | Some msg =>
                if negb (String.eqb (TrimSpace msg) "")
                then (Ok (false, msg), [evaluableRule])
                else (Ok (false, "Value does not meet validation rule: "
                                 ++ ruleText)%string, [evaluableRule])
              | None =>
                (Ok (false, "Value does not meet validation rule: "
                            ++ ruleText)%string, [evaluableRule])
              end
            else (Ok (true, ""), [evaluableRule])
          | Ok (inl _) =>
            (Ok (false, "Validation rule must return true/false"),
             [evaluableRule])
          end
        end
      end
    end.

(** [EnforceValidationOnEdit]: whether the edit is accepted, the text of
    the modal shown when it is not, and the expressions handed to the
    evaluator. *)
Definition EnforceValidationOnEdit `{GoFmt} `{GoCase} `{Govaluate}
    (cellData : Cell) (newValue : string)
    : Res (bool * option string) * list string :=
  if String.eqb (TrimSpace newValue) "" then (Ok (true, None), [])
  else
    match CheckValidationRule cellData newValue with
    | (Panic, calls) => (Panic, calls)
    | (Ok (isValid, errMsg), calls) =>
      if negb isValid then
        let displayMsg :=
          match Valrulemsg cellData with
          | Some msg => if negb (String.eqb (TrimSpace msg) "") then msg
                        else errMsg
          | None => errMsg
          end in
        match Valrule cellData with
        | None => (Panic, calls)
        | Some ruleText =>
          (Ok (false,
               Some ("Validation Failed!" ++ nl ++ nl ++ displayMsg ++ nl ++ nl
                     ++ "Validation Rule:" ++ nl ++ ruleText)%string), calls)
        end
      else (Ok (true, None), calls)
    end.

(** ** Package [fileop]: saving and opening a workbook (save.go, open.go) *)

(** Helpers of the packages [cell] and [utils] whose sources are not at
    hand; they are parameters of the development.  [StripTviewTags] removes
    the colour tags of the terminal library from a text, [ColumnName] gives
    the letters of a column, [FILEVER] is the format version. *)
Class Helpers := {
  StripTviewTags : string → string;
  ColumnName : Z → string;
  FILEVER : string
}.

(** [CellData] holds a pointer to the cell, and the map of a [SheetData]
    holds pointers to [CellData]: a pointer is nil when the file read has
    null in its place or leaves the member out. *)
Record CellData := mkCellData {
  cd_Cell : option Cell;
  cd_RawValue : string
}.

Record SheetData := mkSheetData {
  sd_Name : string;
  sd_Rows : Z;
  sd_Cols : Z;
  sd_Cells : gmap string (option CellData)
}.

Record SheetInfo := mkSheetInfo {
  si_Name : string;
  si_Rows : Z;
  si_Cols : Z;
  si_GlobalData : Store
}.

Record WorkbookData := mkWorkbookData {
  wb_Version : string;
  wb_ActiveSheet : Z;
  wb_Sheets : list SheetData
}.

Record SheetResult := mkSheetResult {
  sr_Name : string;
  sr_Cells : list Cell;
  sr_Rows : Z;
  sr_Cols : Z
}.

Record WorkbookResult := mkWorkbookResult {
  wr_Sheets : list SheetResult;
  wr_ActiveSheet : Z;
  wr_Version : string
}.

(** Whether every text of a workbook is valid UTF-8: the version, the
    names of the sheets, the keys of the cells, the raw values and the texts
    of the cells. *)
Definition utf8_opt (p : option string) : bool :=
  match p with
  | Some s => valid_utf8 s
  | None => true
  end.

Definition utf8_list (p : option (list string)) : bool :=
  match p with
  | Some l => forallb valid_utf8 l
  | None => true
  end.

Definition utf8_cell (c : Cell) : bool :=
  utf8_opt (RawValue c) && utf8_opt (Display c) && utf8_opt (Type_ c)
  && utf8_opt (Notes c) && utf8_opt (Valrule c) && utf8_opt (Valrulemsg c)
  && utf8_opt (DateTimeFormat c) && utf8_list (DependsOn c)
  && utf8_list (Dependents c).

Definition utf8_celldata (name : string) (cd : option CellData) : bool :=
  valid_utf8 name
  && match cd with
     | None => true
     | Some cd =>
       valid_utf8 (cd_RawValue cd)
       && match cd_Cell cd with
          | Some c => utf8_cell c
          | None => true
          end
     end.

Definition utf8_sheet (sd : SheetData) : bool :=
  valid_utf8 (sd_Name sd)
  && map_fold (λ name cd acc, utf8_celldata name cd && acc) true (sd_Cells sd).

Definition utf8_workbook (w : WorkbookData) : bool :=
  valid_utf8 (wb_Version w) && forallb utf8_sheet (wb_Sheets w).

(** The codecs of the Go library, outside the repository.
    [json_MarshalIndent] gives the JSON text of a workbook, or an error;
    [gzip_compress] is the gzip stream of a text; [gzip_json_decode] reads a
    .gsheet file (gzip reader, then JSON decoder) and [json_decode] a .json
    file, each giving the workbook or the error returned.  [empty_file] is
    the content of a file just created.  The reader of tab-delimited text
    is a parameter here too.

    What is written is read back as it was when every text of the workbook
    is valid UTF-8: [encoding/json] replaces the bytes of a text that are
    not valid UTF-8 by the replacement character, so that such a workbook
    is not read back as it was.  The law is about the workbooks that the
    program can hold: every field of a cell is taken to be serialised, and
    every number to be within its Go type. *)
Class Codec := {
  FileBytes : Type;
  empty_file : FileBytes;
  json_MarshalIndent : WorkbookData → FileBytes + string;
  gzip_compress : FileBytes → FileBytes;
  gzip_json_decode : FileBytes → WorkbookData + string;
  json_decode : FileBytes → WorkbookData + string;
  openTxtFile : FileBytes → (list Cell * Z * Z) + string;
  gzip_json_roundtrip : ∀ w jsonBytes,
    utf8_workbook w = true →
    json_MarshalIndent w = inl jsonBytes →
    gzip_json_decode (gzip_compress jsonBytes) = inl w
}.

(** The operating system, as [SaveWorkbook] meets it.  [os_Create name] is
    the error with which [os.Create] refuses to create the file, if it
    does.  [gz_Write name jsonBytes] is the error that [gz.Write] returns
    together with what the file holds once the deferred [gz.Close] and
    [f.Close] have run; the source drops the errors of these two calls, so
    that the file can be incomplete although no error is returned. *)
Class Disk `{Codec} := {
  os_Create : string → error;
  gz_Write : string → FileBytes → error * FileBytes
}.

(** The files on disk that exist and can be read, by name. *)
Abbreviation Files := (gmap string FileBytes).

(** The file name that [SaveWorkbook] writes to. *)
Definition gsheetName (filename : string) : string :=
  if HasSuffix filename ".gsheet" then filename
  else
    let idx := Index filename "." in
    let filename := if negb (idx =? -1) then take_bytes (Z.to_nat idx) filename
                    else filename in
    (filename ++ ".gsheet")%string.

(** The persisted key of a cell: column letters and row number. *)
Definition cName `{Helpers} (c : Cell) : string :=
  (ColumnName (int32 (Column c)) ++ pretty (Row c))%string.

(** Body of the inner loop of [SaveWorkbook]; [*c.RawValue] panics on nil. *)
Definition save_cell_step `{Helpers} (key : Z * Z) (c : Cell)
    (acc : Res (gmap string (option CellData)))
    : Res (gmap string (option CellData)) :=
  match acc with
  | Panic => Panic
  | Ok cells =>
    match RawValue c with
    | None => Panic
    | Some raw =>
      let cleanRawValue := StripTviewTags (TrimSpace raw) in
      Ok (<[cName c := Some (mkCellData (Some c) cleanRawValue)]> cells)
    end
  end.

Definition save_cells `{Helpers} (globalData : Store)
    : Res (gmap string (option CellData)) :=
  map_fold save_cell_step (Ok ∅) globalData.

(** The outer loop of [SaveWorkbook]. *)
Fixpoint save_sheets `{Helpers} (sheets : list SheetInfo)
    : Res (list SheetData) :=
  match sheets with
  | [] => Ok []
  | sheet :: rest =>
    match save_cells (si_GlobalData sheet), save_sheets rest with
    | Ok cells, Ok datas =>
      Ok (mkSheetData (si_Name sheet) (si_Rows sheet) (si_Cols sheet) cells
            :: datas)
    | _, _ => Panic
    end
  end.

(** The workbook [wbData] that the two loops of [SaveWorkbook] build. *)
Definition workbook_written `{Helpers} (sheets : list SheetInfo)
    (activeSheet : Z) : Res WorkbookData :=
  match save_sheets sheets with
  | Panic => Panic
  | Ok datas => Ok (mkWorkbookData FILEVER activeSheet datas)
  end.

(** [SaveWorkbook]: the error returned and the files afterwards.  The file
    is created (and emptied, if it was there) before the workbook is
    encoded. *)
Definition SaveWorkbook `{Helpers} `{Codec} `{!Disk} (sheets : list SheetInfo)
    (activeSheet : Z) (filename : string) (files : Files)
    : Res (error * Files) :=
  let filename := gsheetName filename in
  match workbook_written sheets activeSheet with
  | Panic => Panic
  | Ok wbData =>
    match os_Create filename with
    | Some err => Ok (Some err, files)
    | None =>
      let files := <[filename := empty_file]> files in
      match json_MarshalIndent wbData with
      | inr err => Ok (Some err, files)
      | inl jsonBytes =>
        Ok (fst (gz_Write filename jsonBytes),
            <[filename := snd (gz_Write filename jsonBytes)]> files)
      end
    end
  end.

(** The save goes through: the file is created, the workbook is encoded,
    and the write returns no error and leaves the whole gzip stream in the
    file. *)
Definition save_succeeds `{Codec} `{!Disk} (filename : string)
    (wbData : WorkbookData) : Prop :=
  os_Create filename = None ∧
  ∃ jsonBytes, json_MarshalIndent wbData = inl jsonBytes ∧
               gz_Write filename jsonBytes = (None, gzip_compress jsonBytes).

(** What the loop of [processCellData] leaves of a cell [cell] saved with
    the raw value [raw]. *)
Definition loaded_cell (cell : Cell) (raw : string) : Cell :=
  let some_or (d : string) (p : option string) : option string :=
    match p with Some _ => p | None => Some d end in
  mkCell (Row cell) (Column cell) (MaxWidth cell) (MinWidth cell)
    (Some raw)
    (some_or raw (Display cell))
    (some_or "string" (Type_ cell))
    (some_or "" (Notes cell))
    (some_or "" (Valrule cell))
    (some_or "" (Valrulemsg cell))
    (Color cell) (BgColor cell) (DecimalPoints cell)
    (ThousandsSeparator cell) (DecimalSeparator cell) (FinancialSign cell)
    (DateTimeFormat cell) (Align cell) (Flags cell)
    (match DependsOn cell with Some _ => DependsOn cell | None => Some [] end)
    (match Dependents cell with Some _ => Dependents cell | None => Some [] end).

(** Body of the loop of [processCellData] on one entry: the first
    statement, [c.Cell.RawValue = &c.RawValue], dereferences [c] and
    [c.Cell] unchecked and panics when one of them is nil. *)
Definition processCell (c : option CellData) : Res Cell :=
  match c with
  | None => Panic
  | Some c =>
    match cd_Cell c with
    | None => Panic
    | Some cell => Ok (loaded_cell cell (cd_RawValue c))
    end
  end.

Definition processCellData (cellDataMap : gmap string (option CellData))
    : Res (list Cell) :=
  map_fold (λ _ c cells,
              match cells, processCell c with
              | Ok cells, Ok cell => Ok (cells ++ [cell])%list
              | _, _ => Panic
              end) (Ok []) cellDataMap.

(** The loop of [OpenWorkbook] over the sheets decoded. *)
Fixpoint open_sheets (sheets : list SheetData) : Res (list SheetResult) :=
  match sheets with
  | [] => Ok []
  | sheetData :: rest =>
    match processCellData (sd_Cells sheetData), open_sheets rest with
    | Ok cells, Ok results =>
      Ok (mkSheetResult (sd_Name sheetData) cells (sd_Rows sheetData)
            (sd_Cols sheetData) :: results)
    | _, _ => Panic
    end
  end.

(** How a call of [OpenWorkbook] ends. *)
Inductive Opened : Type :=
| OpenOk (result : WorkbookResult)
| OpenErr (msg : string)
| OpenPanic
| OpenNoReturn.

(** [OpenWorkbook].  A decoded workbook with no version and no sheet is
    sent to [openLegacyFormat], which calls [OpenTable], which calls
    [OpenWorkbook] on the same file name: that call does not return. *)
Definition OpenWorkbook `{Helpers} `{Codec} (files : Files)
    (filename : string) : Opened :=
  match files !! filename with
  | None => OpenErr "file does not exist"
  | Some bytes =>
    if HasSuffix filename ".txt" then
      match openTxtFile bytes with
      | inr err => OpenErr err
      | inl (cells, rows, cols) =>
        OpenOk (mkWorkbookResult [mkSheetResult "Workbook1" cells rows cols]
                  0 FILEVER)
      end
    else if negb (HasSuffix filename ".gsheet" || HasSuffix filename ".json")
    then OpenErr "invalid file format (expected .gsheet, .json, or .txt)"
    else
      let decoded :=
        if HasSuffix filename ".gsheet" then gzip_json_decode bytes
        else json_decode bytes in
      match decoded with
      | inr err => OpenErr err
      | inl wbData =>
        if String.eqb (wb_Version wbData) ""
           && (Z.of_nat (List.length (wb_Sheets wbData)) =? 0)
        then OpenNoReturn
        else
          match open_sheets (wb_Sheets wbData) with
          | Panic => OpenPanic
          | Ok results =>
            OpenOk (mkWorkbookResult results (wb_ActiveSheet wbData)
                      (wb_Version wbData))
          end
      end
  end.

(** The loop of [table.OpenTable] that fills the store of a sheet from the
    cells read. *)
Definition populate (cellSlice : list Cell) : Store :=
  fold_left (λ data c, <[(Row c, Column c) := c]> data)
            cellSlice ∅.

(** [table.OpenTable] as a whole, on the cells that [fileop.OpenTable]
    returned: the store of the first sheet once the loop has filled it and
    [RenderVisible] has run on it.  [vp] is the viewport of the workbook
    that [NewWorkbook] makes, whose store is taken to be empty; the
    constructor is not among the sources. *)
Definition OpenTable_store (vp : Viewport) (cellSlice : list Cell) : Store :=
  RenderVisible vp (populate cellSlice).

(** What a cell is after a save and a reload: what [processCellData]
    leaves of what [SaveWorkbook] stored for it. *)
Definition reloaded `{Helpers} (c : Cell) : Cell :=
  loaded_cell c
    (StripTviewTags (TrimSpace (default EmptyString (RawValue c)))).

(** The formatting attributes of a cell. *)
Definition formatting (c : Cell)
    : Z * Z * ColorRGB * ColorRGB * Z * Z * Z * Z * option string * Z * Z :=
  (MaxWidth c, MinWidth c, Color c, BgColor c, DecimalPoints c,
   ThousandsSeparator c, DecimalSeparator c, FinancialSign c,
   DateTimeFormat c, Align c, Flags c).

(** Where the inner loop of [SaveWorkbook] puts a cell whose raw value is
    set, and the two conditions on a store under which the loop is studied:
    every raw value is set, and no two cells have the same persisted key. *)
Definition save_dest `{Helpers} (key : Z * Z) (c : Cell)
    : option (string * option CellData) :=
  Some (cName c,
        Some (mkCellData (Some c)
                (StripTviewTags
                   (TrimSpace (default EmptyString (RawValue c)))))).

Definition raw_values_set (data : Store) : Prop :=
  ∀ key c, data !! key = Some c → is_Some (RawValue c).

Definition names_distinct `{Helpers} (data : Store) : Prop :=
  ∀ k1 c1 k2 c2, data !! k1 = Some c1 → data !! k2 = Some c2 →
    cName c1 = cName c2 → k1 = k2.

(** Every key is the (Row, Column) of its cell. *)
Definition keyed_by_coordinates (data : Store) : Prop :=
  ∀ key c, data !! key = Some c → key = (Row c, Column c).

(** ** Sample data

    [NewCell] is the blank cell that [cell.NewCell(row, col, "")] and the
    loaders build: empty texts, white on black, no flag. *)
Definition NewCell (row col : Z) (raw : string) : Cell :=
  mkCell row col 0 0 (Some raw) (Some raw) (Some "string") (Some "") (Some "")
    (Some "") ColorWhite ColorBlack 0 0 0 0 (Some "auto") 0 0 (Some [])
    (Some []).

Definition with_Flags (f : Z) (c : Cell) : Cell :=
  mkCell (Row c) (Column c) (MaxWidth c) (MinWidth c) (RawValue c) (Display c)
    (Type_ c) (Notes c) (Valrule c) (Valrulemsg c) (Color c) (BgColor c)
    (DecimalPoints c) (ThousandsSeparator c) (DecimalSeparator c)
    (FinancialSign c) (DateTimeFormat c) (Align c) f (DependsOn c)
    (Dependents c).

(** A 20 x 10 window at the top left corner of the grid. *)
Definition vp_home : Viewport := mkViewport 1 1 20 10.

(** Three cells in row 2, at columns 1, 3 and 4. *)
Definition sample_store : Store :=
  <[(2, 1) := NewCell 2 1 "a"]>
    (<[(2, 3) := NewCell 2 3 "b"]> {[ (2, 4) := NewCell 2 4 "c" ]}).

(** A blank cell far from [vp_home] whose only attribute is the
    strikethrough style flag. *)
Definition struck_cell : Cell := with_Flags FlagStrikethrough (NewCell 1000 1000 "").

(** Sample parameters, to run the definitions on examples.

    [sample_fmt] reads and prints the number 7 only; [sample_case] maps the
    case of ASCII letters; [sample_math] returns the values at 0 (sine 0,
    cosine 1, tangent 0, hyperbolic tangent 0) at every argument but two:
    for the cosine of the binary64 number nearest to pi/2 and the sine of
    the one nearest to pi it returns what Go's [math.Cos] and [math.Sin]
    return there, 6.123233995736757e-17 and 1.2246467991473515e-16;
    [sample_govaluate] evaluates three expressions: "1 == 1", "1 == 2" and
    "1". *)
Definition sample_fmt : GoFmt := {|
  Sscanf_f := λ s, if String.eqb s "7" then (7%float, None)
                   else (0%float, Some "input does not match format");
  Sprintf_v := λ f, if PrimFloat.eqb f 7 then "7" else "0";
  ParseFloat := λ s, if String.eqb s "7" then Some 7%float else None
|}.

Definition ascii_upper (a : ascii) : ascii :=
  let b := byteZ a in
  if (97 <=? b) && (b <=? 122) then ascii_of_Z (b - 32) else a.
Definition ascii_lower (a : ascii) : ascii :=
  let b := byteZ a in
  if (65 <=? b) && (b <=? 90) then ascii_of_Z (b + 32) else a.
Fixpoint map_bytes (f : ascii → ascii) (s : string) : string :=
  match s with
  | EmptyString => EmptyString
  | String a t => String (f a) (map_bytes f t)
  end.

Definition sample_case : GoCase := {|
  ToUpper := map_bytes ascii_upper;
  ToLower := map_bytes ascii_lower
|}.

Definition half_pi : float := 0x1.921fb54442d18p+0%float.
Definition pi : float := 0x1.921fb54442d18p+1%float.

Definition sample_math : GoMath := {|
  math_Sin := λ x, if PrimFloat.eqb x pi then 0x1.1a62633145cp-53%float
                   else 0%float;
  math_Cos := λ x, if PrimFloat.eqb x half_pi then 0x1.1a62633145cp-54%float
                   else 1%float;
  math_Tan := λ x, 0%float;
  math_Tanh := λ x, 0%float
|}.

Definition sample_govaluate : Govaluate := {|
  EvaluableExpression := any;
  NewEvaluableExpressionWithFunctions := λ s,
    if String.eqb s "1 == 1" then Ok (inl (VBool true))
    else if String.eqb s "1 == 2" then Ok (inl (VBool false))
    else if String.eqb s "1" then Ok (inl (VFloat 1))
    else Ok (inr "Unable to plan expression");
  Evaluate := λ e, Ok (inl e)
|}.

(** The two bytes of the UTF-8 encoding of U+00E9 (e with acute accent),
    and the three bytes of that letter followed by "b". *)
Definition e_acute : string := String "195" (String "169" EmptyString).
Definition e_acute_b : string := (e_acute ++ "b")%string.

Definition with_Valrule (rule : string) (c : Cell) : Cell :=
  mkCell (Row c) (Column c) (MaxWidth c) (MinWidth c) (RawValue c) (Display c)
    (Type_ c) (Notes c) (Some rule) (Valrulemsg c) (Color c) (BgColor c)
    (DecimalPoints c) (ThousandsSeparator c) (DecimalSeparator c)
    (FinancialSign c) (DateTimeFormat c) (Align c) (Flags c) (DependsOn c)
    (Dependents c).

(** A text cell whose validation rule is the expression "1", which is not
    a condition; and a cell whose rule cannot even be compiled. *)
Definition number_rule_cell : Cell := with_Valrule "1" (NewCell 1 1 "").
Definition broken_rule_cell : Cell := with_Valrule "THIS >" (NewCell 1 1 "").

(** Modelled from the spec: "the persisted coordinate key is the
    spreadsheet-style address (column letters + row number, e.g. B12)";
    [utils.ColumnName] is not among the sources.  Column 1 is A, 26 is Z,
    27 is AA.  Seven letters cover every positive [int32]. *)
Fixpoint column_letters_from (fuel : nat) (col : Z) (name : string) : string :=
  match fuel with
  | O => name
  | S fuel' =>
    if col <=? 0 then name
    else column_letters_from fuel' ((col - 1) / 26)
           (String (ascii_of_Z (65 + (col - 1) mod 26)) name)
  end.
Definition column_letters (col : Z) : string :=
  column_letters_from 7 col EmptyString.

(** Sample helpers and codec: texts without colour tags, which
    [StripTviewTags] returns as they are; files that hold the workbook
    structure itself, or nothing when just created. *)
Definition sample_helpers : Helpers := {|
  StripTviewTags := λ s, s;
  ColumnName := column_letters;
  FILEVER := "1.0"
|}.

Definition sample_codec : Codec := {|
  FileBytes := option WorkbookData;
  empty_file := None;
  json_MarshalIndent := λ w, inl (Some w);
  gzip_compress := λ b, b;
  gzip_json_decode := λ b, match b with Some w => inl w | None => inr "EOF" end;
  json_decode := λ b, match b with Some w => inl w | None => inr "EOF" end;
  openTxtFile := λ _, inr "not a text file";
  gzip_json_roundtrip := ltac:(by intros w jsonBytes _ [= <-])
|}.

(** A disk that refuses nothing and keeps what is written. *)
Definition sample_disk : @Disk sample_codec := {|
  os_Create := λ _, None;
  gz_Write := λ _ jsonBytes, (None, jsonBytes)
|}.

Definition sample_sheet : SheetInfo := mkSheetInfo "Sheet1" 20 10 sample_store.

(** A sheet with one cell, whose raw text starts with a space. *)
Definition padded_sheet : SheetInfo :=
  mkSheetInfo "Sheet1" 20 10 {[ (1, 1) := NewCell 1 1 " a" ]}.

Definition vp_far : Viewport := mkViewport 1 200 20 10.
Definition left_edge_store : Store := {[ (1, 100) := NewCell 1 100 "" ]}.
Definition vp_low : Viewport := mkViewport 200 1 20 10.
Definition top_edge_store : Store := {[ (100, 1) := NewCell 100 1 "" ]}.

(** ** More of the function library (govaluatefunc.go) *)

(** [v.(bool)]: a type assertion, which panics on any other dynamic type. *)
Definition assertBool (v : any) : Res bool :=
  match v with
  | VBool b => Ok b
  | _ => Panic
  end.

(** The loop of [IFS]: [rest] is [args[i:]], and the loop goes on while
    [i < len(args)-1], that is while two arguments are left. *)
Fixpoint IFS_loop (rest : list any) (lastArg : any) : Res (any * error) :=
  match rest with
  | cond :: value :: rest' =>
    match assertBool cond with
    | Panic => Panic
    | Ok true => Ok (value, None)
    | Ok false => IFS_loop rest' lastArg
    end
  | _ => Ok (lastArg, None)
  end.

Definition IFS (args : list any) : Res (any * error) :=
  match validateArgs "IFS" args 2 (-1) with
  | Some err => Ok (VNil, Some err)
  | None => IFS_loop args (List.last args VNil)
  end.

Fixpoint AND_loop (rest : list any) : Res (any * error) :=
  match rest with
  | [] => Ok (VBool true, None)
  | a :: rest' =>
    match assertBool a with
    | Panic => Panic
    | Ok b => if negb b then Ok (VBool false, None) else AND_loop rest'
    end
  end.

Definition AND (args : list any) : Res (any * error) :=
  match validateArgs "AND" args 2 (-1) with
  | Some err => Ok (VNil, Some err)
  | None => AND_loop args
  end.

Fixpoint OR_loop (rest : list any) : Res (any * error) :=
  match rest with
  | [] => Ok (VBool false, None)
  | a :: rest' =>
    match assertBool a with
    | Panic => Panic
    | Ok b => if b then Ok (VBool true, None) else OR_loop rest'
    end
  end.

Definition OR (args : list any) : Res (any * error) :=
  match validateArgs "OR" args 2 (-1) with
  | Some err => Ok (VNil, Some err)
  | None => OR_loop args
  end.

(** The loop of [XOR] counts the true arguments. *)
Fixpoint XOR_loop (rest : list any) (count : Z) : Res Z :=
  match rest with
  | [] => Ok count
  | a :: rest' =>
    match assertBool a with
    | Panic => Panic
    | Ok b => XOR_loop rest' (if b then count + 1 else count)
    end
  end.

Definition XOR (args : list any) : Res (any * error) :=
  match validateArgs "XOR" args 2 (-1) with
  | Some err => Ok (VNil, Some err)
  | None =>
    match XOR_loop args 0 with
    | Panic => Panic
    | Ok count => Ok (VBool (Z.rem count 2 =? 1), None)
    end
  end.

(** [SUM], [PRODUCT] and [AVG] drop the error of [toFloat]. *)
Definition SUM `{GoFmt} (args : list any) : any * error :=
  match validateArgs "SUM" args 2 (-1) with
  | Some err => (VNil, Some err)
  | None =>
    (VFloat (fold_left (λ sum a, (sum + fst (toFloat a))%float) args 0%float),
     None)
  end.

Definition PRODUCT `{GoFmt} (args : list any) : any * error :=
  match validateArgs "PRODUCT" args 2 (-1) with
  | Some err => (VNil, Some err)
  | None =>
    (VFloat (fold_left (λ product a, (product * fst (toFloat a))%float) args
                       1%float),
     None)
  end.

Definition AVG `{GoFmt} (args : list any) : any * error :=
  match validateArgs "AVG" args 2 (-1) with
  | Some err => (VNil, Some err)
  | None =>
    (VFloat (fold_left (λ sum a, (sum + fst (toFloat a))%float) args 0%float
             / float64_of_int (Z.of_nat (List.length args)))%float,
     None)
  end.

Definition CHOOSE `{GoFmt} (args : list any) : any * error :=
  match validateArgs "CHOOSE" args 2 (-1) with
  | Some err => (VNil, Some err)
  | None =>
    match toFloat (arg 0 args) with
    | (_, Some err) => (VNil, Some ("CHOOSE: " ++ err)%string)
    | (index, None) =>
      let idx := int_of_float64 index in
      if (idx <? 1) || (Z.of_nat (List.length args) <=? idx)
      then (VNil, Some "index out of range")
      else (arg (Z.to_nat idx) args, None)
    end
  end.

Definition LEFT `{GoFmt} (args : list any) : Res (any * error) :=
  match validateArgs "LEFT" args 2 2 with
  | Some err => Ok (VNil, Some err)
  | None =>
    let text := toString (arg 0 args) in
    match toFloat (arg 1 args) with
    | (_, Some err) => Ok (VNil, Some ("LEFT: " ++ err)%string)
    | (length, None) =>
      let n := int_of_float64 length in
      let rs := runes text in
      if Z.of_nat (List.length rs) <? n then Ok (VString text, None)
      else
        match slice rs 0 n with
        | Ok part => Ok (VString (string_of_runes part), None)
        | Panic => Panic
        end
    end
  end.

Definition RIGHT `{GoFmt} (args : list any) : Res (any * error) :=
  match validateArgs "RIGHT" args 2 2 with
  | Some err => Ok (VNil, Some err)
  | None =>
    let text := toString (arg 0 args) in
    match toFloat (arg 1 args) with
    | (_, Some err) => Ok (VNil, Some ("RIGHT: " ++ err)%string)
    | (length, None) =>
      let n := int_of_float64 length in
      let rs := runes text in
      if Z.of_nat (List.length rs) <? n then Ok (VString text, None)
      else
        match slice rs (int64 (Z.of_nat (List.length rs) - n))
                    (Z.of_nat (List.length rs)) with
        | Ok part => Ok (VString (string_of_runes part), None)
        | Panic => Panic
        end
    end
  end.

(** The loop [for b != 0 { a, b = b, a%b }] of [GCD] and [LCM].  Go's [%]
    is the remainder of the division that truncates towards zero, [Z.rem];
    the remainder of two [int] values is an [int] value.  The absolute
    value of [b] decreases at every turn, so [S (Z.abs_nat b)] turns are
    enough; [fuel] counts them. *)
Fixpoint gcd_loop (fuel : nat) (a b : Z) : Z :=
  match fuel with
  | O => a
  | S fuel' => if b =? 0 then a else gcd_loop fuel' b (Z.rem a b)
  end.

Definition gcd_of (a b : Z) : Z := gcd_loop (S (Z.abs_nat b)) a b.

Definition GCD `{GoFmt} (args : list any) : any * error :=
  match validateArgs "GCD" args 2 2 with
  | Some err => (VNil, Some err)
  | None =>
    match toFloat (arg 0 args) with
    | (_, Some err) => (VNil, Some ("GCD: " ++ err)%string)
    | (f1, None) =>
      match toFloat (arg 1 args) with
      | (_, Some err) => (VNil, Some ("GCD: " ++ err)%string)
      | (f2, None) =>
        (VFloat (float64_of_int
                   (gcd_of (int_of_float64 f1) (int_of_float64 f2))), None)
      end
    end
  end.

(** [a / gcd * b] on [int]: the division truncates and panics on a zero
    divisor; quotient and product wrap around. *)
Definition LCM `{GoFmt} (args : list any) : Res (any * error) :=
  match validateArgs "LCM" args 2 2 with
  | Some err => Ok (VNil, Some err)
  | None =>
    match toFloat (arg 0 args) with
    | (_, Some err) => Ok (VNil, Some ("LCM: " ++ err)%string)
    | (f1, None) =>
      match toFloat (arg 1 args) with
      | (_, Some err) => Ok (VNil, Some ("LCM: " ++ err)%string)
      | (f2, None) =>
        let a := int_of_float64 f1 in
        let b := int_of_float64 f2 in
        let gcd := gcd_of a b in
        if gcd =? 0 then Panic
        else Ok (VFloat (float64_of_int (int64 (int64 (Z.quot a gcd) * b))),
                 None)
      end
    end
  end.

(** [FACTORIAL] drops the error of [toFloat]; the loop runs [i] from 2 to
    [int(n)]. *)
Definition FACTORIAL `{GoFmt} (args : list any) : any * error :=
  match validateArgs "FACTORIAL" args 1 1 with
  | Some err => (VNil, Some err)
  | None =>
    let n := fst (toFloat (arg 0 args)) in
    (VFloat (fold_left (λ result i, (result * float64_of_int i)%float)
                       (seqZ 2 (int_of_float64 n - 1)) 1%float),
     None)
  end.

(** ** More of package [fileop]: HTML escaping (save.go) *)

Definition htmlEscape (s : string) : string :=
  let s := ReplaceAll s "&" "&amp;" in
  let s := ReplaceAll s "<" "&lt;" in
  let s := ReplaceAll s ">" "&gt;" in
  ReplaceAll s dquote "&quot;".

(** Whether the byte [a] occurs in [s]. *)
Fixpoint has_byte (a : ascii) (s : string) : bool :=
  match s with
  | EmptyString => false
  | String b t => Ascii.eqb a b || has_byte a t
  end.


(** ** More of package [fileop]: the legacy path of open.go *)

(** [OpenTable], from what its call of [OpenWorkbook] returned. *)
Definition OpenTable_of (r : WorkbookResult + string) : list Cell + string :=
  match r with
  | inr err => inr err
  | inl result =>
    match wr_Sheets result with
    | [] => inr "no sheets found in workbook"
    | firstSheet :: _ => inl (sr_Cells firstSheet)
    end
  end.

(** [openLegacyFormat], from what its call of [OpenTable] returned; the
    sheet has no [Rows] and [Cols] set. *)
Definition openLegacyFormat_of (r : list Cell + string)
    : WorkbookResult + string :=
  match r with
  | inr err => inr err
  | inl cells =>
    inl (mkWorkbookResult [mkSheetResult "Workbook1" cells 0 0] 0 "1.0")
  end.

(** [OpenWorkbook] with its calls followed: [depth] bounds the number of
    nested calls of [OpenWorkbook], and [None] says that the bound was
    reached before the outermost call returned.  A call that returns gives
    a result or an error; a panic in a nested call ends the outer calls
    too. *)
Fixpoint OpenWorkbook_steps `{Helpers} `{Codec} (depth : nat) (files : Files)
    (filename : string) : option (Res (WorkbookResult + string)) :=
  match depth with
  | O => None
  | S depth' =>
    match files !! filename with
    | None => Some (Ok (inr "file does not exist"))
    | Some bytes =>
      if HasSuffix filename ".txt" then
        match openTxtFile bytes with
        | inr err => Some (Ok (inr err))
        | inl (cells, rows, cols) =>
          Some (Ok (inl (mkWorkbookResult
                           [mkSheetResult "Workbook1" cells rows cols]
                           0 FILEVER)))
        end
      else if negb (HasSuffix filename ".gsheet" || HasSuffix filename ".json")
      then Some (Ok (inr "invalid file format (expected .gsheet, .json, or .txt)"))
      else
        let decoded :=
          if HasSuffix filename ".gsheet" then gzip_json_decode bytes
          else json_decode bytes in
        match decoded with
        | inr err => Some (Ok (inr err))
        | inl wbData =>
          if String.eqb (wb_Version wbData) ""
             && (Z.of_nat (List.length (wb_Sheets wbData)) =? 0)
          then
            match OpenWorkbook_steps depth' files filename with
            | None => None
            | Some Panic => Some Panic
            | Some (Ok r) => Some (Ok (openLegacyFormat_of (OpenTable_of r)))
            end
          else
            match open_sheets (wb_Sheets wbData) with
            | Panic => Some Panic
            | Ok results =>
              Some (Ok (inl (mkWorkbookResult results (wb_ActiveSheet wbData)
                               (wb_Version wbData))))
            end
        end
    end
  end.

(** A file in the native format that holds a workbook without version and
    without sheets. *)
Definition legacy_files : gmap string (option WorkbookData) :=
  {[ "old.gsheet" := Some (mkWorkbookData "" 0 []) ]}.

(** ** More of package [ui]: removing and storing a rule
    (dataValidationUI.go) *)

Definition set_Valrule (rule : option string) (c : Cell) : Cell :=
  mkCell (Row c) (Column c) (MaxWidth c) (MinWidth c) (RawValue c) (Display c)
    (Type_ c) (Notes c) rule (Valrulemsg c) (Color c) (BgColor c)
    (DecimalPoints c) (ThousandsSeparator c) (DecimalSeparator c)
    (FinancialSign c) (DateTimeFormat c) (Align c) (Flags c) (DependsOn c)
    (Dependents c).

Definition set_Valrulemsg (msg : option string) (c : Cell) : Cell :=
  mkCell (Row c) (Column c) (MaxWidth c) (MinWidth c) (RawValue c) (Display c)
    (Type_ c) (Notes c) (Valrule c) msg (Color c) (BgColor c)
    (DecimalPoints c) (ThousandsSeparator c) (DecimalSeparator c)
    (FinancialSign c) (DateTimeFormat c) (Align c) (Flags c) (DependsOn c)
    (Dependents c).

(** [deleteRule]: the cell as it is left, and the store of the sheet.  The
    refresh of the screen is left out. *)
Definition deleteRule (cellData : Cell) (row col : Z) (globalData : Store)
    : Cell * Store :=
  let emptyStr := "" in
  let cellData := set_Valrule (Some emptyStr) cellData in
  let cellData := set_Valrulemsg (Some emptyStr) cellData in
  (cellData, <[(row, col) := cellData]> globalData).

(** The matches of [validationCellRefRegex] in a text: the regular
    expression library is outside the repository. *)
Class GoRegexp := {
  validationCellRefRegex_FindAllString : string → list string
}.

Definition ValidateValidationRule `{GoCase} `{Govaluate} `{GoRegexp}
    (ruleText : string) (cellData : Cell) : Res bool :=
  if String.eqb (TrimSpace ruleText) "" then Ok true
  else
    let upperRule := ToUpper ruleText in
    let matches := validationCellRefRegex_FindAllString upperRule in
    if negb (forallb (λ m, String.eqb m "THIS") matches) then Ok false
    else
      let testRule := ReplaceAll upperRule "THIS" "5" in
      match NewEvaluableExpressionWithFunctions testRule with
      | Panic => Panic
      | Ok (inr _) => Ok false
      | Ok (inl _) => Ok true
      end.

(** [saveRule]: whether the rule was stored (otherwise the error modal is
    shown), the cell as it is left, and the store of the sheet.  The
    condition is [ruleText == "" || ValidateValidationRule(...)]: the check
    is not run on an empty rule. *)
Definition saveRule `{GoCase} `{Govaluate} `{GoRegexp} (cellData : Cell)
    (ruleText : string) (row col : Z) (globalData : Store)
    : Res (bool * Cell * Store) :=
  let ruleText := TrimSpace ruleText in
  let stored :=
    let cellData := set_Valrule (Some ruleText) cellData in
    Ok (true, cellData, <[(row, col) := cellData]> globalData) in
  if String.eqb ruleText "" then stored
  else
    match ValidateValidationRule ruleText cellData with
    | Panic => Panic
    | Ok true => stored
    | Ok false => Ok (false, cellData, globalData)
    end.

(** A matcher that finds no cell reference. *)
Definition sample_regexp : GoRegexp := {|
  validationCellRefRegex_FindAllString := λ _, []
|}.

(** A cell as a file may hold it, with every optional field left out, and
    a file in the native format with this one cell. *)
Definition bare_cell : Cell :=
  mkCell 1 1 0 0 None None None None None None ColorWhite ColorBlack 0 0 0 0
    None 0 0 None None.

Definition sparse_files : gmap string (option WorkbookData) :=
  {[ "w.gsheet" :=
       Some (mkWorkbookData "1.0" 0
               [mkSheetData "Sheet1" 1 1
                  {[ "A1" := Some (mkCellData (Some bare_cell) "x") ]}]) ]}.

(** A numeric cell with the rule "1 == 2", which no value meets. *)
Definition failing_rule_cell : Cell := with_Valrule "1 == 2" (NewCell 1 1 "").

(** ** Tab-delimited text: [SaveTableAsTXT] (save.go) and [openTxtFile]
    (open.go) *)

Definition TAB : ascii := ascii_of_Z 9.
Definition LF : ascii := ascii_of_Z 10.
Definition CR : ascii := ascii_of_Z 13.
Definition tab : string := String TAB EmptyString.

(** [strings.Join]. *)
Definition Join (elems : list string) (sep : string) : string :=
  String.concat sep elems.

(** [strings.Split(s, sep)] for a non-empty [sep]: the pieces of [s] between
    the non-overlapping occurrences of [sep] found from the left.  The
    first piece of the result is the one that starts where [s] starts;
    [skip] counts the bytes of an occurrence still to be passed over. *)
Fixpoint split_from (sep : string) (skip : nat) (s : string) : list string :=
  match s with
  | EmptyString => [EmptyString]
  | String a t =>
    match skip with
    | S n => split_from sep n t
    | O =>
      if String.prefix sep s
      then EmptyString :: split_from sep (String.length sep - 1) t
      else match split_from sep 0 t with
           | piece :: pieces => String a piece :: pieces
           | [] => [String a EmptyString]
           end
    end
  end.

(** For an empty [sep] the text is cut after every code point. *)
Definition Split (s sep : string) : list string :=
  match sep with
  | EmptyString => map snd (DecodeRunes s)
  | _ => split_from sep 0 s
  end.

(** The two loops over the keys that find the extent of the grid; both
    maxima are [int32] variables that start at 0. *)
Definition extent_step (key : Z * Z) (_ : Cell) (acc : Z * Z) : Z * Z :=
  let r := int32 (fst key) in
  let c := int32 (snd key) in
  (if fst acc <? r then r else fst acc, if snd acc <? c then c else snd acc).

Definition extent (globalData : Store) : Z * Z :=
  map_fold extent_step (0, 0) globalData.

(** The text of one field: the raw value of the cell at the position, the
    empty text where there is no cell or no raw value. *)
Definition txt_value (globalData : Store) (row col : Z) : string :=
  match globalData !! (row, col) with
  | Some cellData =>
    match RawValue cellData with
    | Some v => v
    | None => EmptyString
    end
  | None => EmptyString
  end.

Definition txt_line (globalData : Store) (maxCol row : Z) : string :=
  (Join (map (txt_value globalData row) (seqZ 1 maxCol)) tab ++ nl)%string.

(** The text that [SaveTableAsTXT] writes, line after line.  The loop
    counters are [int32] variables compared with [<=] to the maxima: when a
    maximum is the greatest [int32] the loop does not end, which is [None]
    here. *)
Definition SaveTableAsTXT_text (globalData : Store) : option string :=
  let maxRow := fst (extent globalData) in
  let maxCol := snd (extent globalData) in
  if (maxRow =? MaxInt32) || ((1 <=? maxRow) && (maxCol =? MaxInt32))
  then None
  else Some (fold_right (λ line acc, line ++ acc)%string EmptyString
               (map (txt_line globalData maxCol) (seqZ 1 maxRow))).

(** [bufio.Scanner] with its default split function [ScanLines], from the
    Go library.  The text is cut after every line feed; a last piece
    without line feed counts when it is not empty. *)
Fixpoint raw_lines (s : string) : list string :=
  match s with
  | EmptyString => []
  | String a t =>
    if Ascii.eqb a LF then EmptyString :: raw_lines t
    else match raw_lines t with
         | [] => [String a EmptyString]
         | l :: ls => String a l :: ls
         end
  end.

(** One carriage return at the end of a line is dropped. *)
Definition dropCR (data : string) : string :=
  if HasSuffix data (String CR EmptyString)
  then take_bytes (String.length data - 1) data
  else data.

(** The buffer of the scanner holds 64 KiB: a line of that many bytes or
    more stops the scan with an error. *)
Definition MaxScanTokenSize : Z := 64 * 1024.

Definition Scanner_scan (text : string) : list string * error :=
  let lines := raw_lines text in
  if forallb (λ l, len l <? MaxScanTokenSize) lines
  then (map dropCR lines, None)
  else ([], Some "bufio.Scanner: token too long").

(** The constants of package [utils] that [openTxtFile] puts in a new
    cell; the package is not among the sources. *)
Class CellDefaults := {
  DEFAULT_CELL_MAX_WIDTH : Z;
  DEFAULT_CELL_MIN_WIDTH : Z;
  ColorOptions_White : ColorRGB;
  ColorOptions_Black : ColorRGB;
  DEFAULT_CELL_DECIMAL_POINTS : Z;
  DEFAULT_CELL_THOUSANDS_SEPARATOR : Z;
  DEFAULT_CELL_DECIMAL_SEPARATOR : Z;
  DEFAULT_CELL_FINANCIAL_SIGN : Z
}.

(** The cell that [openTxtFile] builds for a field; the rule message is
    left nil. *)
Definition txt_cell `{CellDefaults} (row col : Z) (value : string) : Cell :=
  mkCell row col DEFAULT_CELL_MAX_WIDTH DEFAULT_CELL_MIN_WIDTH
    (Some value) (Some value) (Some "string") (Some "") (Some "") None
    ColorOptions_White ColorOptions_Black DEFAULT_CELL_DECIMAL_POINTS
    DEFAULT_CELL_THOUSANDS_SEPARATOR DEFAULT_CELL_DECIMAL_SEPARATOR
    DEFAULT_CELL_FINANCIAL_SIGN (Some "auto") 0 0 (Some []) (Some []).

(** The inner loop of [openTxtFile] over the fields of a line, from the
    field of index [col] on: empty fields give no cell. *)
Fixpoint txt_line_cells `{CellDefaults} (row col : Z) (values : list string)
    : list Cell :=
  match values with
  | [] => []
  | value :: rest =>
    ((if String.eqb value "" then []
      else [txt_cell row (int32 (col + 1)) value])
     ++ txt_line_cells row (col + 1) rest)%list
  end.

(** The outer loop, over the lines scanned. *)
Fixpoint openTxt_loop `{CellDefaults} (lines : list string) (row maxCol : Z)
    (cells : list Cell) : list Cell * Z * Z :=
  match lines with
  | [] => (cells, row, maxCol)
  | line :: rest =>
    let values := Split line tab in
    let n := int32 (Z.of_nat (List.length values)) in
    let maxCol := if maxCol <? n then n else maxCol in
    openTxt_loop rest (int32 (row + 1)) maxCol
      (cells ++ txt_line_cells row 0 values)%list
  end.

(** [openTxtFile] on the text of the file: the cells, the number of rows
    and the number of columns, or the error of the scanner. *)
Definition openTxtFile_text `{CellDefaults} (text : string)
    : (list Cell * Z * Z) + string :=
  match Scanner_scan text with
  | (_, Some err) => inr ("error reading file: " ++ err)%string
  | (lines, None) =>
    match openTxt_loop lines 1 0 [] with
    | (cells, row, maxCol) => inl (cells, int32 (row - 1), maxCol)
    end
  end.

(** Sample constants. *)
Definition sample_defaults : CellDefaults := {|
  DEFAULT_CELL_MAX_WIDTH := 0;
  DEFAULT_CELL_MIN_WIDTH := 0;
  ColorOptions_White := ColorWhite;
  ColorOptions_Black := ColorBlack;
  DEFAULT_CELL_DECIMAL_POINTS := 0;
  DEFAULT_CELL_THOUSANDS_SEPARATOR := 0;
  DEFAULT_CELL_DECIMAL_SEPARATOR := 0;
  DEFAULT_CELL_FINANCIAL_SIGN := 0
|}.
(** * Properties *)

#[local] Set Warnings "-clear-no-such-hyp".

(** ** Machine integers *)

Lemma int32_id z : in_int32 z -> int32 z = z.
Proof.
  unfold in_int32, MinInt32, MaxInt32, int32. intros H.
  rewrite Z.mod_small by lia. lia.
Qed.

Lemma int32_range z : in_int32 (int32 z).
Proof.
  unfold in_int32, MinInt32, MaxInt32, int32.
  pose proof (Z.mod_pos_bound (z + 2 ^ 31) (2 ^ 32) ltac:(lia)). lia.
Qed.

Lemma int64_id z : - 2 ^ 63 <= z < 2 ^ 63 -> int64 z = z.
Proof. unfold int64. intros H. rewrite Z.mod_small by lia. lia. Qed.


(** ** Strings *)

Lemma DecodeRunes_chunks_nonempty (s : string) :
  Forall (λ c : Z * string, snd c ≠ EmptyString) (DecodeRunes s).
Proof.
  remember (String.length s) as n eqn:Hn.
  assert (Hle : (String.length s <= n)%nat) by lia. clear Hn.
  revert s Hle. induction n as [|n IH]; intros s Hle.
  - destruct s; [constructor | simpl in Hle; lia].
  - destruct s as [|a0 t0]; [constructor|].
    assert (H0 : Forall (λ c : Z * string, snd c ≠ EmptyString) (DecodeRunes t0)).
    { apply IH. simpl in Hle. lia. }
    cbn [DecodeRunes].
    repeat (case_match; try (constructor; [done|]; try done));
      subst; apply IH; simpl in *; lia.
Qed.

Lemma drop_while_nil_iff {A} (p : A → bool) (l : list A) :
  drop_while p l = [] ↔ forallb p l = true.
Proof.
  induction l as [|x l IH]; simpl; [done|].
  destruct (p x); simpl; [done|]. split; discriminate.
Qed.

Lemma drop_while_Forall {A} (P : A → Prop) (p : A → bool) (l : list A) :
  Forall P l → Forall P (drop_while p l).
Proof.
  induction 1 as [|x l Hx Hl IH]; simpl; [constructor|].
  destruct (p x); [done | by constructor].
Qed.

Lemma join_chunks_nil_iff (cs : list (Z * string)) :
  Forall (λ c : Z * string, snd c ≠ EmptyString) cs →
  (join_chunks cs = EmptyString ↔ cs = []).
Proof.
  intros H. destruct H as [|[r b] cs Hb _]; simpl; [done|].
  split; [|discriminate]. simpl in Hb. destruct b; [done | discriminate].
Qed.

Lemma drop_while_head {A} (p : A → bool) (l : list A) :
  forallb p (drop_while p l) = true → drop_while p l = [].
Proof.
  induction l as [|x l IH]; simpl; [done|].
  destruct (p x) eqn:E; [done|]. simpl. by rewrite E.
Qed.

Lemma forallb_rev {A} (p : A → bool) (l : list A) :
  forallb p (rev l) = forallb p l.
Proof.
  induction l as [|x l IH]; simpl; [done|].
  rewrite forallb_app, IH. simpl. rewrite andb_true_r. apply andb_comm.
Qed.

(** [TrimSpace] returns the empty string exactly on the blank strings. *)
Lemma TrimSpace_empty_iff (s : string) :
  TrimSpace s = EmptyString ↔ blank s = true.
Proof.
  unfold TrimSpace, blank, runes.
  assert (Hb : forallb IsSpace (map fst (DecodeRunes s))
               = forallb chunk_is_space (DecodeRunes s)).
  { induction (DecodeRunes s) as [|c l IH]; simpl; [done|]. by rewrite IH. }
  rewrite Hb. pose proof (DecodeRunes_chunks_nonempty s) as Hne.
  set (cs := DecodeRunes s) in *. split.
  - intros H. apply join_chunks_nil_iff in H.
    + apply (f_equal (@rev _)) in H. rewrite rev_involutive in H. simpl in H.
      apply drop_while_nil_iff in H. rewrite forallb_rev in H.
      apply drop_while_head in H. by apply drop_while_nil_iff.
    + apply Forall_rev. apply drop_while_Forall. apply Forall_rev.
      by apply drop_while_Forall.
  - intros H. apply drop_while_nil_iff in H. by rewrite H.
Qed.

(** ** Eviction *)

Lemma map_fold_cleanup_lookup (vp : Viewport) (keepDistance : Z)
    (init m : Store) (key : Z * Z) :
  map_fold (cleanup_step vp keepDistance) init m !! key =
  match m !! key with
  | Some c => if distant vp keepDistance key && isEmptyCell c
              then None else init !! key
  | None => init !! key
  end.
Proof.
  revert key.
  apply (map_fold_weak_ind (λ r m', ∀ key, r !! key =
    match m' !! key with
    | Some c => if distant vp keepDistance key && isEmptyCell c
                then None else init !! key
    | None => init !! key
    end)).
  - intros key. by rewrite lookup_empty.
  - intros i x m' r Hi IH key. unfold cleanup_step.
    destruct (decide (i = key)) as [->|Hne].
    + rewrite lookup_insert_eq. specialize (IH key). rewrite Hi in IH.
      destruct (distant vp keepDistance key); simpl; [|done].
      destruct (isEmptyCell x); [by rewrite lookup_delete_eq | done].
    + rewrite lookup_insert_ne by done.
      destruct (distant vp keepDistance i); [|by apply IH].
      destruct (isEmptyCell x); [|by apply IH].
      rewrite lookup_delete_ne by done. apply IH.
Qed.

(** What [CleanupDistantCells] leaves at each key. *)
Lemma CleanupDistantCells_lookup (data : Store) (vp : Viewport)
    (keepDistance : Z) (key : Z * Z) :
  CleanupDistantCells data vp keepDistance !! key =
  match data !! key with
  | Some c => if distant vp keepDistance key && isEmptyCell c
              then None else Some c
  | None => None
  end.
Proof.
  unfold CleanupDistantCells. rewrite map_fold_cleanup_lookup.
  destruct (data !! key); [|done]. by destruct (_ && _).
Qed.

(** C2: a stored cell with non-empty raw text, the formula marker, a
    non-empty note or a non-empty validation rule is still stored, unchanged
    and under the same key, after [CleanupDistantCells], for every viewport
    and every retention distance. *)
Theorem eviction_keeps_meaningful_cells (data : Store) (vp : Viewport)
    (keepDistance : Z) (key : Z * Z) (c : Cell) :
  data !! key = Some c →
  nonempty (RawValue c) = true ∨ IsFormula c = true ∨
    nonempty (Notes c) = true ∨ nonempty (Valrule c) = true →
  CleanupDistantCells data vp keepDistance !! key = Some c.
Proof.
  intros Hk Hattr. rewrite CleanupDistantCells_lookup, Hk.
  assert (isEmptyCell c = false) as ->.
  { unfold isEmptyCell.
    destruct Hattr as [-> | [-> | [Hn | Hv]]]; [done | | |].
    - by destruct (nonempty (RawValue c)).
    - rewrite Hn. by repeat case_match.
    - rewrite Hv. by repeat case_match. }
  by rewrite andb_false_r.
Qed.

Lemma eviction_keeps_meaningful_cells_witness :
  CleanupDistantCells {[ (5000, 5000) := NewCell 5000 5000 "total" ]} vp_home 100
    !! (5000, 5000) = Some (NewCell 5000 5000 "total").
Proof.
  apply eviction_keeps_meaningful_cells; [reflexivity | left; reflexivity].
Defined.

(** A stored cell is deleted exactly when it passes the distance test and
    [isEmptyCell] holds of it. *)
Lemma CleanupDistantCells_deletes_iff (data : Store) (vp : Viewport)
    (keepDistance : Z) (key : Z * Z) (c : Cell) :
  data !! key = Some c →
  (CleanupDistantCells data vp keepDistance !! key = None ↔
   distant vp keepDistance key = true ∧ isEmptyCell c = true).
Proof.
  intros Hk. rewrite CleanupDistantCells_lookup, Hk.
  destruct (distant vp keepDistance key), (isEmptyCell c); simpl; naive_solver.
Qed.

(** [isEmptyCell] looks at three of the five style flags only. *)
Lemma isEmptyCell_ignores_strikethrough_allcaps (c : Cell) (f : Z) :
  isEmptyCell c = true → f = FlagStrikethrough ∨ f = FlagAllCaps →
  isEmptyCell (with_Flags (Z.lor (Flags c) f) c) = true.
Proof.
  unfold isEmptyCell, IsFormula, HasFlag. simpl.
  intros H Hf.
  assert (Hland : ∀ g, g = FlagFormula ∨ g = FlagBold ∨ g = FlagItalic ∨
                       g = FlagUnderline →
            (Z.land (Z.lor (Flags c) f) g =? 0) = (Z.land (Flags c) g =? 0)).
  { intros g Hg. f_equal. rewrite Z.land_lor_distr_l.
    assert (Z.land f g = 0) as ->; [|by rewrite Z.lor_0_r].
    destruct Hf as [-> | ->]; destruct Hg as [-> | [-> | [-> | ->]]]; done. }
  rewrite !Hland by auto. done.
Qed.

(** C3: a blank cell that carries the strikethrough style flag, a non-default
    style flag, and lies farther than the retention distance from the
    viewport is judged empty by [isEmptyCell] and deleted by
    [CleanupDistantCells]. *)
Theorem eviction_drops_struck_blank_cell :
  HasFlag struck_cell FlagStrikethrough = true ∧
  distant vp_home 100 (1000, 1000) = true ∧
  isEmptyCell struck_cell = true ∧
  ({[ (1000, 1000) := struck_cell ]} : Store) !! (1000, 1000) = Some struck_cell ∧
  CleanupDistantCells {[ (1000, 1000) := struck_cell ]} vp_home 100
    !! (1000, 1000) = None.
Proof. repeat split; vm_compute; reflexivity. Qed.

(** ** The structural editor *)

Lemma map_fold_rekey_lookup {K1 A K2 B : Type} `{Countable K1} `{Countable K2}
    (f : K1 → A → gmap K2 B → gmap K2 B)
    (g : K1 → A → option (K2 * B)) (m : gmap K1 A) :
  (∀ key c acc, f key c acc = rekey_step g key c acc) →
  (∀ k1 c1 k2 c2 k' x1 x2,
     m !! k1 = Some c1 → m !! k2 = Some c2 →
     g k1 c1 = Some (k', x1) → g k2 c2 = Some (k', x2) → k1 = k2) →
  ∀ k' y, map_fold f ∅ m !! k' = Some y ↔
          ∃ k c, m !! k = Some c ∧ g k c = Some (k', y).
Proof.
  intros Hf.
  apply (map_fold_weak_ind (λ (r : gmap K2 B) (m' : gmap K1 A),
    (∀ k1 c1 k2 c2 k' x1 x2,
       m' !! k1 = Some c1 → m' !! k2 = Some c2 →
       g k1 c1 = Some (k', x1) → g k2 c2 = Some (k', x2) → k1 = k2) →
    ∀ k' y, r !! k' = Some y ↔
            ∃ k c, m' !! k = Some c ∧ g k c = Some (k', y))).
  - intros _ k' y. rewrite lookup_empty. split; [done|].
    intros (k & c & Hk & _). by rewrite lookup_empty in Hk.
  - intros i x m' r Hi IH Hinj k' y.
    assert (Hinj' : ∀ k1 c1 k2 c2 k' x1 x2,
       m' !! k1 = Some c1 → m' !! k2 = Some c2 →
       g k1 c1 = Some (k', x1) → g k2 c2 = Some (k', x2) → k1 = k2).
    { intros k1 c1 k2 c2 k0 x1 x2 H1 H2. apply Hinj.
      - rewrite lookup_insert_ne; [done|]. intros ->. congruence.
      - rewrite lookup_insert_ne; [done|]. intros ->. congruence. }
    specialize (IH Hinj'). rewrite Hf. unfold rekey_step.
    destruct (g i x) as [[k1 c1]|] eqn:Hg.
    + destruct (decide (k1 = k')) as [->|Hne].
      * rewrite lookup_insert_eq. split.
        -- intros [= <-]. exists i, x. by rewrite lookup_insert_eq.
        -- intros (k & c & Hk & Hgk).
           destruct (decide (i = k)) as [->|Hik].
           ++ rewrite lookup_insert_eq in Hk. congruence.
           ++ exfalso. apply Hik.
              apply (Hinj i x k c k' c1 y); [by rewrite lookup_insert_eq|done..].
      * rewrite lookup_insert_ne by done. rewrite IH. split.
        -- intros (k & c & Hk & Hgk). exists k, c. split; [|done].
           rewrite lookup_insert_ne; [done|]. intros ->. congruence.
        -- intros (k & c & Hk & Hgk).
           destruct (decide (i = k)) as [->|Hik].
           ++ rewrite lookup_insert_eq in Hk. congruence.
           ++ rewrite lookup_insert_ne in Hk by done. eauto.
    + rewrite IH. split.
      * intros (k & c & Hk & Hgk). exists k, c. split; [|done].
        rewrite lookup_insert_ne; [done|]. intros ->. congruence.
      * intros (k & c & Hk & Hgk).
        destruct (decide (i = k)) as [->|Hik].
        -- rewrite lookup_insert_eq in Hk. congruence.
        -- rewrite lookup_insert_ne in Hk by done. eauto.
Qed.

Lemma int32_succ z : MinInt32 < z < MaxInt32 → int32 (z + 1) = z + 1.
Proof. unfold MinInt32, MaxInt32. intros H. apply int32_id. unfold in_int32, MinInt32, MaxInt32. lia. Qed.

Lemma int32_pred z : MinInt32 < z < MaxInt32 → int32 (z - 1) = z - 1.
Proof. unfold MinInt32, MaxInt32. intros H. apply int32_id. unfold in_int32, MinInt32, MaxInt32. lia. Qed.

Lemma int32_self z : MinInt32 < z < MaxInt32 → int32 z = z.
Proof. unfold MinInt32, MaxInt32. intros H. apply int32_id. unfold in_int32, MinInt32, MaxInt32. lia. Qed.

Lemma int64_succ z : MinInt32 < z < MaxInt32 → int64 (z + 1) = z + 1.
Proof. unfold MinInt32, MaxInt32. intros H. apply int64_id. lia. Qed.

Lemma int64_pred z : MinInt32 < z < MaxInt32 → int64 (z - 1) = z - 1.
Proof. unfold MinInt32, MaxInt32. intros H. apply int64_id. lia. Qed.

(** On an entry of a well-formed store the conversions are the identity. *)
Lemma insertCol_dest_wf (data : Store) (col : Z) (key : Z * Z) (c : Cell) :
  store_wf data → data !! key = Some c →
  insertCol_dest col key c =
    if snd key <? col then Some (key, c)
    else Some ((fst key, snd key + 1), set_Column (snd key + 1) c).
Proof.
  intros Hwf Hk. destruct (Hwf _ _ Hk) as (-> & Hr & Hc). simpl.
  unfold insertCol_dest. simpl.
  by rewrite int32_self, int64_succ, int32_succ.
Qed.

Lemma insertRow_dest_wf (data : Store) (row : Z) (key : Z * Z) (c : Cell) :
  store_wf data → data !! key = Some c →
  insertRow_dest row key c =
    if fst key <? row then Some (key, c)
    else Some ((fst key + 1, snd key), set_Row (fst key + 1) c).
Proof.
  intros Hwf Hk. destruct (Hwf _ _ Hk) as (-> & Hr & Hc). simpl.
  unfold insertRow_dest. simpl.
  by rewrite int32_self, int64_succ, int32_succ.
Qed.

Lemma eliminateCol_dest_wf (data : Store) (col : Z) (key : Z * Z) (c : Cell) :
  store_wf data → data !! key = Some c →
  eliminateCol_dest col key c =
    if snd key <? col then Some (key, c)
    else if col <? snd key then
      Some ((fst key, snd key - 1), set_Column (snd key - 1) c)
    else None.
Proof.
  intros Hwf Hk. destruct (Hwf _ _ Hk) as (-> & Hr & Hc). simpl.
  unfold eliminateCol_dest. simpl.
  by rewrite int32_self, int64_pred, int32_pred.
Qed.

Lemma eliminateRow_dest_wf (data : Store) (row : Z) (key : Z * Z) (c : Cell) :
  store_wf data → data !! key = Some c →
  eliminateRow_dest row key c =
    if fst key <? row then Some (key, c)
    else if row <? fst key then
      Some ((fst key - 1, snd key), set_Row (fst key - 1) c)
    else None.
Proof.
  intros Hwf Hk. destruct (Hwf _ _ Hk) as (-> & Hr & Hc). simpl.
  unfold eliminateRow_dest. simpl.
  by rewrite int32_self, int64_pred, int32_pred.
Qed.

(** The entries of the four rebuilt stores.  The three steps are the same
    for each editor: the loop body is a [rekey_step], an entry goes where
    the [_dest] function says, and no two entries go to the same key. *)
Local Ltac zbool :=
  repeat match goal with
  | H : (_ <? _) = true |- _ => apply Z.ltb_lt in H
  | H : (_ <? _) = false |- _ => apply Z.ltb_ge in H
  end.

Local Ltac rekey_spec data Hwf dest dest_wf :=
  rewrite (map_fold_rekey_lookup _ dest);
  [ split; intros (key & c & Hk & Hg); exists key, c; (split; [done|]);
    [ rewrite (dest_wf data _ _ _ Hwf Hk) in Hg
    | rewrite (dest_wf data _ _ _ Hwf Hk) ];
    repeat case_match; zbool; naive_solver lia
  | intros [r c] cd acc;
    unfold rekey_step, insertCol_dest, insertRow_dest, eliminateCol_dest,
      eliminateRow_dest; simpl;
    repeat case_match; congruence
  | intros [r1 a1] c1 [r2 a2] c2 k0 x1 x2 H1 H2;
    rewrite (dest_wf data _ _ _ Hwf H1), (dest_wf data _ _ _ Hwf H2); simpl;
    repeat case_match; zbool; intros E1 E2; simplify_eq; f_equal; lia ].

Lemma insertCol_newData_spec (data : Store) (col : Z) (k' : Z * Z) (y : Cell) :
  store_wf data →
  insertCol_newData data col !! k' = Some y ↔
  ∃ key c, data !! key = Some c ∧
    if snd key <? col then k' = key ∧ y = c
    else k' = (fst key, snd key + 1) ∧ y = set_Column (snd key + 1) c.
Proof.
  intros Hwf. unfold insertCol_newData, insertCol_step.
  rekey_spec data Hwf (insertCol_dest col) insertCol_dest_wf.
Qed.

Lemma insertRow_newData_spec (data : Store) (row : Z) (k' : Z * Z) (y : Cell) :
  store_wf data →
  insertRow_newData data row !! k' = Some y ↔
  ∃ key c, data !! key = Some c ∧
    if fst key <? row then k' = key ∧ y = c
    else k' = (fst key + 1, snd key) ∧ y = set_Row (fst key + 1) c.
Proof.
  intros Hwf. unfold insertRow_newData, insertRow_step.
  rekey_spec data Hwf (insertRow_dest row) insertRow_dest_wf.
Qed.

Lemma eliminateCol_newData_spec (data : Store) (col : Z) (k' : Z * Z) (y : Cell) :
  store_wf data →
  eliminateCol_newData data col !! k' = Some y ↔
  ∃ key c, data !! key = Some c ∧
    if snd key <? col then k' = key ∧ y = c
    else col < snd key ∧
         k' = (fst key, snd key - 1) ∧ y = set_Column (snd key - 1) c.
Proof.
  intros Hwf. unfold eliminateCol_newData, eliminateCol_step.
  rekey_spec data Hwf (eliminateCol_dest col) eliminateCol_dest_wf.
Qed.

Lemma eliminateRow_newData_spec (data : Store) (row : Z) (k' : Z * Z) (y : Cell) :
  store_wf data →
  eliminateRow_newData data row !! k' = Some y ↔
  ∃ key c, data !! key = Some c ∧
    if fst key <? row then k' = key ∧ y = c
    else row < fst key ∧
         k' = (fst key - 1, snd key) ∧ y = set_Row (fst key - 1) c.
Proof.
  intros Hwf. unfold eliminateRow_newData, eliminateRow_step.
  rekey_spec data Hwf (eliminateRow_dest row) eliminateRow_dest_wf.
Qed.

Lemma store_wf_empty : store_wf ∅.
Proof. intros key c H. by rewrite lookup_empty in H. Qed.

Lemma store_wf_insert (data : Store) (c : Cell) :
  store_wf data →
  MinInt32 < Row c < MaxInt32 → MinInt32 < Column c < MaxInt32 →
  store_wf (<[(Row c, Column c) := c]> data).
Proof.
  intros Hwf Hr Hc key c' H.
  apply lookup_insert_Some in H as [[<- <-] | [_ H]]; [done|].
  by apply Hwf.
Qed.

Lemma sample_store_wf : store_wf sample_store.
Proof.
  unfold sample_store.
  apply (store_wf_insert _ (NewCell 2 1 "a")); [|done..].
  apply (store_wf_insert _ (NewCell 2 3 "b")); [|done..].
  apply (store_wf_insert ∅ (NewCell 2 4 "c")); [|done..].
  apply store_wf_empty.
Qed.


(** The map that the loop of a deletion builds: a cell with column > k is
    at the key one column to the left, with its [Column] attribute equal to
    the column of the new key; a cell with column < k is under its key,
    unchanged; and no cell of column [k] is kept: every entry of the new
    map is the image of an entry whose column is not [k].  Likewise along
    the rows with [Row]. *)
Lemma delete_newData_rekeys (data : Store) (k r c : Z) (cellData : Cell) :
  store_wf data →
  data !! (r, c) = Some cellData →
  (k < c →
     eliminateCol_newData data k !! (r, c - 1) = Some (set_Column (c - 1) cellData)
     ∧ Column (set_Column (c - 1) cellData) = c - 1)
  ∧ (c < k → eliminateCol_newData data k !! (r, c) = Some cellData)
  ∧ (∀ key' y, eliminateCol_newData data k !! key' = Some y →
       ∃ key0 c0, data !! key0 = Some c0 ∧ snd key0 ≠ k ∧
         (key', y) = if snd key0 <? k then (key0, c0)
                     else ((fst key0, snd key0 - 1), set_Column (snd key0 - 1) c0))
  ∧ (k < r →
     eliminateRow_newData data k !! (r - 1, c) = Some (set_Row (r - 1) cellData)
     ∧ Row (set_Row (r - 1) cellData) = r - 1)
  ∧ (r < k → eliminateRow_newData data k !! (r, c) = Some cellData)
  ∧ (∀ key' y, eliminateRow_newData data k !! key' = Some y →
       ∃ key0 c0, data !! key0 = Some c0 ∧ fst key0 ≠ k ∧
         (key', y) = if fst key0 <? k then (key0, c0)
                     else ((fst key0 - 1, snd key0), set_Row (fst key0 - 1) c0)).
Proof.
  intros Hwf Hk.
  split; [intros Hc; split; [|done] | split; [intros Hc | split; [|
    split; [intros Hr; split; [|done] | split; [intros Hr|]]]]].
  - apply eliminateCol_newData_spec; [done|]. exists (r, c), cellData.
    split; [done|]. simpl. rewrite (proj2 (Z.ltb_ge c k)) by lia. auto.
  - apply eliminateCol_newData_spec; [done|]. exists (r, c), cellData.
    split; [done|]. simpl. by rewrite (proj2 (Z.ltb_lt c k)).
  - intros key' y Hy. apply eliminateCol_newData_spec in Hy; [|done].
    destruct Hy as (key0 & c0 & H0 & Hd). exists key0, c0. split; [done|].
    destruct (snd key0 <? k) eqn:E; zbool.
    + destruct Hd as [-> ->]. split; [lia | done].
    + destruct Hd as (? & -> & ->). split; [lia | done].
  - apply eliminateRow_newData_spec; [done|]. exists (r, c), cellData.
    split; [done|]. simpl. rewrite (proj2 (Z.ltb_ge r k)) by lia. auto.
  - apply eliminateRow_newData_spec; [done|]. exists (r, c), cellData.
    split; [done|]. simpl. by rewrite (proj2 (Z.ltb_lt r k)).
  - intros key' y Hy. apply eliminateRow_newData_spec in Hy; [|done].
    destruct Hy as (key0 & c0 & H0 & Hd). exists key0, c0. split; [done|].
    destruct (fst key0 <? k) eqn:E; zbool.
    + destruct Hd as [-> ->]. split; [lia | done].
    + destruct Hd as (? & -> & ->). split; [lia | done].
Qed.

(** Deleting the column (row) just inserted gives the store back. *)
Lemma set_Column_same (c : Cell) : set_Column (Column c) c = c.
Proof. by destruct c. Qed.

Lemma set_Row_same (c : Cell) : set_Row (Row c) c = c.
Proof. by destruct c. Qed.

Lemma eliminateCol_insertCol (data : Store) (k : Z) :
  store_wf data → store_wf (insertCol_newData data k) →
  eliminateCol_newData (insertCol_newData data k) k = data.
Proof.
  intros Hwf Hwf'. apply map_eq. intros k'. apply option_eq. intros y.
  rewrite eliminateCol_newData_spec by done. split.
  - intros (key1 & c1 & H1 & Hd).
    apply insertCol_newData_spec in H1 as (key0 & c0 & H0 & Hi); [|done].
    destruct (Hwf _ _ H0) as (Hkey & _ & _).
    destruct key0 as [r c]. simpl in *.
    destruct (c <? k) eqn:E0; zbool.
    + destruct Hi as [-> ->]. simpl in Hd.
      rewrite (proj2 (Z.ltb_lt c k)) in Hd by done.
      by destruct Hd as [-> ->].
    + destruct Hi as [-> ->]. simpl in Hd.
      rewrite (proj2 (Z.ltb_ge (c + 1) k)) in Hd by lia.
      destruct Hd as (_ & -> & ->).
      replace (c + 1 - 1) with c by lia.
      injection Hkey as _ ->.
      assert (set_Column (Column c0) (set_Column (Column c0 + 1) c0) = c0)
        as ->; [by destruct c0 | done].
  - intros Hy. destruct k' as [r c].
    destruct (Hwf _ _ Hy) as (Hkey & _ & _). injection Hkey as -> ->.
    destruct (Column y <? k) eqn:E0.
    + exists (Row y, Column y), y. simpl. rewrite E0. split; [|done].
      apply insertCol_newData_spec; [done|].
      exists (Row y, Column y), y. simpl. by rewrite E0.
    + zbool. exists (Row y, Column y + 1), (set_Column (Column y + 1) y).
      simpl. rewrite (proj2 (Z.ltb_ge (Column y + 1) k)) by lia. split.
      * apply insertCol_newData_spec; [done|].
        exists (Row y, Column y), y. simpl.
        by rewrite (proj2 (Z.ltb_ge (Column y) k)).
      * replace (Column y + 1 - 1) with (Column y) by lia.
        split; [lia|]. split; [done|]. by destruct y.
Qed.

Lemma eliminateRow_insertRow (data : Store) (k : Z) :
  store_wf data → store_wf (insertRow_newData data k) →
  eliminateRow_newData (insertRow_newData data k) k = data.
Proof.
  intros Hwf Hwf'. apply map_eq. intros k'. apply option_eq. intros y.
  rewrite eliminateRow_newData_spec by done. split.
  - intros (key1 & c1 & H1 & Hd).
    apply insertRow_newData_spec in H1 as (key0 & c0 & H0 & Hi); [|done].
    destruct (Hwf _ _ H0) as (Hkey & _ & _).
    destruct key0 as [r c]. simpl in *.
    destruct (r <? k) eqn:E0; zbool.
    + destruct Hi as [-> ->]. simpl in Hd.
      rewrite (proj2 (Z.ltb_lt r k)) in Hd by done.
      by destruct Hd as [-> ->].
    + destruct Hi as [-> ->]. simpl in Hd.
      rewrite (proj2 (Z.ltb_ge (r + 1) k)) in Hd by lia.
      destruct Hd as (_ & -> & ->).
      replace (r + 1 - 1) with r by lia.
      injection Hkey as -> _.
      assert (set_Row (Row c0) (set_Row (Row c0 + 1) c0) = c0)
        as ->; [by destruct c0 | done].
  - intros Hy. destruct k' as [r c].
    destruct (Hwf _ _ Hy) as (Hkey & _ & _). injection Hkey as -> ->.
    destruct (Row y <? k) eqn:E0.
    + exists (Row y, Column y), y. simpl. rewrite E0. split; [|done].
      apply insertRow_newData_spec; [done|].
      exists (Row y, Column y), y. simpl. by rewrite E0.
    + zbool. exists (Row y + 1, Column y), (set_Row (Row y + 1) y).
      simpl. rewrite (proj2 (Z.ltb_ge (Row y + 1) k)) by lia. split.
      * apply insertRow_newData_spec; [done|].
        exists (Row y, Column y), y. simpl.
        by rewrite (proj2 (Z.ltb_ge (Row y) k)).
      * replace (Row y + 1 - 1) with (Row y) by lia.
        split; [lia|]. split; [done|]. by destruct y.
Qed.

(** The callbacks as a whole: the rebuilt store, then the eviction of the
    render pass. *)
Lemma RenderVisible_lookup (vp : Viewport) (data : Store) (key : Z * Z) :
  RenderVisible vp data !! key =
  match data !! key with
  | Some c => if evicted vp key c then None else Some c
  | None => None
  end.
Proof. unfold RenderVisible, evicted. apply CleanupDistantCells_lookup. Qed.

Lemma insertCol_Yes (data : Store) (vp : Viewport) (col : Z) :
  insertCol "Yes" data vp col = RenderVisible vp (insertCol_newData data col).
Proof. reflexivity. Qed.

Lemma insertRow_Yes (data : Store) (vp : Viewport) (row : Z) :
  insertRow "Yes" data vp row = RenderVisible vp (insertRow_newData data row).
Proof. reflexivity. Qed.

Lemma eliminateCol_Yes (data : Store) (vp : Viewport) (col : Z) :
  eliminateCol "Yes" data vp col = RenderVisible vp (eliminateCol_newData data col).
Proof. reflexivity. Qed.

Lemma eliminateRow_Yes (data : Store) (vp : Viewport) (row : Z) :
  eliminateRow "Yes" data vp row = RenderVisible vp (eliminateRow_newData data row).
Proof. reflexivity. Qed.

(** After the callback a moved cell is at its new key unless the render
    pass evicts it there (it is blank and beyond the retention distance). *)
Lemma insertCol_callback_lookup (data : Store) (vp : Viewport)
    (k r c : Z) (cellData : Cell) :
  store_wf data → data !! (r, c) = Some cellData → k <= c →
  insertCol "Yes" data vp k !! (r, c + 1) =
    if evicted vp (r, c + 1) (set_Column (c + 1) cellData) then None
    else Some (set_Column (c + 1) cellData).
Proof.
  intros Hwf Hk Hc. rewrite insertCol_Yes, RenderVisible_lookup.
  assert (insertCol_newData data k !! (r, c + 1)
          = Some (set_Column (c + 1) cellData)) as ->; [|done].
  apply insertCol_newData_spec; [done|]. exists (r, c), cellData.
  split; [done|]. simpl. by rewrite (proj2 (Z.ltb_ge c k)).
Qed.

Lemma isEmptyCell_set_Column (k : Z) (c : Cell) :
  isEmptyCell (set_Column k c) = isEmptyCell c.
Proof. done. Qed.

Lemma isEmptyCell_set_Row (k : Z) (c : Cell) :
  isEmptyCell (set_Row k c) = isEmptyCell c.
Proof. done. Qed.

Lemma RenderVisible_Some (vp : Viewport) (data : Store) (key : Z * Z)
    (y : Cell) :
  RenderVisible vp data !! key = Some y ↔
  data !! key = Some y ∧ evicted vp key y = false.
Proof.
  rewrite RenderVisible_lookup. destruct (data !! key) as [c|].
  - destruct (evicted vp key c) eqn:E; split.
    + done.
    + intros [[= ->] He]. congruence.
    + by intros [= ->].
    + by intros [[= ->] _].
  - split; [done | by intros [? _]].
Qed.




(** C5: when the callback of a deletion returns, a cell that had column > k
    is at the key one column to the left, with its [Column] attribute equal
    to the column of the new key, and a cell that had column < k is under
    its key, unchanged; except that a cell which is blank ([isEmptyCell])
    and whose position after the edit lies beyond the retention distance of
    100 from the window is not in the store any more: the render pass that
    ends the callback has removed it.  No cell of column [k] is kept: every
    entry of the store is the image of an entry whose column is not [k].
    The same holds along the rows with [Row].  Any button but "Yes" leaves
    the store as it is. *)
Theorem delete_rekeys_then_evicts (data : Store) (vp : Viewport) (k r c : Z)
    (cellData : Cell) :
  store_wf data →
  data !! (r, c) = Some cellData →
  (k < c →
     eliminateCol "Yes" data vp k !! (r, c - 1)
       = (if distant vp 100 (r, c - 1) && isEmptyCell cellData then None
          else Some (set_Column (c - 1) cellData))
     ∧ Column (set_Column (c - 1) cellData) = c - 1)
  ∧ (c < k →
     eliminateCol "Yes" data vp k !! (r, c)
       = if distant vp 100 (r, c) && isEmptyCell cellData then None
         else Some cellData)
  ∧ (∀ key' y, eliminateCol "Yes" data vp k !! key' = Some y →
       ∃ key0 c0, data !! key0 = Some c0 ∧ snd key0 ≠ k ∧
         (key', y) = if snd key0 <? k then (key0, c0)
                     else ((fst key0, snd key0 - 1), set_Column (snd key0 - 1) c0))
  ∧ (k < r →
     eliminateRow "Yes" data vp k !! (r - 1, c)
       = (if distant vp 100 (r - 1, c) && isEmptyCell cellData then None
          else Some (set_Row (r - 1) cellData))
     ∧ Row (set_Row (r - 1) cellData) = r - 1)
  ∧ (r < k →
     eliminateRow "Yes" data vp k !! (r, c)
       = if distant vp 100 (r, c) && isEmptyCell cellData then None
         else Some cellData)
  ∧ (∀ key' y, eliminateRow "Yes" data vp k !! key' = Some y →
       ∃ key0 c0, data !! key0 = Some c0 ∧ fst key0 ≠ k ∧
         (key', y) = if fst key0 <? k then (key0, c0)
                     else ((fst key0 - 1, snd key0), set_Row (fst key0 - 1) c0))
  ∧ (∀ buttonLabel, buttonLabel ≠ "Yes" →
       eliminateCol buttonLabel data vp k = data
       ∧ eliminateRow buttonLabel data vp k = data).
Proof.
  intros Hwf Hk.
  destruct (delete_newData_rekeys data k r c cellData Hwf Hk)
    as (Hc1 & Hc2 & Hc3 & Hr1 & Hr2 & Hr3).
  split; [intros Hc; split; [|done] | split; [intros Hc | split; [|
    split; [intros Hr; split; [|done] | split; [intros Hr| split]]]]].
  - rewrite eliminateCol_Yes, RenderVisible_lookup, (proj1 (Hc1 Hc)). done.
  - rewrite eliminateCol_Yes, RenderVisible_lookup, (Hc2 Hc). done.
  - intros key' y Hy. rewrite eliminateCol_Yes in Hy.
    apply RenderVisible_Some in Hy as [Hy _]. by apply Hc3.
  - rewrite eliminateRow_Yes, RenderVisible_lookup, (proj1 (Hr1 Hr)). done.
  - rewrite eliminateRow_Yes, RenderVisible_lookup, (Hr2 Hr). done.
  - intros key' y Hy. rewrite eliminateRow_Yes in Hy.
    apply RenderVisible_Some in Hy as [Hy _]. by apply Hr3.
  - intros buttonLabel Hb. unfold eliminateCol, eliminateRow.
    by rewrite (proj2 (String.eqb_neq buttonLabel "Yes") Hb).
Qed.

Lemma delete_rekeys_then_evicts_witness :
  eliminateCol "Yes" sample_store vp_home 3 !! (2, 4 - 1)
    = Some (set_Column (4 - 1) (NewCell 2 4 "c"))
  ∧ eliminateRow "Yes" sample_store vp_home 3 !! (2, 4) = Some (NewCell 2 4 "c").
Proof.
  pose proof (delete_rekeys_then_evicts sample_store vp_home 3 2 4
                (NewCell 2 4 "c") sample_store_wf eq_refl)
    as (Hcol & _ & _ & _ & Hrow & _).
  split; [exact (proj1 (Hcol ltac:(lia))) | exact (Hrow ltac:(lia))].
Defined.

(** C5, as stated, fails for the callbacks: with a window that starts at
    column 200 a blank cell in column 100 is kept by a render pass (it is
    on the edge of the zone kept), and after column 3 is deleted it is not
    at column 99: the store is empty.  Likewise for a blank cell in row 100,
    a window that starts at row 200 and the deletion of a row. *)
Lemma delete_evicts_shifted_blank_cell :
  left_edge_store !! (1, 100) = Some (NewCell 1 100 "") ∧
  RenderVisible vp_far left_edge_store = left_edge_store ∧
  eliminateCol "Yes" left_edge_store vp_far 3 !! (1, 100 - 1) = None ∧
  eliminateCol "Yes" left_edge_store vp_far 3 = ∅ ∧
  top_edge_store !! (100, 1) = Some (NewCell 100 1 "") ∧
  RenderVisible vp_low top_edge_store = top_edge_store ∧
  eliminateRow "Yes" top_edge_store vp_low 3 !! (100 - 1, 1) = None ∧
  eliminateRow "Yes" top_edge_store vp_low 3 = ∅.
Proof. repeat split; vm_compute; reflexivity. Qed.

(** ** The evaluator's function library *)

(** C6: [toFloat] passes a [float64] through, converts an [int], parses a
    string with [fmt.Sscanf] and the verb [%f], and returns a typed error
    for every other value, booleans included. *)
Theorem toFloat_coercion `{GoFmt} :
  (∀ f, toFloat (VFloat f) = (f, None)) ∧
  (∀ z, toFloat (VInt z) = (float64_of_int z, None)) ∧
  (∀ s, toFloat (VString s) = Sscanf_f s) ∧
  (∀ b, toFloat (VBool b) = (0%float, Some "cannot convert bool to float64")) ∧
  toFloat VNil = (0%float, Some "cannot convert <nil> to float64").
Proof. repeat split. Qed.

(** C6, as stated, fails: whatever [fmt] does, boolean true is not
    converted to 1.0 without error. *)
Lemma toFloat_true_is_an_error :
  ¬ ∃ F : GoFmt, @toFloat F (VBool true) = (1%float, None).
Proof. intros [F HF]. discriminate HF. Qed.

(** C7: on a text with a two-byte code point, [LEN] and [FIND] count bytes
    while [MID] counts code points.  U+00E9 followed by "b" has two code
    points and "b" is the second, yet [LEN] answers 3 and [FIND] answers 3;
    [MID] at position 2 extracts "b", and at the position that [FIND] gave
    it extracts nothing. *)
Theorem LEN_FIND_count_bytes `{GoFmt} :
  RuneCount e_acute_b = 2 ∧
  runes e_acute_b = [233; 98] ∧
  LEN [VString e_acute_b] = (VFloat 3, None) ∧
  FIND [VString "b"; VString e_acute_b] = (VFloat 3, None) ∧
  MID [VString e_acute_b; VFloat 2; VFloat 1] = Ok (VString "b", None) ∧
  MID [VString e_acute_b; VFloat 3; VFloat 1] = Ok (VString "", None).
Proof. repeat split; vm_compute; reflexivity. Qed.

(** What the four functions do on an argument that coerces to the number
    [f]: [CTAN] reports a division by zero together with +Inf when
    |tan f| < 1e-10, while [SEC], [CSEC] and [CTANH] report it only when
    their denominator equals zero; otherwise each returns the reciprocal
    without error. *)
Lemma division_like_guards `{GoFmt} `{GoMath} (v : any) (f : float) :
  toFloat v = (f, None) →
  CTAN [v] = (if PrimFloat.ltb (PrimFloat.abs (math_Tan f)) epsilon
              then (VFloat infinity, Some "CTAN: division by zero")
              else (VFloat (1 / math_Tan f), None)) ∧
  SEC [v] = (if PrimFloat.eqb (math_Cos f) 0
             then (VFloat infinity, Some "division by zero")
             else (VFloat (1 / math_Cos f), None)) ∧
  CSEC [v] = (if PrimFloat.eqb (math_Sin f) 0
              then (VFloat infinity, Some "division by zero")
              else (VFloat (1 / math_Sin f), None)) ∧
  CTANH [v] = (if PrimFloat.eqb (math_Tanh f) 0
               then (VFloat infinity, Some "division by zero")
               else (VFloat (1 / math_Tanh f), None)).
Proof.
  intros Hv. unfold CTAN, SEC, CSEC, CTANH, arg. simpl. by rewrite Hv.
Qed.

(** C8: the guard of [SEC], [CSEC] and [CTANH] misses the denominators that
    are near zero.  On an argument that coerces to the number [f], [CTAN]
    reports a division by zero together with +Inf as soon as
    |tan f| < 1e-10; [SEC], [CSEC] and [CTANH] return the reciprocal
    without any error whenever their denominator is not exactly zero,
    however small it is.  At the binary64 number nearest to pi/2, where the
    cosine is 6.1e-17, [SEC] returns 1.6e16 and no error. *)
Theorem near_zero_denominator_not_reported `{GoFmt} `{GoMath} (v : any)
    (f : float) :
  toFloat v = (f, None) →
  (PrimFloat.ltb (PrimFloat.abs (math_Tan f)) epsilon = true →
     CTAN [v] = (VFloat infinity, Some "CTAN: division by zero")) ∧
  (PrimFloat.eqb (math_Cos f) 0 = false →
     SEC [v] = (VFloat (1 / math_Cos f), None)) ∧
  (PrimFloat.eqb (math_Sin f) 0 = false →
     CSEC [v] = (VFloat (1 / math_Sin f), None)) ∧
  (PrimFloat.eqb (math_Tanh f) 0 = false →
     CTANH [v] = (VFloat (1 / math_Tanh f), None)).
Proof.
  intros Hv.
  destruct (division_like_guards v f Hv) as (Hctan & Hsec & Hcsec & Hctanh).
  split; [|split; [|split]]; intros Hd.
  - by rewrite Hctan, Hd.
  - by rewrite Hsec, Hd.
  - by rewrite Hcsec, Hd.
  - by rewrite Hctanh, Hd.
Qed.

Lemma near_zero_denominator_not_reported_witness :
  PrimFloat.ltb (PrimFloat.abs (@math_Cos sample_math half_pi)) epsilon = true ∧
  @SEC sample_fmt sample_math [VFloat half_pi]
    = (VFloat 0x1.d02967c31cdcp+53, None) ∧
  PrimFloat.ltb (PrimFloat.abs (@math_Sin sample_math pi)) epsilon = true ∧
  @CSEC sample_fmt sample_math [VFloat pi]
    = (VFloat 0x1.d02967c31cdcp+52, None) ∧
  @CTAN sample_fmt sample_math [VFloat 0]
    = (VFloat infinity, Some "CTAN: division by zero").
Proof.
  destruct (@near_zero_denominator_not_reported sample_fmt sample_math
              (VFloat half_pi) half_pi eq_refl) as (_ & Hsec & _).
  destruct (@near_zero_denominator_not_reported sample_fmt sample_math
              (VFloat pi) pi eq_refl) as (_ & _ & Hcsec & _).
  destruct (@near_zero_denominator_not_reported sample_fmt sample_math
              (VFloat 0) 0%float eq_refl) as (Hctan & _).
  split; [reflexivity|]. split; [exact (Hsec eq_refl)|].
  split; [reflexivity|]. split; [exact (Hcsec eq_refl) | exact (Hctan eq_refl)].
Defined.

(** ** Validation rules *)

Lemma TrimSpace_eqb_blank (s : string) :
  String.eqb (TrimSpace s) "" = blank s.
Proof.
  destruct (blank s) eqn:Hb.
  - apply String.eqb_eq. by apply TrimSpace_empty_iff.
  - apply String.eqb_neq. intros Ht. apply TrimSpace_empty_iff in Ht. congruence.
Qed.

(** C9: when the rule is not blank, the candidate value is not blank and,
    in a number or financial cell, reads as a number, and the rule with the
    value put in place of the placeholder compiles and evaluates to a value
    that is not a boolean, [CheckValidationRule] answers false with the
    message "Validation rule must return true/false", and
    [EnforceValidationOnEdit] refuses the edit. *)
Theorem nonboolean_result_rejected `{GoFmt} `{GoCase} `{Govaluate}
    (cellData : Cell) (newValue ruleText ty : string) (testValue : any)
    (expr : EvaluableExpression) (result : any) :
  Valrule cellData = Some ruleText →
  blank ruleText = false →
  blank newValue = false →
  Type_ cellData = Some ty →
  testValueOf cellData ty newValue = Some testValue →
  NewEvaluableExpressionWithFunctions (evaluableRuleOf ruleText testValue)
    = Ok (inl expr) →
  Evaluate expr = Ok (inl result) →
  (∀ b, result ≠ VBool b) →
  CheckValidationRule cellData newValue
    = (Ok (false, "Validation rule must return true/false"),
       [evaluableRuleOf ruleText testValue]) ∧
  ∃ text, EnforceValidationOnEdit cellData newValue
    = (Ok (false, Some text), [evaluableRuleOf ruleText testValue]).
Proof.
  intros Hrule Hrb Hvb Hty Htv Hexpr Hres Hnb.
  assert (Hc : CheckValidationRule cellData newValue
    = (Ok (false, "Validation rule must return true/false"),
       [evaluableRuleOf ruleText testValue])).
  { unfold CheckValidationRule, nil_or_blank.
    rewrite Hrule, !TrimSpace_eqb_blank, Hrb, Hvb, Hty, Htv, Hexpr, Hres.
    destruct result; try done. by destruct (Hnb b). }
  split; [done|].
  unfold EnforceValidationOnEdit.
  rewrite TrimSpace_eqb_blank, Hvb, Hc, Hrule. simpl. eauto.
Qed.

Lemma nonboolean_result_rejected_witness :
  @CheckValidationRule sample_fmt sample_case sample_govaluate
     number_rule_cell "x"
  = (Ok (false, "Validation rule must return true/false"), ["1"]).
Proof.
  refine (proj1 (@nonboolean_result_rejected sample_fmt sample_case
            sample_govaluate number_rule_cell "x" "1" "string" (VString "x")
            (VFloat 1) (VFloat 1) eq_refl eq_refl eq_refl eq_refl eq_refl
            eq_refl eq_refl _)).
  intros b. discriminate.
Defined.

(** C9, as stated, fails on a candidate value that is not empty but made
    of white space: the rule "1" evaluates to the number 1 once the value
    " " is put in place of the placeholder, and the value passes without
    the rule being evaluated. *)
Lemma whitespace_value_passes_nonboolean_rule :
  " " ≠ "" ∧
  Valrule number_rule_cell = Some "1" ∧
  @testValueOf sample_fmt sample_case number_rule_cell "string" " "
    = Some (VString " ") ∧
  @NewEvaluableExpressionWithFunctions sample_govaluate
    (@evaluableRuleOf sample_fmt sample_case "1" (VString " "))
    = Ok (inl (VFloat 1)) ∧
  @Evaluate sample_govaluate (VFloat 1) = Ok (inl (VFloat 1)) ∧
  @CheckValidationRule sample_fmt sample_case sample_govaluate
     number_rule_cell " " = (Ok (true, ""), []).
Proof. repeat split; try (vm_compute; reflexivity). discriminate. Qed.

(** In a number or financial cell a candidate that does not read as a
    number is refused before the rule is looked at. *)
Lemma unparsable_number_rejected `{GoFmt} `{GoCase} `{Govaluate}
    (cellData : Cell) (newValue ty : string) :
  nil_or_blank (Valrule cellData) = false →
  blank newValue = false →
  Type_ cellData = Some ty →
  testValueOf cellData ty newValue = None →
  CheckValidationRule cellData newValue
    = (Ok (false, "Value must be a number"), []).
Proof.
  intros Hrule Hvb Hty Htv. unfold CheckValidationRule.
  rewrite Hrule, TrimSpace_eqb_blank, Hvb, Hty.
  destruct (Valrule cellData); [|done]. by rewrite Htv.
Qed.

(** C10: a candidate value that is empty or made of white space only passes
    [CheckValidationRule] and [EnforceValidationOnEdit], for every cell and
    every rule, and no expression is handed to the evaluator. *)
Theorem blank_value_passes `{GoFmt} `{GoCase} `{Govaluate}
    (cellData : Cell) (newValue : string) :
  blank newValue = true →
  CheckValidationRule cellData newValue = (Ok (true, ""), []) ∧
  EnforceValidationOnEdit cellData newValue = (Ok (true, None), []).
Proof.
  intros Hb. unfold EnforceValidationOnEdit, CheckValidationRule.
  rewrite !TrimSpace_eqb_blank, Hb. split; [|done].
  by destruct (nil_or_blank (Valrule cellData)).
Qed.

Lemma blank_value_passes_witness :
  @CheckValidationRule sample_fmt sample_case sample_govaluate
     broken_rule_cell "  " = (Ok (true, ""), []) ∧
  @EnforceValidationOnEdit sample_fmt sample_case sample_govaluate
     broken_rule_cell "  " = (Ok (true, None), []).
Proof.
  apply (@blank_value_passes sample_fmt sample_case sample_govaluate
           broken_rule_cell "  "). reflexivity.
Defined.

(** ** Saving and opening a workbook *)

Lemma drop_bytes_app (s p : string) :
  drop_bytes (String.length s) (s ++ p) = p.
Proof. induction s as [|a s IH]; simpl; [done | apply IH]. Qed.

Lemma length_app_string (s p : string) :
  String.length (s ++ p) = (String.length s + String.length p)%nat.
Proof.
  induction s as [|a s IH]; [done|].
  change (S (String.length (s ++ p)) = S (String.length s + String.length p)).
  by rewrite IH.
Qed.

Lemma take_drop_bytes (n : nat) (s : string) :
  (take_bytes n s ++ drop_bytes n s)%string = s.
Proof.
  revert s. induction n as [|n IH]; intros [|a s]; simpl; try done.
  change (String a (take_bytes n s ++ drop_bytes n s)%string = String a s).
  by rewrite IH.
Qed.

Lemma drop_bytes_app_more (k : nat) (s p : string) :
  drop_bytes (String.length s + k) (s ++ p) = drop_bytes k p.
Proof. induction s as [|a s IH]; simpl; [done | apply IH]. Qed.

Lemma HasSuffix_app (s p : string) : HasSuffix (s ++ p) p = true.
Proof.
  unfold HasSuffix. rewrite length_app_string.
  replace (String.length s + String.length p - String.length p)%nat
    with (String.length s) by lia.
  rewrite drop_bytes_app, String.eqb_refl, andb_true_r.
  apply Nat.leb_le. lia.
Qed.

Lemma HasSuffix_split (s p : string) :
  HasSuffix s p = true → ∃ base, s = (base ++ p)%string.
Proof.
  unfold HasSuffix. intros [_ He%String.eqb_eq]%andb_prop.
  exists (take_bytes (String.length s - String.length p) s).
  rewrite <- (take_drop_bytes (String.length s - String.length p) s) at 1.
  by rewrite He.
Qed.

(** The file written always carries the suffix of the native format. *)
Lemma gsheetName_suffix (filename : string) :
  ∃ base, gsheetName filename = (base ++ ".gsheet")%string.
Proof.
  unfold gsheetName. destruct (HasSuffix filename ".gsheet") eqn:E.
  - by apply HasSuffix_split.
  - eauto.
Qed.

Lemma gsheet_not_txt (base : string) :
  HasSuffix (base ++ ".gsheet") ".txt" = false.
Proof.
  unfold HasSuffix. rewrite length_app_string. simpl String.length.
  replace (String.length base + 7 - 4)%nat with (String.length base + 3)%nat
    by lia.
  rewrite drop_bytes_app_more. simpl. apply andb_false_r.
Qed.

Section Persistence.
Context `{Helpers} `{Codec} `{!Disk}.

Lemma save_cells_ok (data : Store) :
  raw_values_set data →
  save_cells data = Ok (map_fold (rekey_step save_dest) ∅ data).
Proof.
  unfold save_cells.
  induction data as [|i x m Hi Hfirst IH] using map_first_key_ind; intros Hraw.
  - by rewrite !map_fold_empty.
  - rewrite !map_fold_insert_first_key by done. rewrite IH.
    + destruct (Hraw i x) as [raw Hx]; [by rewrite lookup_insert_eq|].
      unfold save_cell_step, rekey_step, save_dest. by rewrite Hx.
    + intros key c Hk. apply (Hraw key).
      rewrite lookup_insert_ne; [done|]. intros ->. congruence.
Qed.

Lemma saved_cells_lookup (data : Store) (name : string)
    (cd : option CellData) :
  names_distinct data →
  map_fold (rekey_step save_dest) ∅ data !! name = Some cd ↔
  ∃ key c, data !! key = Some c ∧ save_dest key c = Some (name, cd).
Proof.
  intros Hd. apply map_fold_rekey_lookup; [done|].
  intros k1 c1 k2 c2 k' x1 x2 Hk1 Hk2. unfold save_dest.
  intros [= E1 _] [= E2 _]. apply (Hd k1 c1 k2 c2); congruence.
Qed.

(** Every entry that the save loop stores holds a cell. *)
Lemma saved_cells_hold_cells (data : Store) (name : string)
    (cd : option CellData) :
  map_fold (rekey_step save_dest) ∅ data !! name = Some cd →
  ∃ c, processCell cd = Ok c.
Proof.
  revert name cd.
  apply (map_fold_weak_ind (λ (r : gmap string (option CellData)) (_ : Store),
    ∀ name cd, r !! name = Some cd → ∃ c, processCell cd = Ok c)).
  - intros name cd Hn. by rewrite lookup_empty in Hn.
  - intros key x m r Hm IH name cd. unfold rekey_step, save_dest.
    intros [[_ <-] | [_ Hn]]%lookup_insert_Some; [simpl; eauto|].
    by apply (IH name).
Qed.

(** [processCellData] panics when an entry is nil or holds no cell, and
    otherwise returns the cells of the entries. *)
Lemma processCellData_spec (m : gmap string (option CellData)) :
  match processCellData m with
  | Ok l => ∀ c', c' ∈ l ↔ ∃ name cd, m !! name = Some cd ∧ processCell cd = Ok c'
  | Panic => ∃ name cd, m !! name = Some cd ∧ processCell cd = Panic
  end.
Proof.
  unfold processCellData.
  apply (map_fold_weak_ind
    (λ (r : Res (list Cell)) (m' : gmap string (option CellData)),
      match r with
      | Ok l => ∀ c', c' ∈ l ↔
                  ∃ name cd, m' !! name = Some cd ∧ processCell cd = Ok c'
      | Panic => ∃ name cd, m' !! name = Some cd ∧ processCell cd = Panic
      end)).
  - intros c'. rewrite elem_of_nil. split; [done|].
    intros (name & cd & Hn & _). by rewrite lookup_empty in Hn.
  - intros i x m' r Hi IH. destruct r as [l|].
    + destruct (processCell x) as [c|] eqn:Hx.
      * intros c'. rewrite elem_of_app, list_elem_of_singleton, IH. split.
        -- intros [(name & cd & Hn & Hc) | ->].
           ++ exists name, cd. split; [|done].
              rewrite lookup_insert_ne; [done|]. intros ->. congruence.
           ++ exists i, x. by rewrite lookup_insert_eq.
        -- intros (name & cd & Hn & Hc).
           destruct (decide (i = name)) as [->|Hne].
           ++ rewrite lookup_insert_eq in Hn. right. congruence.
           ++ rewrite lookup_insert_ne in Hn by done. left. eauto.
      * exists i, x. by rewrite lookup_insert_eq.
    + destruct IH as (name & cd & Hn & Hc). exists name, cd. split; [|done].
      rewrite lookup_insert_ne; [done|]. intros ->. congruence.
Qed.

Lemma processCellData_Ok (m : gmap string (option CellData)) :
  (∀ name cd, m !! name = Some cd → ∃ c, processCell cd = Ok c) →
  ∃ l, processCellData m = Ok l ∧
       ∀ c', c' ∈ l ↔ ∃ name cd, m !! name = Some cd ∧ processCell cd = Ok c'.
Proof.
  intros Hgood. pose proof (processCellData_spec m) as Hs.
  destruct (processCellData m) as [l|]; [eauto|].
  destruct Hs as (name & cd & Hn & Hp).
  destruct (Hgood name cd Hn) as [c Hc]. congruence.
Qed.

(** The cells read back from what was saved for one sheet. *)
Lemma reloaded_cells (data : Store) :
  names_distinct data →
  ∃ cells,
    processCellData (map_fold (rekey_step save_dest) ∅ data) = Ok cells ∧
    ∀ c', c' ∈ cells ↔ ∃ key c, data !! key = Some c ∧ c' = reloaded c.
Proof.
  intros Hd.
  destruct (processCellData_Ok (map_fold (rekey_step save_dest) ∅ data))
    as (cells & Hcells & Hin); [apply saved_cells_hold_cells|].
  exists cells. split; [done|]. intros c'. rewrite Hin. split.
  - intros (name & cd & Hn & Hc).
    apply saved_cells_lookup in Hn as (key & c & Hk & Hs); [|done].
    exists key, c. split; [done|]. unfold save_dest in Hs.
    injection Hs as _ <-. simpl in Hc. by injection Hc as <-.
  - intros (key & c & Hk & ->).
    exists (cName c), (Some (mkCellData (Some c)
      (StripTviewTags (TrimSpace (default EmptyString (RawValue c)))))).
    split; [|done]. apply saved_cells_lookup; [done|]. by exists key, c.
Qed.

Lemma save_sheets_ok (sheets : list SheetInfo) :
  (∀ sheet, sheet ∈ sheets → raw_values_set (si_GlobalData sheet)) →
  save_sheets sheets =
    Ok (map (λ sheet, mkSheetData (si_Name sheet) (si_Rows sheet)
               (si_Cols sheet)
               (map_fold (rekey_step save_dest) ∅ (si_GlobalData sheet)))
            sheets).
Proof.
  induction sheets as [|sheet rest IH]; intros Hraw; [done|].
  simpl. rewrite save_cells_ok, IH; [done| |].
  - intros sh Hsh. apply Hraw. by right.
  - apply Hraw. by left.
Qed.

(** [open_sheets] returns one result per sheet, in order, when no sheet
    makes [processCellData] panic. *)
Lemma open_sheets_ok (sds : list SheetData) :
  (∀ sd, sd ∈ sds → ∃ l, processCellData (sd_Cells sd) = Ok l) →
  ∃ results, open_sheets sds = Ok results ∧
    ∀ i sd, sds !! i = Some sd →
      ∃ l, processCellData (sd_Cells sd) = Ok l ∧
           results !! i
             = Some (mkSheetResult (sd_Name sd) l (sd_Rows sd) (sd_Cols sd)).
Proof.
  induction sds as [|sd sds IH]; intros Hgood.
  - exists []. split; [done|]. intros i sd Hi. by destruct i.
  - destruct (Hgood sd) as [l Hl]; [by left|].
    destruct IH as (results & Hr & Hi); [intros sd' Hsd'; apply Hgood; by right|].
    simpl. rewrite Hl, Hr. eexists. split; [reflexivity|].
    intros [|i] sd' Hsd'; simpl in *.
    + injection Hsd' as <-. eauto.
    + by apply Hi.
Qed.

Lemma open_sheets_elem (sds : list SheetData) (results : list SheetResult)
    (sr : SheetResult) :
  open_sheets sds = Ok results → sr ∈ results →
  ∃ sd, sd ∈ sds ∧ processCellData (sd_Cells sd) = Ok (sr_Cells sr).
Proof.
  revert results. induction sds as [|sd sds IH]; intros results; simpl.
  - intros [= <-] Hin. by apply elem_of_nil in Hin.
  - destruct (processCellData (sd_Cells sd)) as [l|] eqn:Hl; [|done].
    destruct (open_sheets sds) as [rs|]; [|done].
    intros [= <-] [-> | Hin]%elem_of_cons.
    + exists sd. split; [by left | done].
    + destruct (IH rs eq_refl Hin) as (sd' & Hsd' & Hp).
      exists sd'. split; [by right | done].
Qed.

Lemma populate_from_lookup (l : list Cell) (init : Store) (k : Z * Z) (c : Cell) :
  (∀ c1 c2, c1 ∈ l → c2 ∈ l →
     (Row c1, Column c1) = (Row c2, Column c2) → c1 = c2) →
  fold_left (λ data c, <[(Row c, Column c) := c]> data) l init !! k = Some c ↔
  (c ∈ l ∧ (Row c, Column c) = k) ∨
  ((∀ c', c' ∈ l → (Row c', Column c') ≠ k) ∧ init !! k = Some c).
Proof.
  revert init. induction l as [|x l IH]; intros init Huniq; simpl.
  - split; [intros Hk; right; split; [|done] | intros [[Hc _] | [_ Hk]]].
    + intros c' Hc'. by apply elem_of_nil in Hc'.
    + by apply elem_of_nil in Hc.
    + done.
  - rewrite IH.
    2:{ intros c1 c2 Hc1 Hc2. apply Huniq; by right. }
    destruct (decide ((Row x, Column x) = k)) as [Hx|Hx].
    + rewrite Hx, lookup_insert_eq. split.
      * intros [[Hc Hk] | [_ [= <-]]]; left; (split; [|done]);
          [by right | by left].
      * intros [[Hc Hk] | [Hno _]]; [|by destruct (Hno x); [left|]].
        apply elem_of_cons in Hc as [-> | Hc]; [|by left].
        destruct (decide (Exists (λ c', (Row c', Column c') = k) l))
          as [He | Hne].
        -- apply Exists_exists in He as (c' & Hc' & Hk').
           left. split; [|done].
           assert (c' = x) as <-; [|done].
           apply Huniq; [by right | by left | congruence].
        -- right. split; [|done]. intros c' Hc' Hk'. apply Hne.
           apply Exists_exists. eauto.
    + rewrite lookup_insert_ne by done. split.
      * intros [[Hc Hk] | [Hno Hi]]; [left; split; [by right | done]|].
        right. split; [|done]. intros c' [-> | Hc']%elem_of_cons; auto.
      * intros [[Hc Hk] | [Hno Hi]].
        -- apply elem_of_cons in Hc as [-> | Hc]; [done|]. by left.
        -- right. split; [|done]. intros c' Hc'. apply Hno. by right.
Qed.

(** Filling a store from the cells read back gives the saved store with
    every cell [reloaded], when the keys are the coordinates of the cells. *)
Lemma populate_reloaded (data : Store) (cells : list Cell) :
  keyed_by_coordinates data →
  (∀ c', c' ∈ cells ↔ ∃ key c, data !! key = Some c ∧ c' = reloaded c) →
  populate cells = reloaded <$> data.
Proof.
  intros Hkey Hcells. apply map_eq. intros k. apply option_eq. intros c'.
  unfold populate. rewrite populate_from_lookup.
  - rewrite lookup_fmap_Some, lookup_empty. split.
    + intros [[Hc Hk] | [_ ?]]; [|done].
      apply Hcells in Hc as (key & c & Hd & ->). exists c. split; [done|].
      rewrite <- Hk. change (data !! (Row c, Column c) = Some c).
      by rewrite <- (Hkey key c Hd).
    + intros (c & <- & Hd). left. split.
      * apply Hcells. eauto.
      * change ((Row c, Column c) = k). by rewrite (Hkey k c Hd).
  - intros c1 c2 (k1 & d1 & Hd1 & ->)%Hcells (k2 & d2 & Hd2 & ->)%Hcells Hrc.
    change ((Row d1, Column d1) = (Row d2, Column d2)) in Hrc.
    rewrite <- (Hkey k1 d1 Hd1), <- (Hkey k2 d2 Hd2) in Hrc. congruence.
Qed.

(** C1: when every raw value is set, no two cells of the sheet have the
    same persisted key, every text of the workbook as it is written is
    valid UTF-8, and the save goes through (the file is created, the
    workbook is encoded and the whole stream reaches the file),
    [SaveWorkbook] returns no error and [OpenWorkbook] on the file written
    returns, for each sheet, exactly the cells of the store, each with its
    coordinates and its formatting attributes, and with its raw text
    trimmed of surrounding white space and stripped of tags. *)
Theorem save_open_roundtrip (sheets : list SheetInfo) (activeSheet : Z)
    (filename : string) (files : Files) (i : nat) (sheet : SheetInfo) :
  (∀ sh, sh ∈ sheets → raw_values_set (si_GlobalData sh)) →
  sheets !! i = Some sheet →
  names_distinct (si_GlobalData sheet) →
  (∀ wbData, workbook_written sheets activeSheet = Ok wbData →
     utf8_workbook wbData = true
     ∧ save_succeeds (gsheetName filename) wbData) →
  ∃ files' result sr,
    SaveWorkbook sheets activeSheet filename files = Ok (None, files') ∧
    OpenWorkbook files' (gsheetName filename) = OpenOk result ∧
    wr_Sheets result !! i = Some sr ∧
    sr_Name sr = si_Name sheet ∧
    (∀ c', c' ∈ sr_Cells sr ↔
           ∃ key c, si_GlobalData sheet !! key = Some c ∧ c' = reloaded c) ∧
    (∀ c, Row (reloaded c) = Row c ∧ Column (reloaded c) = Column c ∧
          formatting (reloaded c) = formatting c ∧
          RawValue (reloaded c) =
            Some (StripTviewTags
                    (TrimSpace (default EmptyString (RawValue c))))) ∧
    (keyed_by_coordinates (si_GlobalData sheet) →
     populate (sr_Cells sr) = reloaded <$> si_GlobalData sheet).
Proof.
  intros Hraw Hi Hd Hio.
  set (saved := λ sheet : SheetInfo,
         mkSheetData (si_Name sheet) (si_Rows sheet) (si_Cols sheet)
           (map_fold (rekey_step save_dest) ∅ (si_GlobalData sheet))).
  set (datas := map saved sheets).
  set (wb := mkWorkbookData FILEVER activeSheet datas).
  assert (Hwb : workbook_written sheets activeSheet = Ok wb).
  { unfold workbook_written. by rewrite save_sheets_ok. }
  destruct (Hio wb Hwb) as (Hutf & Hcreate & jsonBytes & Hjson & Hwrite).
  destruct (open_sheets_ok datas) as (results & Hres & Hat).
  { intros sd (sh & -> & _)%list_elem_of_fmap.
    destruct (processCellData_Ok (sd_Cells (saved sh))) as (l & Hl & _);
      [apply saved_cells_hold_cells | eauto]. }
  destruct (Hat i (saved sheet)) as (cells & Hcells & Hsr).
  { unfold datas. change (map saved sheets) with (saved <$> sheets).
    by rewrite list_lookup_fmap, Hi. }
  destruct (reloaded_cells (si_GlobalData sheet) Hd) as (cells' & Hc' & Hin).
  assert (cells' = cells) as -> by (simpl in Hcells; congruence).
  exists (<[gsheetName filename := gzip_compress jsonBytes]>
            (<[gsheetName filename := empty_file]> files)).
  exists (mkWorkbookResult results activeSheet FILEVER).
  exists (mkSheetResult (si_Name sheet) cells (si_Rows sheet) (si_Cols sheet)).
  split; [|split; [|split; [done|split; [done|split; [done|split]]]]].
  - unfold SaveWorkbook. by rewrite Hwb, Hcreate, Hjson, Hwrite.
  - unfold OpenWorkbook. rewrite lookup_insert_eq.
    destruct (gsheetName_suffix filename) as [base Hbase].
    rewrite Hbase in *. rewrite gsheet_not_txt, HasSuffix_app. simpl.
    rewrite (gzip_json_roundtrip wb jsonBytes Hutf Hjson). simpl.
    assert ((Z.of_nat (List.length datas) =? 0) = false) as ->.
    { apply Z.eqb_neq. unfold datas. rewrite length_map.
      apply lookup_lt_Some in Hi. lia. }
    rewrite andb_false_r. by rewrite Hres.
  - intros c. by destruct c.
  - intros Hkey. by apply populate_reloaded.
Qed.

End Persistence.

Lemma sample_store_lookup (key : Z * Z) (c : Cell) :
  sample_store !! key = Some c →
  (key = (2, 1) ∧ c = NewCell 2 1 "a") ∨
  (key = (2, 3) ∧ c = NewCell 2 3 "b") ∨
  (key = (2, 4) ∧ c = NewCell 2 4 "c").
Proof.
  unfold sample_store. intros Hk.
  apply lookup_insert_Some in Hk as [[<- <-] | [_ Hk]]; [auto|].
  apply lookup_insert_Some in Hk as [[<- <-] | [_ Hk]]; [auto|].
  apply lookup_singleton_Some in Hk as [<- <-]. auto.
Qed.

Lemma save_open_roundtrip_witness :
  ∃ files' result sr,
    @SaveWorkbook sample_helpers sample_codec sample_disk [sample_sheet] 0
      "book" ∅ = Ok (None, files') ∧
    @OpenWorkbook sample_helpers sample_codec files' "book.gsheet"
      = OpenOk result ∧
    wr_Sheets result !! 0%nat = Some sr ∧
    populate (sr_Cells sr) = @reloaded sample_helpers <$> sample_store.
Proof.
  destruct (@save_open_roundtrip sample_helpers sample_codec sample_disk
              [sample_sheet] 0 "book" ∅ 0%nat sample_sheet)
    as (files' & result & sr & Hs & Ho & Hi & _ & _ & _ & Hp).
  - intros sh ->%list_elem_of_singleton key c Hk.
    apply sample_store_lookup in Hk as [[_ ->] | [[_ ->] | [_ ->]]]; eauto.
  - reflexivity.
  - intros k1 c1 k2 c2 H1 H2.
    apply sample_store_lookup in H1 as [[-> ->] | [[-> ->] | [-> ->]]];
    apply sample_store_lookup in H2 as [[-> ->] | [[-> ->] | [-> ->]]];
    vm_compute; congruence.
  - intros wbData Hw. vm_compute in Hw. injection Hw as <-.
    split; [vm_compute; reflexivity|].
    split; [reflexivity|]. eexists. split; reflexivity.
  - exists files', result, sr. repeat split; try done.
    apply Hp. intros key c Hk.
    by apply sample_store_lookup in Hk as [[-> ->] | [[-> ->] | [-> ->]]].
Defined.

(** C1, as stated, fails on the raw text: a cell whose raw text is " a" is
    read back with the raw text "a". *)
Lemma roundtrip_trims_raw_text :
  si_GlobalData padded_sheet !! (1, 1) = Some (NewCell 1 1 " a") ∧
  RawValue (NewCell 1 1 " a") = Some " a" ∧
  ∃ files' result,
    @SaveWorkbook sample_helpers sample_codec sample_disk [padded_sheet] 0
      "book.gsheet" ∅ = Ok (None, files') ∧
    @OpenWorkbook sample_helpers sample_codec files' "book.gsheet"
      = OpenOk result ∧
    map (λ sr, map (λ c, (Row c, Column c, RawValue c)) (sr_Cells sr))
        (wr_Sheets result)
      = [[(1, 1, Some "a")]].
Proof.
  split; [reflexivity|]. split; [reflexivity|].
  eexists. eexists. repeat split; vm_compute; reflexivity.
Qed.

(** The same for every implementation of the helpers: the cells with raw
    texts " a" and "a" are read back with one and the same raw text. *)
Lemma reloaded_raw_text_not_preserved :
  ¬ ∃ H : Helpers, ∀ c : Cell,
      is_Some (RawValue c) → RawValue (@reloaded H c) = RawValue c.
Proof.
  intros [H Hall].
  pose proof (Hall (NewCell 1 1 " a") ltac:(eauto)) as H1.
  pose proof (Hall (NewCell 1 1 "a") ltac:(eauto)) as H2.
  vm_compute in H1, H2. congruence.
Qed.

(** * Further properties *)

(** ** Eviction *)

(** X1: eviction only removes entries: what is left is stored under the
    same key and is the same cell. *)
Theorem CleanupDistantCells_subseteq (data : Store) (vp : Viewport)
    (keepDistance : Z) :
  CleanupDistantCells data vp keepDistance ⊆ data.
Proof.
  apply map_subseteq_spec. intros key c.
  rewrite CleanupDistantCells_lookup.
  destruct (data !! key) as [c'|]; [|done].
  by destruct (distant vp keepDistance key && isEmptyCell c').
Qed.

(** X2: a second eviction pass with the same viewport and distance removes
    nothing more. *)
Theorem CleanupDistantCells_idempotent (data : Store) (vp : Viewport)
    (keepDistance : Z) :
  CleanupDistantCells (CleanupDistantCells data vp keepDistance) vp keepDistance
  = CleanupDistantCells data vp keepDistance.
Proof.
  apply map_eq. intros key. rewrite !CleanupDistantCells_lookup.
  destruct (data !! key) as [c|]; [|done].
  destruct (distant vp keepDistance key && isEmptyCell c) eqn:E; [done|].
  by rewrite E.
Qed.

(** X3: when the bounds do not leave [int32], a cell whose row and column
    are at least 1 and within the retention distance of the window is kept,
    blank or not. *)
Theorem cells_within_margin_are_kept (data : Store) (vp : Viewport)
    (keepDistance r c : Z) :
  MinInt32 <= TopRow vp - keepDistance →
  MinInt32 <= LeftCol vp - keepDistance →
  MinInt32 <= TopRow vp + ViewRows vp <= MaxInt32 →
  MinInt32 <= LeftCol vp + ViewCols vp <= MaxInt32 →
  TopRow vp - keepDistance <= MaxInt32 →
  LeftCol vp - keepDistance <= MaxInt32 →
  MinInt32 <= TopRow vp + ViewRows vp + keepDistance <= MaxInt32 →
  MinInt32 <= LeftCol vp + ViewCols vp + keepDistance <= MaxInt32 →
  1 <= r → 1 <= c →
  TopRow vp - keepDistance <= r <= TopRow vp + ViewRows vp + keepDistance →
  LeftCol vp - keepDistance <= c <= LeftCol vp + ViewCols vp + keepDistance →
  CleanupDistantCells data vp keepDistance !! (r, c) = data !! (r, c).
Proof.
  intros H1 H2 H3 H4 H5 H6 H7 H8 Hr Hc Hrr Hcc.
  rewrite CleanupDistantCells_lookup.
  destruct (data !! (r, c)) as [cell|]; [|done].
  assert (distant vp keepDistance (r, c) = false) as ->; [|done].
  unfold distant, minRow, maxRow, minCol, maxCol. simpl.
  rewrite (int32_id r), (int32_id c),
    (int32_id (TopRow vp - keepDistance)),
    (int32_id (LeftCol vp - keepDistance)),
    (int32_id (TopRow vp + ViewRows vp)),
    (int32_id (LeftCol vp + ViewCols vp)),
    (int32_id (TopRow vp + ViewRows vp + keepDistance)),
    (int32_id (LeftCol vp + ViewCols vp + keepDistance))
    by (unfold in_int32, MinInt32, MaxInt32 in *; lia).
  repeat (apply orb_false_intro); apply Z.ltb_ge; lia.
Qed.

Lemma cells_within_margin_are_kept_witness :
  CleanupDistantCells {[ (25, 60) := NewCell 25 60 "" ]} vp_home 100 !! (25, 60)
  = ({[ (25, 60) := NewCell 25 60 "" ]} : Store) !! (25, 60).
Proof.
  apply cells_within_margin_are_kept;
    unfold MinInt32, MaxInt32; simpl; lia.
Defined.

(** ** The structural editor *)

(** X4: after each of the four edits every cell is still stored under its own
    (Row, Column). *)
Theorem edits_keep_cells_at_their_coordinates (data : Store) (k : Z) :
  store_wf data →
  keyed_by_coordinates (insertCol_newData data k) ∧
  keyed_by_coordinates (insertRow_newData data k) ∧
  keyed_by_coordinates (eliminateCol_newData data k) ∧
  keyed_by_coordinates (eliminateRow_newData data k).
Proof.
  intros Hwf. repeat split; intros key y Hy.
  - apply insertCol_newData_spec in Hy as (key0 & c0 & H0 & Hd); [|done].
    destruct (Hwf _ _ H0) as (-> & _ & _). simpl in Hd.
    destruct (Column c0 <? k); by destruct Hd as [-> ->].
  - apply insertRow_newData_spec in Hy as (key0 & c0 & H0 & Hd); [|done].
    destruct (Hwf _ _ H0) as (-> & _ & _). simpl in Hd.
    destruct (Row c0 <? k); by destruct Hd as [-> ->].
  - apply eliminateCol_newData_spec in Hy as (key0 & c0 & H0 & Hd); [|done].
    destruct (Hwf _ _ H0) as (-> & _ & _). simpl in Hd.
    destruct (Column c0 <? k); [by destruct Hd as [-> ->]|].
    by destruct Hd as (_ & -> & ->).
  - apply eliminateRow_newData_spec in Hy as (key0 & c0 & H0 & Hd); [|done].
    destruct (Hwf _ _ H0) as (-> & _ & _). simpl in Hd.
    destruct (Row c0 <? k); [by destruct Hd as [-> ->]|].
    by destruct Hd as (_ & -> & ->).
Qed.

Lemma edits_keep_cells_at_their_coordinates_witness :
  keyed_by_coordinates (insertCol_newData sample_store 3) ∧
  keyed_by_coordinates (insertRow_newData sample_store 3) ∧
  keyed_by_coordinates (eliminateCol_newData sample_store 3) ∧
  keyed_by_coordinates (eliminateRow_newData sample_store 3).
Proof. apply edits_keep_cells_at_their_coordinates, sample_store_wf. Defined.

(** X5: the inserted column and the inserted row hold no cell. *)
Theorem inserted_line_is_empty (data : Store) (k r c : Z) :
  store_wf data →
  insertCol_newData data k !! (r, k) = None ∧
  insertRow_newData data k !! (k, c) = None.
Proof.
  intros Hwf. split; apply eq_None_not_Some; intros [y Hy].
  - apply insertCol_newData_spec in Hy as ([r0 c0] & x & H0 & Hd); [|done].
    simpl in Hd. destruct (c0 <? k) eqn:E; zbool; destruct Hd as [[=] _]; lia.
  - apply insertRow_newData_spec in Hy as ([r0 c0] & x & H0 & Hd); [|done].
    simpl in Hd. destruct (r0 <? k) eqn:E; zbool; destruct Hd as [[=] _]; lia.
Qed.

Lemma inserted_line_is_empty_witness :
  insertCol_newData sample_store 3 !! (2, 3) = None ∧
  insertRow_newData sample_store 3 !! (3, 1) = None.
Proof. apply inserted_line_is_empty, sample_store_wf. Defined.

(** Room for one more column and one more row keeps the store well formed
    after an insertion. *)
Lemma insertCol_newData_wf (data : Store) (k : Z) :
  store_wf data →
  (∀ key c, data !! key = Some c → Column c + 1 < MaxInt32) →
  store_wf (insertCol_newData data k).
Proof.
  intros Hwf Hroom key y Hy.
  apply insertCol_newData_spec in Hy as (key0 & c0 & H0 & Hd); [|done].
  destruct (Hwf _ _ H0) as (-> & Hr & Hc). pose proof (Hroom _ _ H0).
  simpl in Hd. destruct (Column c0 <? k); destruct Hd as [-> ->]; [done|].
  simpl. repeat split; try done; lia.
Qed.

Lemma insertRow_newData_wf (data : Store) (k : Z) :
  store_wf data →
  (∀ key c, data !! key = Some c → Row c + 1 < MaxInt32) →
  store_wf (insertRow_newData data k).
Proof.
  intros Hwf Hroom key y Hy.
  apply insertRow_newData_spec in Hy as (key0 & c0 & H0 & Hd); [|done].
  destruct (Hwf _ _ H0) as (-> & Hr & Hc). pose proof (Hroom _ _ H0).
  simpl in Hd. destruct (Row c0 <? k); destruct Hd as [-> ->]; [done|].
  simpl. repeat split; try done; lia.
Qed.

Lemma store_wf_RenderVisible (vp : Viewport) (data : Store) :
  store_wf data → store_wf (RenderVisible vp data).
Proof.
  intros Hwf key c Hk. apply RenderVisible_Some in Hk as [Hk _]. by apply Hwf.
Qed.

Lemma eliminateCol_insertCol_callbacks (data : Store) (vp : Viewport)
    (k r c : Z) (y : Cell) :
  store_wf data →
  (∀ key c, data !! key = Some c → Column c + 1 < MaxInt32) →
  eliminateCol "Yes" (insertCol "Yes" data vp k) vp k !! (r, c) = Some y ↔
  data !! (r, c) = Some y ∧
  (distant vp 100 (r, c)
   || distant vp 100 (if c <? k then (r, c) else (r, c + 1)))
  && isEmptyCell y = false.
Proof.
  intros Hwf Hroom.
  pose proof (insertCol_newData_wf data k Hwf Hroom) as HwfN.
  pose proof (store_wf_RenderVisible vp _ HwfN) as HwfX.
  rewrite eliminateCol_Yes, insertCol_Yes, RenderVisible_Some.
  rewrite eliminateCol_newData_spec by done. unfold evicted. split.
  - intros [([r1 c1] & y1 & H1 & Hd) He].
    apply RenderVisible_Some in H1 as [H1 He1]. unfold evicted in He1.
    apply insertCol_newData_spec in H1 as ([r0 c0] & y0 & H0 & Hi); [|done].
    destruct (Hwf _ _ H0) as (Hkey & _ & _). injection Hkey as -> ->.
    simpl in *. destruct (Column y0 <? k) eqn:E0; zbool.
    + destruct Hi as [[= -> ->] ->].
      rewrite (proj2 (Z.ltb_lt (Column y0) k)) in Hd by done.
      destruct Hd as [[= -> ->] ->].
      rewrite (proj2 (Z.ltb_lt (Column y0) k)) by done.
      split; [done|]. by rewrite orb_diag.
    + destruct Hi as [[= -> ->] ->].
      rewrite (proj2 (Z.ltb_ge (Column y0 + 1) k)) in Hd by lia.
      destruct Hd as (_ & [= -> ->] & ->).
      replace (Column y0 + 1 - 1) with (Column y0) in * by lia.
      assert (set_Column (Column y0) (set_Column (Column y0 + 1) y0) = y0)
        as Hy by (by destruct y0).
      rewrite Hy in *. rewrite (proj2 (Z.ltb_ge (Column y0) k)) by done.
      split; [done|]. rewrite isEmptyCell_set_Column in He1.
      destruct (isEmptyCell y0); [|by rewrite !andb_false_r].
      rewrite andb_true_r in *. by rewrite He, He1.
  - intros [H0 He].
    destruct (Hwf _ _ H0) as (Hkey & _ & _). injection Hkey as -> ->.
    assert (He' : distant vp 100 (Row y, Column y) && isEmptyCell y = false
                  ∧ distant vp 100 (if Column y <? k then (Row y, Column y)
                                    else (Row y, Column y + 1))
                    && isEmptyCell y = false).
    { destruct (isEmptyCell y); [|by rewrite !andb_false_r].
      rewrite !andb_true_r in *. by apply orb_false_elim in He. }
    destruct He' as [He1 He2]. split; [|done].
    destruct (Column y <? k) eqn:E0.
    + exists (Row y, Column y), y. simpl. rewrite E0. split; [|done].
      apply RenderVisible_Some. split; [|done].
      apply insertCol_newData_spec; [done|].
      exists (Row y, Column y), y. simpl. by rewrite E0.
    + zbool. exists (Row y, Column y + 1), (set_Column (Column y + 1) y).
      simpl. rewrite (proj2 (Z.ltb_ge (Column y + 1) k)) by lia. split.
      * apply RenderVisible_Some. split.
        -- apply insertCol_newData_spec; [done|].
           exists (Row y, Column y), y. simpl.
           by rewrite (proj2 (Z.ltb_ge (Column y) k)).
        -- unfold evicted. by rewrite isEmptyCell_set_Column.
      * replace (Column y + 1 - 1) with (Column y) by lia.
        split; [lia|]. split; [done|]. by destruct y.
Qed.

Lemma eliminateRow_insertRow_callbacks (data : Store) (vp : Viewport)
    (k r c : Z) (y : Cell) :
  store_wf data →
  (∀ key c, data !! key = Some c → Row c + 1 < MaxInt32) →
  eliminateRow "Yes" (insertRow "Yes" data vp k) vp k !! (r, c) = Some y ↔
  data !! (r, c) = Some y ∧
  (distant vp 100 (r, c)
   || distant vp 100 (if r <? k then (r, c) else (r + 1, c)))
  && isEmptyCell y = false.
Proof.
  intros Hwf Hroom.
  pose proof (insertRow_newData_wf data k Hwf Hroom) as HwfN.
  pose proof (store_wf_RenderVisible vp _ HwfN) as HwfX.
  rewrite eliminateRow_Yes, insertRow_Yes, RenderVisible_Some.
  rewrite eliminateRow_newData_spec by done. unfold evicted. split.
  - intros [([r1 c1] & y1 & H1 & Hd) He].
    apply RenderVisible_Some in H1 as [H1 He1]. unfold evicted in He1.
    apply insertRow_newData_spec in H1 as ([r0 c0] & y0 & H0 & Hi); [|done].
    destruct (Hwf _ _ H0) as (Hkey & _ & _). injection Hkey as -> ->.
    simpl in *. destruct (Row y0 <? k) eqn:E0; zbool.
    + destruct Hi as [[= -> ->] ->].
      rewrite (proj2 (Z.ltb_lt (Row y0) k)) in Hd by done.
      destruct Hd as [[= -> ->] ->].
      rewrite (proj2 (Z.ltb_lt (Row y0) k)) by done.
      split; [done|]. by rewrite orb_diag.
    + destruct Hi as [[= -> ->] ->].
      rewrite (proj2 (Z.ltb_ge (Row y0 + 1) k)) in Hd by lia.
      destruct Hd as (_ & [= -> ->] & ->).
      replace (Row y0 + 1 - 1) with (Row y0) in * by lia.
      assert (set_Row (Row y0) (set_Row (Row y0 + 1) y0) = y0)
        as Hy by (by destruct y0).
      rewrite Hy in *. rewrite (proj2 (Z.ltb_ge (Row y0) k)) by done.
      split; [done|]. rewrite isEmptyCell_set_Row in He1.
      destruct (isEmptyCell y0); [|by rewrite !andb_false_r].
      rewrite andb_true_r in *. by rewrite He, He1.
  - intros [H0 He].
    destruct (Hwf _ _ H0) as (Hkey & _ & _). injection Hkey as -> ->.
    assert (He' : distant vp 100 (Row y, Column y) && isEmptyCell y = false
                  ∧ distant vp 100 (if Row y <? k then (Row y, Column y)
                                    else (Row y + 1, Column y))
                    && isEmptyCell y = false).
    { destruct (isEmptyCell y); [|by rewrite !andb_false_r].
      rewrite !andb_true_r in *. by apply orb_false_elim in He. }
    destruct He' as [He1 He2]. split; [|done].
    destruct (Row y <? k) eqn:E0.
    + exists (Row y, Column y), y. simpl. rewrite E0. split; [|done].
      apply RenderVisible_Some. split; [|done].
      apply insertRow_newData_spec; [done|].
      exists (Row y, Column y), y. simpl. by rewrite E0.
    + zbool. exists (Row y + 1, Column y), (set_Row (Row y + 1) y).
      simpl. rewrite (proj2 (Z.ltb_ge (Row y + 1) k)) by lia. split.
      * apply RenderVisible_Some. split.
        -- apply insertRow_newData_spec; [done|].
           exists (Row y, Column y), y. simpl.
           by rewrite (proj2 (Z.ltb_ge (Row y) k)).
        -- unfold evicted. by rewrite isEmptyCell_set_Row.
      * replace (Row y + 1 - 1) with (Row y) by lia.
        split; [lia|]. split; [done|]. by destruct y.
Qed.

(** X6: the callback of a deletion, run right after the callback of an
    insertion at the same index, gives back the cells of the store that
    are not blank or that lie within the retention distance of the window
    both at their place and at the place the insertion moves them to, each
    under its key and unchanged; the other cells, blank and beyond the
    distance at one of the two places, have been removed by one of the two
    render passes.  So the store is given back as it was exactly when it
    has no such cell. *)
Theorem delete_undoes_insert (data : Store) (vp : Viewport) (k : Z) :
  store_wf data →
  (∀ key c, data !! key = Some c →
     Row c + 1 < MaxInt32 ∧ Column c + 1 < MaxInt32) →
  (∀ r c y,
     eliminateCol "Yes" (insertCol "Yes" data vp k) vp k !! (r, c) = Some y ↔
     data !! (r, c) = Some y ∧
     (distant vp 100 (r, c)
      || distant vp 100 (if c <? k then (r, c) else (r, c + 1)))
     && isEmptyCell y = false)
  ∧ (∀ r c y,
     eliminateRow "Yes" (insertRow "Yes" data vp k) vp k !! (r, c) = Some y ↔
     data !! (r, c) = Some y ∧
     (distant vp 100 (r, c)
      || distant vp 100 (if r <? k then (r, c) else (r + 1, c)))
     && isEmptyCell y = false)
  ∧ eliminateCol "Yes" (insertCol "Yes" data vp k) vp k ⊆ data
  ∧ eliminateRow "Yes" (insertRow "Yes" data vp k) vp k ⊆ data
  ∧ (∀ key y, data !! key = Some y → isEmptyCell y = false →
       eliminateCol "Yes" (insertCol "Yes" data vp k) vp k !! key = Some y
       ∧ eliminateRow "Yes" (insertRow "Yes" data vp k) vp k !! key = Some y).
Proof.
  intros Hwf Hroom.
  assert (Hc : ∀ key c, data !! key = Some c → Column c + 1 < MaxInt32)
    by (intros key c Hk; by destruct (Hroom key c Hk)).
  assert (Hr : ∀ key c, data !! key = Some c → Row c + 1 < MaxInt32)
    by (intros key c Hk; by destruct (Hroom key c Hk)).
  split; [intros r c y; by apply eliminateCol_insertCol_callbacks|].
  split; [intros r c y; by apply eliminateRow_insertRow_callbacks|].
  split; [|split].
  - apply map_subseteq_spec. intros [r c] y Hy.
    by apply eliminateCol_insertCol_callbacks in Hy as [Hy _].
  - apply map_subseteq_spec. intros [r c] y Hy.
    by apply eliminateRow_insertRow_callbacks in Hy as [Hy _].
  - intros [r c] y Hk He. split.
    + apply eliminateCol_insertCol_callbacks; [done..|].
      split; [done|]. by rewrite He, andb_false_r.
    + apply eliminateRow_insertRow_callbacks; [done..|].
      split; [done|]. by rewrite He, andb_false_r.
Qed.

Lemma delete_undoes_insert_witness :
  eliminateCol "Yes" (insertCol "Yes" sample_store vp_home 3) vp_home 3
    !! (2, 3) = Some (NewCell 2 3 "b") ∧
  eliminateRow "Yes" (insertRow "Yes" sample_store vp_home 3) vp_home 3
    !! (2, 3) = Some (NewCell 2 3 "b").
Proof.
  apply (delete_undoes_insert sample_store vp_home 3);
    [apply sample_store_wf | | reflexivity | reflexivity].
  intros key c Hk.
  apply sample_store_lookup in Hk as [[_ ->] | [[_ ->] | [_ ->]]];
    unfold MaxInt32; simpl; lia.
Defined.

(** X7: a cell that is not blank is at its new key when the whole callback of
    an insertion returns, wherever the window is. *)
Theorem insert_callback_keeps_content (data : Store) (vp : Viewport)
    (k r c : Z) (cellData : Cell) :
  store_wf data → data !! (r, c) = Some cellData →
  isEmptyCell cellData = false →
  (k <= c →
     insertCol "Yes" data vp k !! (r, c + 1) = Some (set_Column (c + 1) cellData)) ∧
  (c < k → insertCol "Yes" data vp k !! (r, c) = Some cellData) ∧
  (k <= r →
     insertRow "Yes" data vp k !! (r + 1, c) = Some (set_Row (r + 1) cellData)) ∧
  (r < k → insertRow "Yes" data vp k !! (r, c) = Some cellData).
Proof.
  intros Hwf Hk He.
  assert (Hc : isEmptyCell (set_Column (c + 1) cellData) = false) by done.
  assert (Hr : isEmptyCell (set_Row (r + 1) cellData) = false) by done.
  split; [|split; [|split]]; intros Hle;
    rewrite ?insertCol_Yes, ?insertRow_Yes, RenderVisible_lookup.
  - assert (insertCol_newData data k !! (r, c + 1)
            = Some (set_Column (c + 1) cellData)) as ->.
    { apply insertCol_newData_spec; [done|]. exists (r, c), cellData.
      split; [done|]. simpl. by rewrite (proj2 (Z.ltb_ge c k)). }
    unfold evicted. by rewrite Hc, andb_false_r.
  - assert (insertCol_newData data k !! (r, c) = Some cellData) as ->.
    { apply insertCol_newData_spec; [done|]. exists (r, c), cellData.
      split; [done|]. simpl. by rewrite (proj2 (Z.ltb_lt c k)). }
    unfold evicted. by rewrite He, andb_false_r.
  - assert (insertRow_newData data k !! (r + 1, c)
            = Some (set_Row (r + 1) cellData)) as ->.
    { apply insertRow_newData_spec; [done|]. exists (r, c), cellData.
      split; [done|]. simpl. by rewrite (proj2 (Z.ltb_ge r k)). }
    unfold evicted. by rewrite Hr, andb_false_r.
  - assert (insertRow_newData data k !! (r, c) = Some cellData) as ->.
    { apply insertRow_newData_spec; [done|]. exists (r, c), cellData.
      split; [done|]. simpl. by rewrite (proj2 (Z.ltb_lt r k)). }
    unfold evicted. by rewrite He, andb_false_r.
Qed.

Lemma insert_callback_keeps_content_witness :
  insertCol "Yes" sample_store vp_home 3 !! (2, 3 + 1)
    = Some (set_Column (3 + 1) (NewCell 2 3 "b")).
Proof.
  apply (insert_callback_keeps_content sample_store vp_home 3 2 3
           (NewCell 2 3 "b") sample_store_wf eq_refl eq_refl). lia.
Defined.

(** X8: inserting a column and inserting a row commute: the two orders give
    the same store. *)
Theorem insertCol_insertRow_commute (data : Store) (kc kr : Z) :
  store_wf data →
  (∀ key c, data !! key = Some c →
     Row c + 1 < MaxInt32 ∧ Column c + 1 < MaxInt32) →
  insertRow_newData (insertCol_newData data kc) kr
  = insertCol_newData (insertRow_newData data kr) kc.
Proof.
  intros Hwf Hroom.
  assert (Hwc : store_wf (insertCol_newData data kc)).
  { apply insertCol_newData_wf; [done|]. intros key c Hk.
    by destruct (Hroom key c Hk). }
  assert (Hwr : store_wf (insertRow_newData data kr)).
  { apply insertRow_newData_wf; [done|]. intros key c Hk.
    by destruct (Hroom key c Hk). }
  apply map_eq. intros k'. apply option_eq. intros y.
  rewrite insertRow_newData_spec, insertCol_newData_spec by done. split.
  - intros ([r1 c1] & x1 & H1 & Hd1).
    apply insertCol_newData_spec in H1 as ([r0 c0] & x0 & H0 & Hd0); [|done].
    simpl in *.
    exists (if r0 <? kr then (r0, c0) else (r0 + 1, c0)),
           (if r0 <? kr then x0 else set_Row (r0 + 1) x0).
    split.
    + apply insertRow_newData_spec; [done|]. exists (r0, c0), x0.
      split; [done|]. simpl. by destruct (r0 <? kr).
    + destruct (c0 <? kc) eqn:Ec, (r0 <? kr) eqn:Er; simpl;
        destruct Hd0 as [[= -> ->] ->]; rewrite ?Ec, ?Er in *; simpl in *;
        rewrite ?Ec, ?Er in *; destruct Hd1 as [-> ->]; done.
  - intros ([r1 c1] & x1 & H1 & Hd1).
    apply insertRow_newData_spec in H1 as ([r0 c0] & x0 & H0 & Hd0); [|done].
    simpl in *.
    exists (if c0 <? kc then (r0, c0) else (r0, c0 + 1)),
           (if c0 <? kc then x0 else set_Column (c0 + 1) x0).
    split.
    + apply insertCol_newData_spec; [done|]. exists (r0, c0), x0.
      split; [done|]. simpl. by destruct (c0 <? kc).
    + destruct (c0 <? kc) eqn:Ec, (r0 <? kr) eqn:Er; simpl;
        destruct Hd0 as [[= -> ->] ->]; rewrite ?Ec, ?Er in *; simpl in *;
        rewrite ?Ec, ?Er in *; destruct Hd1 as [-> ->]; done.
Qed.

Lemma insertCol_insertRow_commute_witness :
  insertRow_newData (insertCol_newData sample_store 3) 2
  = insertCol_newData (insertRow_newData sample_store 2) 3.
Proof.
  apply insertCol_insertRow_commute; [apply sample_store_wf|].
  intros key c Hk.
  apply sample_store_lookup in Hk as [[_ ->] | [[_ ->] | [_ ->]]];
    unfold MaxInt32; simpl; lia.
Defined.

(** ** The function library: argument counts and logical functions *)

(** [validateArgs] accepts exactly the argument counts between [minArgs]
    and [maxArgs], where a [maxArgs] of -1 means no upper bound. *)
Lemma validateArgs_nil_iff (funcName : string) (args : list any)
    (minArgs maxArgs : Z) :
  validateArgs funcName args minArgs maxArgs = None ↔
  minArgs <= Z.of_nat (List.length args) ∧
  (maxArgs = -1 ∨ Z.of_nat (List.length args) <= maxArgs).
Proof.
  unfold validateArgs.
  destruct (Z.of_nat (List.length args) <? minArgs) eqn:E1; zbool.
  - split; [by destruct (minArgs =? maxArgs) | lia].
  - destruct (maxArgs =? -1) eqn:E2; simpl.
    + apply Z.eqb_eq in E2. split; [auto | done].
    + apply Z.eqb_neq in E2.
      destruct (maxArgs <? Z.of_nat (List.length args)) eqn:E3; zbool.
      * split; [done | lia].
      * split; [intros _; split; [done | right; lia] | done].
Qed.

Lemma validateArgs_at_least (funcName : string) (args : list any) (minArgs : Z) :
  minArgs <= Z.of_nat (List.length args) →
  validateArgs funcName args minArgs (-1) = None.
Proof. intros H. apply validateArgs_nil_iff. auto. Qed.

Lemma AND_loop_bools (bs : list bool) :
  AND_loop (map VBool bs) = Ok (VBool (forallb id bs), None).
Proof. induction bs as [|[] bs IH]; simpl; [done | apply IH | done]. Qed.

Lemma OR_loop_bools (bs : list bool) :
  OR_loop (map VBool bs) = Ok (VBool (existsb id bs), None).
Proof. induction bs as [|[] bs IH]; simpl; [done | done | apply IH]. Qed.

Lemma XOR_loop_bools (bs : list bool) (count : Z) :
  ∃ count', XOR_loop (map VBool bs) count = Ok count' ∧ count <= count' ∧
            Z.odd count' = xorb (fold_right xorb false bs) (Z.odd count).
Proof.
  revert count. induction bs as [|b bs IH]; intros count; simpl.
  - exists count. split; [done|]. split; [lia | done].
  - destruct (IH (if b then count + 1 else count)) as (c' & -> & Hle & Hodd).
    exists c'. split; [done|]. split; [destruct b; lia|].
    rewrite Hodd. destruct b; [|done].
    rewrite Z.add_1_r, Z.odd_succ, <- Z.negb_odd.
    by destruct (fold_right xorb false bs), (Z.odd count).
Qed.

Lemma rem_2_odd (n : Z) : 0 <= n → (Z.rem n 2 =? 1) = Z.odd n.
Proof.
  intros Hn. rewrite Z.rem_mod_nonneg by lia.
  rewrite Zmod_odd. by destruct (Z.odd n).
Qed.

(** X9: on two or more booleans [AND] is the conjunction, [OR] the disjunction
    and [XOR] the parity of the arguments, and none of them panics or
    reports an error. *)
Theorem logical_functions_on_booleans (bs : list bool) :
  (2 <= List.length bs)%nat →
  AND (map VBool bs) = Ok (VBool (forallb id bs), None) ∧
  OR (map VBool bs) = Ok (VBool (existsb id bs), None) ∧
  XOR (map VBool bs) = Ok (VBool (fold_right xorb false bs), None).
Proof.
  intros Hlen. unfold AND, OR, XOR.
  rewrite !validateArgs_at_least by (rewrite length_map; lia).
  rewrite AND_loop_bools, OR_loop_bools.
  destruct (XOR_loop_bools bs 0) as (c' & -> & Hle & Hodd).
  repeat split. rewrite rem_2_odd by done. rewrite Hodd. simpl.
  by rewrite xorb_false_r.
Qed.

Lemma logical_functions_on_booleans_witness :
  AND (map VBool [true; false; true]) = Ok (VBool false, None) ∧
  OR (map VBool [true; false; true]) = Ok (VBool true, None) ∧
  XOR (map VBool [true; false; true]) = Ok (VBool false, None).
Proof. apply (logical_functions_on_booleans [true; false; true]). simpl. lia. Defined.

(** X10: [AND] stops at the first false argument and [OR] at the first true
    one: what follows is not looked at, be it a boolean or not.  An
    argument that is not a boolean and is reached makes the call panic. *)
Theorem AND_OR_short_circuit (bs : list bool) (v : any) (rest : list any) :
  (AND (map VBool bs ++ VBool false :: v :: rest) = Ok (VBool false, None)) ∧
  (OR (map VBool bs ++ VBool true :: v :: rest) = Ok (VBool true, None)) ∧
  ((∀ b, v ≠ VBool b) → forallb id bs = true →
     AND (map VBool bs ++ v :: VBool false :: rest) = Panic) ∧
  ((∀ b, v ≠ VBool b) → existsb id bs = false →
     OR (map VBool bs ++ v :: VBool true :: rest) = Panic).
Proof.
  assert (Hlen : ∀ (x y : any), 2 <= Z.of_nat
            (List.length (map VBool bs ++ x :: y :: rest))).
  { intros x y. rewrite length_app. simpl. lia. }
  unfold AND, OR. rewrite !validateArgs_at_least by apply Hlen.
  repeat split.
  - clear Hlen. induction bs as [|[] bs IH]; simpl; auto.
  - clear Hlen. induction bs as [|[] bs IH]; simpl; auto.
  - intros Hv Hall. clear Hlen.
    induction bs as [|[] bs IH]; simpl in *; [|auto|done].
    destruct v; try done. by destruct (Hv b).
  - intros Hv Hnone. clear Hlen.
    induction bs as [|[] bs IH]; simpl in *; [|done|auto].
    destruct v; try done. by destruct (Hv b).
Qed.

Lemma AND_OR_short_circuit_witness :
  AND (map VBool [true] ++ [VString "x"; VBool false]) = Panic.
Proof.
  refine (proj1 (proj2 (proj2 (AND_OR_short_circuit [true] (VString "x") [])))
            _ eq_refl).
  intros b. discriminate.
Defined.

Lemma List_last_app_cons {A} (l l' : list A) (x d : A) :
  List.last (l ++ x :: l')%list d = List.last (x :: l') d.
Proof.
  induction l as [|y l IH]; [done|].
  change (((y :: l) ++ x :: l')%list) with (y :: (l ++ x :: l')%list).
  rewrite <- IH. simpl. by destruct (l ++ x :: l')%list eqn:E; [destruct l|].
Qed.

Lemma IFS_loop_pairs (ps : list (bool * any)) (tail : list any) (d : any) :
  IFS_loop (flat_map (λ p, [VBool (fst p); snd p]) ps ++ tail) d =
  match List.find fst ps with
  | Some p => Ok (snd p, None)
  | None => IFS_loop tail d
  end.
Proof.
  induction ps as [|[[] v] ps IH]; simpl; [done | done | apply IH].
Qed.

(** X11: [IFS] returns the value that follows the first true condition.  When
    no condition is true it returns its last argument; with an even number
    of arguments that is the value of the last pair, whose condition is
    therefore of no effect. *)
Theorem IFS_first_true_or_last (ps : list (bool * any)) (c : bool) (v d : any) :
  IFS (flat_map (λ p, [VBool (fst p); snd p]) ps ++ [VBool c; v; d]) =
    Ok (match List.find fst ps with
        | Some p => snd p
        | None => if c then v else d
        end, None) ∧
  IFS (flat_map (λ p, [VBool (fst p); snd p]) ps ++ [VBool c; v]) =
    Ok (match List.find fst ps with
        | Some p => snd p
        | None => v
        end, None).
Proof.
  unfold IFS.
  rewrite !validateArgs_at_least by (rewrite length_app; simpl; lia).
  rewrite !IFS_loop_pairs.
  rewrite !List_last_app_cons. simpl.
  destruct (List.find fst ps); [done|]. by destruct c.
Qed.

(** ** The function library: sums, integers *)

Lemma fold_left_toFloat_ext `{GoFmt} (op : float → float → float)
    (l l' : list any) (init : float) :
  map (λ a, fst (toFloat a)) l = map (λ a, fst (toFloat a)) l' →
  fold_left (λ acc a, op acc (fst (toFloat a))) l init
  = fold_left (λ acc a, op acc (fst (toFloat a))) l' init.
Proof.
  revert l' init. induction l as [|x l IH]; intros [|x' l'] init Hm;
    simpl in *; try done.
  injection Hm as Hx Hm. rewrite Hx. by apply IH.
Qed.

(** X12: [SUM], [PRODUCT] and [AVG] never report a coercion error: with two or
    more arguments the error is nil, and an argument that is a boolean or
    nil counts as the number 0. *)
Theorem SUM_PRODUCT_AVG_silent_zero `{GoFmt} (pre post : list any) (v : any) :
  (2 <= List.length (pre ++ v :: post))%nat →
  v = VNil ∨ (∃ b, v = VBool b) →
  snd (SUM (pre ++ v :: post)) = None ∧
  snd (PRODUCT (pre ++ v :: post)) = None ∧
  snd (AVG (pre ++ v :: post)) = None ∧
  SUM (pre ++ v :: post) = SUM (pre ++ VFloat 0 :: post) ∧
  PRODUCT (pre ++ v :: post) = PRODUCT (pre ++ VFloat 0 :: post) ∧
  AVG (pre ++ v :: post) = AVG (pre ++ VFloat 0 :: post).
Proof.
  intros Hlen Hv.
  assert (Hlen' : (2 <= List.length (pre ++ VFloat 0 :: post))%nat).
  { rewrite length_app in *. simpl in *. lia. }
  assert (Hm : map (λ a, fst (toFloat a)) (pre ++ v :: post)
               = map (λ a, fst (toFloat a)) (pre ++ VFloat 0 :: post)).
  { rewrite !map_app. simpl. do 2 f_equal.
    by destruct Hv as [-> | [b ->]]. }
  assert (Hl : List.length (pre ++ v :: post)
               = List.length (pre ++ VFloat 0 :: post)).
  { rewrite !length_app. done. }
  unfold SUM, PRODUCT, AVG.
  rewrite !validateArgs_at_least by lia. simpl.
  rewrite (fold_left_toFloat_ext PrimFloat.add _ _ _ Hm),
          (fold_left_toFloat_ext PrimFloat.mul _ _ _ Hm), Hl.
  done.
Qed.

Lemma SUM_PRODUCT_AVG_silent_zero_witness :
  @SUM sample_fmt [VBool true; VFloat 4] = (VFloat 4, None) ∧
  @PRODUCT sample_fmt [VBool true; VFloat 4] = (VFloat 0, None) ∧
  @AVG sample_fmt [VBool true; VFloat 4] = (VFloat 2, None).
Proof.
  destruct (@SUM_PRODUCT_AVG_silent_zero sample_fmt [] [VFloat 4] (VBool true))
    as (_ & _ & _ & Hs & Hp & Ha); [simpl; lia | eauto |].
  split; [|split];
    [etransitivity; [exact Hs|] | etransitivity; [exact Hp|]
    | etransitivity; [exact Ha|]]; reflexivity.
Defined.

(** X13: [CHOOSE] counts its choices from 1: index [i] selects the [i]-th
    argument after the index, and any index outside 1..n is reported as an
    error; no index reads outside the arguments. *)
Theorem CHOOSE_selects (v : any) `{GoFmt} (index : float) (choices : list any) :
  toFloat v = (index, None) →
  choices ≠ [] →
  CHOOSE (v :: choices) =
    if (1 <=? int_of_float64 index)
       && (int_of_float64 index <=? Z.of_nat (List.length choices))
    then (nth (Z.to_nat (int_of_float64 index - 1)) choices VNil, None)
    else (VNil, Some "index out of range").
Proof.
  intros Hv Hne. unfold CHOOSE.
  rewrite validateArgs_at_least
    by (destruct choices; [done | simpl; lia]).
  unfold arg at 1. simpl nth. rewrite Hv.
  set (idx := int_of_float64 index).
  change (List.length (v :: choices)) with (S (List.length choices)).
  destruct (idx <? 1) eqn:E1; zbool; simpl.
  - by rewrite (proj2 (Z.leb_gt 1 idx)) by lia.
  - rewrite (proj2 (Z.leb_le 1 idx)) by lia. simpl.
    destruct (Z.of_nat (S (List.length choices)) <=? idx) eqn:E2.
    + apply Z.leb_le in E2.
      by rewrite (proj2 (Z.leb_gt idx (Z.of_nat (List.length choices)))) by lia.
    + apply Z.leb_gt in E2.
      rewrite (proj2 (Z.leb_le idx (Z.of_nat (List.length choices)))) by lia.
      unfold arg. replace (Z.to_nat idx) with (S (Z.to_nat (idx - 1))) by lia.
      done.
Qed.

Lemma CHOOSE_selects_witness :
  @CHOOSE sample_fmt [VFloat 2; VString "a"; VString "b"] = (VString "b", None).
Proof.
  apply (@CHOOSE_selects (VFloat 2) sample_fmt 2%float
           [VString "a"; VString "b"] eq_refl). discriminate.
Defined.

Lemma gcd_loop_abs (fuel : nat) (a b : Z) :
  (Z.abs_nat b < fuel)%nat → Z.abs (gcd_loop fuel a b) = Z.gcd a b.
Proof.
  revert a b. induction fuel as [|fuel IH]; intros a b Hf; [lia|].
  simpl. destruct (b =? 0) eqn:E.
  - apply Z.eqb_eq in E. subst b. by rewrite Z.gcd_0_r.
  - apply Z.eqb_neq in E. rewrite IH.
    + rewrite (Z.gcd_comm a b).
      rewrite (Z.quot_rem' a b) at 2.
      replace (b * (a ÷ b) + Z.rem a b) with (Z.rem a b + (a ÷ b) * b) by lia.
      by rewrite Z.gcd_add_mult_diag_r.
    + pose proof (Z.rem_bound_abs a b E). lia.
Qed.

(** X14: the loop of [GCD] ends, and the absolute value of what it leaves is the
    greatest common divisor of the two truncated arguments.  (The sign
    follows the arguments: the result can be negative.) *)
Theorem GCD_is_gcd `{GoFmt} (v1 v2 : any) (f1 f2 : float) :
  toFloat v1 = (f1, None) → toFloat v2 = (f2, None) →
  ∃ g, GCD [v1; v2] = (VFloat (float64_of_int g), None) ∧
       Z.abs g = Z.gcd (int_of_float64 f1) (int_of_float64 f2).
Proof.
  intros H1 H2. exists (gcd_of (int_of_float64 f1) (int_of_float64 f2)).
  split.
  - unfold GCD, arg. simpl. by rewrite H1, H2.
  - apply gcd_loop_abs. lia.
Qed.

Lemma GCD_is_gcd_witness :
  ∃ g, @GCD sample_fmt [VFloat 4; VFloat (-6)]
         = (VFloat (float64_of_int g), None) ∧
       Z.abs g = Z.gcd (int_of_float64 4) (int_of_float64 (-6)).
Proof. apply (@GCD_is_gcd sample_fmt (VFloat 4) (VFloat (-6))); reflexivity. Defined.

(** X15: [LCM] panics, dividing by zero, exactly when both arguments truncate
    to 0. *)
Theorem LCM_panics_iff_both_zero `{GoFmt} (v1 v2 : any) (f1 f2 : float) :
  toFloat v1 = (f1, None) → toFloat v2 = (f2, None) →
  (LCM [v1; v2] = Panic ↔ int_of_float64 f1 = 0 ∧ int_of_float64 f2 = 0).
Proof.
  intros H1 H2. unfold LCM, arg. simpl. rewrite H1, H2.
  set (a := int_of_float64 f1). set (b := int_of_float64 f2).
  pose proof (gcd_loop_abs (S (Z.abs_nat b)) a b ltac:(lia)) as Hg.
  fold (gcd_of a b) in Hg.
  destruct (gcd_of a b =? 0) eqn:E.
  - apply Z.eqb_eq in E. rewrite E in Hg. simpl in Hg. symmetry in Hg.
    apply Z.gcd_eq_0 in Hg. done.
  - apply Z.eqb_neq in E. split; [done|]. intros [Ha Hb].
    assert (Z.gcd a b = 0) by (by rewrite Ha, Hb). lia.
Qed.

Lemma LCM_panics_iff_both_zero_witness :
  @LCM sample_fmt [VFloat 0; VFloat 0] = Panic.
Proof.
  apply (@LCM_panics_iff_both_zero sample_fmt (VFloat 0) (VFloat 0) 0%float
           0%float eq_refl eq_refl). split; reflexivity.
Defined.

(** X16: [FACTORIAL] of one argument never reports an error, not even for an
    argument that is not a number; and whenever the number read truncates
    below 2, negative numbers included, the result is 1. *)
Theorem FACTORIAL_below_two `{GoFmt} (v : any) :
  snd (FACTORIAL [v]) = None ∧
  (int_of_float64 (fst (toFloat v)) < 2 → FACTORIAL [v] = (VFloat 1, None)).
Proof.
  unfold FACTORIAL, arg. simpl. split; [done|]. intros Hn.
  unfold seqZ. by replace (Z.to_nat (int_of_float64 (toFloat v).1 - 1)) with 0%nat by lia.
Qed.

Lemma FACTORIAL_below_two_witness :
  @FACTORIAL sample_fmt [VBool true] = (VFloat 1, None).
Proof. apply (@FACTORIAL_below_two sample_fmt (VBool true)). reflexivity. Defined.

(** ** The function library: text *)

Lemma int_of_float64_range (f : float) :
  - 2 ^ 63 <= int_of_float64 f < 2 ^ 63.
Proof.
  unfold int_of_float64. destruct (Prim2SF f) as [| | |sign m e]; try lia.
  match goal with |- context [if ?c then _ else _] =>
    destruct c eqn:E end; [|lia].
  apply andb_true_iff in E as [E1 E2].
  apply Z.leb_le in E1. apply Z.ltb_lt in E2. lia.
Qed.

Lemma string_of_runes_app (l1 l2 : list Z) :
  string_of_runes (l1 ++ l2)
  = (string_of_runes l1 ++ string_of_runes l2)%string.
Proof.
  induction l1 as [|r l1 IH]; [done|].
  change (string_of_runes ((r :: l1) ++ l2))
    with (EncodeRune r ++ string_of_runes (l1 ++ l2))%string.
  change (string_of_runes (r :: l1))
    with (EncodeRune r ++ string_of_runes l1)%string.
  rewrite IH. generalize (EncodeRune r). intros e.
  induction e as [|a e IHe]; [done|].
  change (String a (e ++ (string_of_runes l1 ++ string_of_runes l2))
          = String a ((e ++ string_of_runes l1) ++ string_of_runes l2))%string.
  by rewrite IHe.
Qed.

Lemma slice_Panic_iff {A} (l : list A) (i j : Z) :
  slice l i j = Panic ↔ i < 0 ∨ j < i ∨ Z.of_nat (List.length l) < j.
Proof.
  unfold slice.
  destruct (0 <=? i) eqn:E1, (i <=? j) eqn:E2,
    (j <=? Z.of_nat (List.length l)) eqn:E3; simpl;
    rewrite ?Z.leb_le, ?Z.leb_gt in *; split; try done; lia.
Qed.

(** X17: [LEFT] and [RIGHT] panic exactly when the count truncates to a negative
    number: the check before the slice expression only catches a count
    above the number of code points. *)
Theorem LEFT_RIGHT_panic_iff_negative `{GoFmt} (t v : any) (f : float) :
  toFloat v = (f, None) →
  RuneCount (toString t) < 2 ^ 63 →
  (LEFT [t; v] = Panic ↔ int_of_float64 f < 0) ∧
  (RIGHT [t; v] = Panic ↔ int_of_float64 f < 0).
Proof.
  intros Hv Hlen. unfold RuneCount in Hlen.
  pose proof (int_of_float64_range f) as Hr.
  unfold LEFT, RIGHT, arg. simpl. rewrite Hv.
  set (n := int_of_float64 f) in *.
  set (rs := runes (toString t)) in *.
  destruct (Z.of_nat (List.length rs) <? n) eqn:E; zbool.
  - split; (split; [done | lia]).
  - split.
    + destruct (slice rs 0 n) eqn:Es.
      * split; [done|]. intros Hn.
        assert (slice rs 0 n = Panic) as Hp by (apply slice_Panic_iff; lia).
        congruence.
      * apply slice_Panic_iff in Es. split; [lia | done].
    + destruct (slice rs (int64 (Z.of_nat (List.length rs) - n))
                  (Z.of_nat (List.length rs))) eqn:Es.
      * split; [done|]. intros Hn.
        assert (slice rs (int64 (Z.of_nat (List.length rs) - n))
                  (Z.of_nat (List.length rs)) = Panic) as Hp.
        { apply slice_Panic_iff. unfold int64.
          destruct (Z_lt_ge_dec (Z.of_nat (List.length rs) - n) (2 ^ 63)).
          - rewrite Z.mod_small by lia. lia.
          - replace (Z.of_nat (List.length rs) - n + 2 ^ 63)
              with (Z.of_nat (List.length rs) - n - 2 ^ 63 + 1 * 2 ^ 64) by lia.
            rewrite Z.mod_add by lia. rewrite Z.mod_small by lia. lia. }
        congruence.
      * apply slice_Panic_iff in Es.
        destruct (Z_lt_ge_dec n 0) as [Hn|Hn]; [done|].
        rewrite int64_id in Es by lia. split; [lia | done].
Qed.

Lemma LEFT_RIGHT_panic_iff_negative_witness :
  @LEFT sample_fmt [VString "abc"; VFloat (-1)] = Panic ∧
  @RIGHT sample_fmt [VString "abc"; VFloat (-1)] = Panic.
Proof.
  destruct (@LEFT_RIGHT_panic_iff_negative sample_fmt (VString "abc")
              (VFloat (-1)) (-1)%float eq_refl) as [[_ Hl] [_ Hr]];
    [vm_compute; reflexivity |].
  split; [apply Hl | apply Hr]; vm_compute; reflexivity.
Defined.

(** X18: [LEFT] of the first [n] code points and [RIGHT] of the remaining [m]
    cut the text in two: put together, the two results are the text
    re-encoded code point by code point. *)
Theorem LEFT_RIGHT_split `{GoFmt} (t vn vm : any) (fn fm : float) :
  toFloat vn = (fn, None) → toFloat vm = (fm, None) →
  0 <= int_of_float64 fn → 0 <= int_of_float64 fm →
  int_of_float64 fn + int_of_float64 fm = RuneCount (toString t) →
  ∃ l r, LEFT [t; vn] = Ok (VString l, None) ∧
         RIGHT [t; vm] = Ok (VString r, None) ∧
         l = string_of_runes (take (Z.to_nat (int_of_float64 fn))
                                   (runes (toString t))) ∧
         r = string_of_runes (drop (Z.to_nat (int_of_float64 fn))
                                   (runes (toString t))) ∧
         (l ++ r)%string = string_of_runes (runes (toString t)).
Proof.
  intros Hn Hm Hn0 Hm0 Hsum. unfold RuneCount in Hsum.
  pose proof (int_of_float64_range fn) as Hrn.
  pose proof (int_of_float64_range fm) as Hrm.
  unfold LEFT, RIGHT, arg. simpl. rewrite Hn, Hm.
  set (n := int_of_float64 fn) in *. set (m := int_of_float64 fm) in *.
  set (rs := runes (toString t)) in *.
  rewrite (proj2 (Z.ltb_ge (Z.of_nat (List.length rs)) n)) by lia.
  rewrite (proj2 (Z.ltb_ge (Z.of_nat (List.length rs)) m)) by lia.
  rewrite int64_id by lia.
  unfold slice.
  rewrite !(proj2 (Z.leb_le _ _)) by lia. simpl.
  do 2 eexists. split; [reflexivity|]. split; [reflexivity|].
  replace (Z.of_nat (List.length rs) - m) with n by lia.
  rewrite Z.sub_0_r.
  replace (Z.to_nat (Z.of_nat (List.length rs) - n))
    with (List.length (drop (Z.to_nat n) rs))
    by (rewrite length_drop; lia).
  rewrite firstn_all.
  split; [done|]. split; [done|].
  by rewrite <- string_of_runes_app, take_drop.
Qed.

Lemma LEFT_RIGHT_split_witness :
  ∃ l r, @LEFT sample_fmt [VString e_acute_b; VFloat 1] = Ok (VString l, None) ∧
         @RIGHT sample_fmt [VString e_acute_b; VFloat 1] = Ok (VString r, None) ∧
         (l ++ r)%string = string_of_runes (runes e_acute_b).
Proof.
  destruct (@LEFT_RIGHT_split sample_fmt (VString e_acute_b) (VFloat 1)
              (VFloat 1) 1%float 1%float eq_refl eq_refl)
    as (l & r & Hl & Hr & _ & _ & Hlr); [done | done | reflexivity |].
  by exists l, r.
Defined.

(** X19: [MID] panics exactly when the length is negative or the start lies
    more than one place past the last code point; a start below 1 is read
    as 1 and a length that runs past the end is cut. *)
Theorem MID_panic_iff `{GoFmt} (t vs vl : any) (fs fl : float) :
  toFloat vs = (fs, None) → toFloat vl = (fl, None) →
  - 2 ^ 62 <= int_of_float64 fs <= 2 ^ 62 →
  - 2 ^ 62 <= int_of_float64 fl <= 2 ^ 62 →
  (MID [t; vs; vl] = Panic ↔
     int_of_float64 fl < 0 ∨ RuneCount (toString t) + 1 < int_of_float64 fs).
Proof.
  intros Hs Hl Hbs Hbl. unfold RuneCount, MID, arg. simpl. rewrite Hs, Hl.
  set (s := int_of_float64 fs) in *. set (n := int_of_float64 fl) in *.
  set (rs := runes (toString t)) in *.
  rewrite (int64_id (s - 1)) by lia.
  set (s0 := if s - 1 <? 0 then 0 else s - 1).
  assert (Hs0 : s0 = Z.max 0 (s - 1)).
  { unfold s0. destruct (s - 1 <? 0) eqn:E; zbool; lia. }
  rewrite (int64_id (s0 + n)) by lia.
  destruct (Z.of_nat (List.length rs) <? s0 + n) eqn:E; zbool.
  - destruct (slice rs s0 (Z.of_nat (List.length rs))) eqn:Es.
    + split; [done|]. intros Hp.
      assert (slice rs s0 (Z.of_nat (List.length rs)) = Panic) as Hq
        by (apply slice_Panic_iff; lia).
      congruence.
    + apply slice_Panic_iff in Es. split; [lia | done].
  - destruct (slice rs s0 (s0 + n)) eqn:Es.
    + split; [done|]. intros Hp.
      assert (slice rs s0 (s0 + n) = Panic) as Hq
        by (apply slice_Panic_iff; lia).
      congruence.
    + apply slice_Panic_iff in Es. split; [lia | done].
Qed.

Lemma MID_panic_iff_witness :
  @MID sample_fmt [VString "abc"; VFloat 5; VFloat 1] = Panic.
Proof.
  apply (@MID_panic_iff sample_fmt (VString "abc") (VFloat 5) (VFloat 1)
           5%float 1%float eq_refl eq_refl); vm_compute; [done | done |].
  right. reflexivity.
Defined.

Lemma drop_bytes_add (a b : nat) (s : string) :
  drop_bytes (a + b) s = drop_bytes b (drop_bytes a s).
Proof.
  revert s. induction a as [|a IH]; intros s; [done|].
  destruct s as [|c s]; simpl; [by destruct b | apply IH].
Qed.

Lemma length_drop_bytes (n : nat) (s : string) :
  String.length (drop_bytes n s) = (String.length s - n)%nat.
Proof.
  revert s. induction n as [|n IH]; intros [|a s]; simpl; try done; try lia.
Qed.

(** [strings.Index] finds the leftmost occurrence. *)
Lemma Index_from_spec (sep s : string) (i : Z) :
  0 <= i →
  (Index_from i s sep = -1 ∧
   ∀ n : nat, String.prefix sep (drop_bytes n s) = false)
  ∨ (∃ k : nat, Index_from i s sep = i + Z.of_nat k ∧
       (k <= String.length s)%nat ∧
       String.prefix sep (drop_bytes k s) = true ∧
       ∀ n : nat, (n < k)%nat → String.prefix sep (drop_bytes n s) = false).
Proof.
  revert i. induction s as [|a s IH]; intros i Hi.
  - destruct sep as [|c sep].
    + right. exists 0%nat. simpl.
      split; [lia|]. split; [lia|]. split; [done|]. intros; lia.
    + left. split; [done|]. by intros [|n].
  - cbn [Index_from]. destruct (String.prefix sep (String a s)) eqn:E.
    + right. exists 0%nat.
      split; [lia|]. split; [simpl; lia|]. split; [done|]. intros; lia.
    + destruct (IH (i + 1) ltac:(lia)) as [[Hm Hn] | (k & Hk & Hle & Hp & Hn)].
      * left. split; [done|]. intros [|n]; [done | apply Hn].
      * right. exists (S k).
        split; [lia|]. split; [simpl; lia|]. split; [done|].
        intros [|n] Hlt; [done | apply Hn; lia].
Qed.

(** X20: [FIND] with a start position inside the text answers with the byte
    position, counted from 1, of the leftmost occurrence at or after the
    start, and with -1 exactly when there is none. *)
Theorem FIND_leftmost_occurrence `{GoFmt} (v0 v1 v2 : any) (f : float) :
  toFloat v2 = (f, None) →
  1 <= int_of_float64 f <= len (toString v1) →
  (FIND [v0; v1; v2] = (VFloat (-1), None) ∧
   ∀ q, int_of_float64 f <= q →
     String.prefix (toString v0)
       (drop_bytes (Z.to_nat (q - 1)) (toString v1)) = false)
  ∨ (∃ p, FIND [v0; v1; v2] = (VFloat (float64_of_int p), None) ∧
       int_of_float64 f <= p <= len (toString v1) + 1 ∧
       String.prefix (toString v0)
         (drop_bytes (Z.to_nat (p - 1)) (toString v1)) = true ∧
       ∀ q, int_of_float64 f <= q < p →
         String.prefix (toString v0)
           (drop_bytes (Z.to_nat (q - 1)) (toString v1)) = false).
Proof.
  intros Hv [H1 H2]. unfold FIND, arg. simpl. rewrite Hv.
  set (sp := int_of_float64 f) in *.
  set (findText := toString v0). set (within := toString v1) in *.
  rewrite (proj2 (Z.ltb_ge sp 1)) by lia.
  rewrite (proj2 (Z.ltb_ge (len within) sp)) by lia.
  unfold Index.
  destruct (Index_from_spec findText
              (drop_bytes (Z.to_nat (sp - 1)) within) 0 ltac:(lia))
    as [[Hm Hn] | (k & Hk & Hle & Hp & Hn)].
  - left. rewrite Hm. simpl. split; [done|]. intros q Hq.
    specialize (Hn (Z.to_nat (q - sp))).
    rewrite <- drop_bytes_add in Hn.
    by replace (Z.to_nat (sp - 1) + Z.to_nat (q - sp))%nat
      with (Z.to_nat (q - 1)) in Hn by lia.
  - right. exists (Z.of_nat k + sp). rewrite Hk.
    rewrite (proj2 (Z.eqb_neq (0 + Z.of_nat k) (-1))) by lia.
    rewrite Z.add_0_l.
    pose proof (length_drop_bytes (Z.to_nat (sp - 1)) within) as Hlen.
    unfold len in *. split; [done|]. split; [lia|]. split.
    + rewrite <- drop_bytes_add in Hp.
      by replace (Z.to_nat (Z.of_nat k + sp - 1))
        with (Z.to_nat (sp - 1) + k)%nat by lia.
    + intros q Hq. specialize (Hn (Z.to_nat (q - sp)) ltac:(lia)).
      rewrite <- drop_bytes_add in Hn.
      by replace (Z.to_nat (sp - 1) + Z.to_nat (q - sp))%nat
        with (Z.to_nat (q - 1)) in Hn by lia.
Qed.

Lemma FIND_leftmost_occurrence_witness :
  (@FIND sample_fmt [VString "b"; VString "abcabc"; VFloat 3]
     = (VFloat (-1), None) ∧
   ∀ q, int_of_float64 3 <= q →
     String.prefix "b" (drop_bytes (Z.to_nat (q - 1)) "abcabc") = false)
  ∨ (∃ p, @FIND sample_fmt [VString "b"; VString "abcabc"; VFloat 3]
            = (VFloat (float64_of_int p), None) ∧
       int_of_float64 3 <= p <= len "abcabc" + 1 ∧
       String.prefix "b" (drop_bytes (Z.to_nat (p - 1)) "abcabc") = true ∧
       ∀ q, int_of_float64 3 <= q < p →
         String.prefix "b" (drop_bytes (Z.to_nat (q - 1)) "abcabc") = false).
Proof.
  apply (@FIND_leftmost_occurrence sample_fmt (VString "b") (VString "abcabc")
           (VFloat 3) 3%float eq_refl).
  vm_compute. split; discriminate.
Defined.

(** ** Saving and opening: further properties *)

Lemma save_cells_Panic_iff `{Helpers} (data : Store) :
  save_cells data = Panic ↔ ∃ key c, data !! key = Some c ∧ RawValue c = None.
Proof.
  unfold save_cells.
  apply (map_fold_weak_ind
    (λ (r : Res (gmap string (option CellData))) (m : Store),
      r = Panic ↔ ∃ key c, m !! key = Some c ∧ RawValue c = None)).
  - split; [done|]. intros (key & c & Hk & _). by rewrite lookup_empty in Hk.
  - intros key c m r Hm IH. unfold save_cell_step. split.
    + intros Hp. destruct r as [cells|].
      * destruct (RawValue c) eqn:Hr; [done|].
        exists key, c. by rewrite lookup_insert_eq.
      * destruct (proj1 IH eq_refl) as (k' & c' & Hk' & Hr').
        exists k', c'. split; [|done].
        rewrite lookup_insert_ne; [done|]. intros ->. congruence.
    + intros (k' & c' & Hk' & Hr').
      destruct r as [cells|]; [|done].
      apply lookup_insert_Some in Hk' as [[<- <-] | [_ Hk']].
      * by rewrite Hr'.
      * assert (@Ok (gmap string (option CellData)) cells = Panic) as Habs
          by (apply IH; eauto).
        done.
Qed.

Lemma save_sheets_Panic_iff `{Helpers} (sheets : list SheetInfo) :
  save_sheets sheets = Panic ↔
  ∃ sheet key c, sheet ∈ sheets ∧ si_GlobalData sheet !! key = Some c
                 ∧ RawValue c = None.
Proof.
  induction sheets as [|sheet rest IH]; simpl.
  - split; [done|]. intros (sh & _ & _ & Hin & _). by apply elem_of_nil in Hin.
  - destruct (save_cells (si_GlobalData sheet)) as [cells|] eqn:Hc.
    + destruct (save_sheets rest) as [datas|] eqn:Hs.
      * split; [done|]. intros (sh & key & c & Hin & Hk & Hr).
        apply elem_of_cons in Hin as [-> | Hin].
        -- assert (save_cells (si_GlobalData sheet) = Panic) as Habs
             by (apply save_cells_Panic_iff; eauto).
           congruence.
        -- assert (@Ok (list SheetData) datas = Panic) as Habs
             by (apply IH; eauto 6).
           done.
      * split; [|done]. intros _.
        destruct (proj1 IH eq_refl) as (sh & key & c & Hin & Hk & Hr).
        exists sh, key, c. split; [by apply elem_of_cons; right | done].
    + split; [|done]. intros _.
      apply save_cells_Panic_iff in Hc as (key & c & Hk & Hr).
      exists sheet, key, c. split; [apply elem_of_cons; by left | done].
Qed.

(** X21: [SaveWorkbook] panics exactly when some cell of some sheet has no raw
    value, and then before any file is touched.  When it returns, every
    file but the one it writes to is as it was; an error of [os.Create] is
    returned with all files as they were; an error of [json.MarshalIndent]
    is returned with the file created and left empty; otherwise what is
    returned is the error of [gz.Write], and the file holds what the write
    left in it. *)
Theorem SaveWorkbook_panics_iff_nil_raw_value `{Helpers} `{Codec} `{!Disk}
    (sheets : list SheetInfo) (activeSheet : Z) (filename : string)
    (files : Files) :
  (SaveWorkbook sheets activeSheet filename files = Panic ↔
   ∃ sheet key c, sheet ∈ sheets ∧ si_GlobalData sheet !! key = Some c
                  ∧ RawValue c = None)
  ∧ ∀ err files',
      SaveWorkbook sheets activeSheet filename files = Ok (err, files') →
      (∀ name, name ≠ gsheetName filename → files' !! name = files !! name)
      ∧ match os_Create (gsheetName filename) with
        | Some e => err = Some e ∧ files' = files
        | None =>
          ∃ wbData, workbook_written sheets activeSheet = Ok wbData ∧
            match json_MarshalIndent wbData with
            | inr e => err = Some e
                       ∧ files' !! gsheetName filename = Some empty_file
            | inl jsonBytes =>
              err = (gz_Write (gsheetName filename) jsonBytes).1
              ∧ files' !! gsheetName filename
                  = Some (gz_Write (gsheetName filename) jsonBytes).2
            end
        end.
Proof.
  unfold SaveWorkbook, workbook_written. rewrite <- save_sheets_Panic_iff.
  destruct (save_sheets sheets) as [datas|]; split; try done.
  { split; [|done]. by repeat case_match. }
  intros err files'.
  destruct (os_Create (gsheetName filename)) as [e|].
  { intros [= <- <-]. done. }
  destruct (json_MarshalIndent _) as [jsonBytes|e] eqn:Hj; intros [= <- <-].
  - split.
    + intros name Hne. by rewrite !lookup_insert_ne.
    + eexists. split; [reflexivity|]. rewrite Hj.
      by rewrite lookup_insert_eq.
  - split.
    + intros name Hne. by rewrite lookup_insert_ne.
    + eexists. split; [reflexivity|]. rewrite Hj.
      by rewrite lookup_insert_eq.
Qed.

Lemma processCell_fields_set (cd : option CellData) (c : Cell) :
  processCell cd = Ok c →
  is_Some (RawValue c) ∧ is_Some (Display c) ∧ is_Some (Type_ c) ∧
  is_Some (Notes c) ∧ is_Some (Valrule c) ∧ is_Some (Valrulemsg c) ∧
  is_Some (DependsOn c) ∧ is_Some (Dependents c).
Proof.
  destruct cd as [[[cell|] raw]|]; simpl; [|done..].
  intros [= <-]. unfold loaded_cell. simpl.
  destruct (Display cell), (Type_ cell), (Notes cell), (Valrule cell),
    (Valrulemsg cell), (DependsOn cell), (Dependents cell); eauto 10.
Qed.

Lemma populate_from_elem (l : list Cell) (init : Store) (k : Z * Z) (c : Cell) :
  fold_left (λ data c, <[(Row c, Column c) := c]> data) l init !! k = Some c →
  c ∈ l ∨ init !! k = Some c.
Proof.
  revert init. induction l as [|x l IH]; intros init; simpl; [auto|].
  intros Hk. apply IH in Hk as [Hin | Hk].
  - left. by apply elem_of_cons; right.
  - apply lookup_insert_Some in Hk as [[_ <-] | [_ Hk]]; [|auto].
    left. apply elem_of_cons. by left.
Qed.

(** X22: every cell that [OpenWorkbook] returns from a .gsheet or .json file
    has its raw value, display, type, notes, rule, rule message and
    dependency lists set, whatever the file left out; so a workbook whose
    stores are filled from these cells is saved without a panic. *)
Theorem opened_cells_are_complete `{Helpers} `{Codec} `{!Disk} (files : Files)
    (filename : string) (result : WorkbookResult) :
  HasSuffix filename ".txt" = false →
  OpenWorkbook files filename = OpenOk result →
  (∀ sr c, sr ∈ wr_Sheets result → c ∈ sr_Cells sr →
     is_Some (RawValue c) ∧ is_Some (Display c) ∧ is_Some (Type_ c) ∧
     is_Some (Notes c) ∧ is_Some (Valrule c) ∧ is_Some (Valrulemsg c) ∧
     is_Some (DependsOn c) ∧ is_Some (Dependents c))
  ∧ ∀ activeSheet name files',
      SaveWorkbook
        (map (λ sr, mkSheetInfo (sr_Name sr) (sr_Rows sr) (sr_Cols sr)
                      (populate (sr_Cells sr))) (wr_Sheets result))
        activeSheet name files' ≠ Panic.
Proof.
  intros Htxt Hopen.
  assert (Hcells : ∀ sr c, sr ∈ wr_Sheets result → c ∈ sr_Cells sr →
            ∃ cd, processCell cd = Ok c).
  { unfold OpenWorkbook in Hopen. rewrite Htxt in Hopen.
    destruct (files !! filename) as [bytes|]; [|done].
    destruct (negb _); [done|].
    destruct (if HasSuffix filename ".gsheet" then gzip_json_decode bytes
              else json_decode bytes) as [wbData|err]; [|done].
    destruct (_ && _); [done|].
    destruct (open_sheets (wb_Sheets wbData)) as [results|] eqn:Hres; [|done].
    injection Hopen as <-. simpl.
    intros sr c Hsr Hc.
    destruct (open_sheets_elem (wb_Sheets wbData) results sr Hres Hsr)
      as (sd & Hin & Hsd).
    pose proof (processCellData_spec (sd_Cells sd)) as Hspec.
    rewrite Hsd in Hspec.
    destruct (proj1 (Hspec c) Hc) as (n & cd & _ & Hcd). eauto. }
  split.
  - intros sr c Hsr Hc. destruct (Hcells sr c Hsr Hc) as [cd Hcd].
    by apply (processCell_fields_set cd).
  - intros activeSheet name files' Hp.
    unfold SaveWorkbook, workbook_written in Hp.
    destruct (save_sheets _) as [datas|] eqn:Hs.
    { by repeat case_match. }
    apply save_sheets_Panic_iff in Hs as (sheet & key & c & Hin & Hk & Hr).
    apply list_elem_of_fmap in Hin as (sr & -> & Hsr). simpl in Hk.
    apply populate_from_elem in Hk as [Hc | Hk];
      [|by rewrite lookup_empty in Hk].
    destruct (Hcells sr c Hsr Hc) as [cd Hcd].
    destruct (processCell_fields_set cd c Hcd) as [[raw Hraw] _]. congruence.
Qed.

Lemma opened_cells_are_complete_witness :
  ∃ result,
    @OpenWorkbook sample_helpers sample_codec sparse_files "w.gsheet"
      = OpenOk result ∧
    map (λ sr, map (λ c, (RawValue c, Display c, Type_ c)) (sr_Cells sr))
        (wr_Sheets result)
      = [[(Some "x", Some "x", Some "string")]] ∧
    ∀ activeSheet name files',
      @SaveWorkbook sample_helpers sample_codec sample_disk
        (map (λ sr, mkSheetInfo (sr_Name sr) (sr_Rows sr) (sr_Cols sr)
                      (populate (sr_Cells sr))) (wr_Sheets result))
        activeSheet name files' ≠ Panic.
Proof.
  eexists. split; [vm_compute; reflexivity|]. split; [vm_compute; reflexivity|].
  eapply (@opened_cells_are_complete sample_helpers sample_codec sample_disk
            sparse_files "w.gsheet"); vm_compute; reflexivity.
Defined.

(** X23: a .gsheet or .json file that decodes to a workbook without version and
    without sheets is never opened: [OpenWorkbook] hands it to
    [openLegacyFormat], that to [OpenTable], and that to [OpenWorkbook]
    again with the same name, so that no depth of calls is enough for the
    first call to return. *)
Theorem legacy_workbook_never_opens `{Helpers} `{Codec} (files : Files)
    (filename : string) (bytes : FileBytes) (wbData : WorkbookData) :
  files !! filename = Some bytes →
  HasSuffix filename ".txt" = false →
  (HasSuffix filename ".gsheet" = true ∧ gzip_json_decode bytes = inl wbData)
  ∨ (HasSuffix filename ".gsheet" = false ∧ HasSuffix filename ".json" = true
     ∧ json_decode bytes = inl wbData) →
  wb_Version wbData = "" → wb_Sheets wbData = [] →
  ∀ depth, OpenWorkbook_steps depth files filename = None.
Proof.
  intros Hf Htxt Hdec Hv Hs depth.
  induction depth as [|depth IH]; [done|].
  cbn [OpenWorkbook_steps]. rewrite Hf, Htxt.
  destruct Hdec as [[Hg Hd] | (Hg & Hj & Hd)]; rewrite Hg.
  - simpl. rewrite Hd, Hv, Hs. simpl. by rewrite IH.
  - rewrite Hj. simpl. rewrite Hd, Hv, Hs. simpl. by rewrite IH.
Qed.

Lemma legacy_workbook_never_opens_witness :
  @OpenWorkbook_steps sample_helpers sample_codec 1000 legacy_files
    "old.gsheet" = None.
Proof.
  apply (@legacy_workbook_never_opens sample_helpers sample_codec legacy_files
           "old.gsheet" (Some (mkWorkbookData "" 0 []))
           (mkWorkbookData "" 0 []));
    try reflexivity.
  left. split; reflexivity.
Defined.

(** X25: the name that [SaveWorkbook] writes to always ends in ".gsheet", and
    putting such a name through the rule again changes nothing: saving
    under the name that was written writes the same file. *)
Theorem gsheetName_idempotent (filename : string) :
  HasSuffix (gsheetName filename) ".gsheet" = true ∧
  gsheetName (gsheetName filename) = gsheetName filename.
Proof.
  assert (Hs : HasSuffix (gsheetName filename) ".gsheet" = true).
  { destruct (gsheetName_suffix filename) as [base ->]. apply HasSuffix_app. }
  split; [done|]. unfold gsheetName at 1. by rewrite Hs.
Qed.

Lemma fold_insert_keyed (l : list Cell) (m : Store) :
  keyed_by_coordinates m →
  keyed_by_coordinates
    (fold_left (λ data c0, <[(Row c0, Column c0) := c0]> data) l m).
Proof.
  revert m. induction l as [|x l IH]; intros m Hm; simpl; [done|].
  apply IH. intros k y Hy.
  apply lookup_insert_Some in Hy as [[<- <-] | [_ Hy]]; [done|].
  by apply Hm.
Qed.

Lemma fold_insert_keeps (c : Cell) (l : list Cell) (m : Store) :
  (∀ c', c' ∈ l → (Row c', Column c') ≠ (Row c, Column c)) →
  m !! (Row c, Column c) = Some c →
  fold_left (λ data c0, <[(Row c0, Column c0) := c0]> data) l m
    !! (Row c, Column c) = Some c.
Proof.
  revert m. induction l as [|x l IH]; intros m Hl Hm; simpl; [done|].
  apply IH.
  - intros c' Hc'. apply Hl, elem_of_cons. by right.
  - rewrite lookup_insert_ne; [done|]. apply Hl, elem_of_cons. by left.
Qed.

(** X26: the store that [table.OpenTable] leaves, once it has filled it
    from the cells read and has rendered it, is keyed by the coordinates of
    its cells; where several cells read have the same coordinates the last
    one counts, and it is in the store unless it is blank and lies beyond
    the retention distance of 100 from the window, in which case the render
    pass has removed it. *)
Theorem populate_last_wins (vp : Viewport) (before after : list Cell)
    (c : Cell) :
  (∀ c', c' ∈ after → (Row c', Column c') ≠ (Row c, Column c)) →
  OpenTable_store vp (before ++ c :: after)%list !! (Row c, Column c)
    = (if distant vp 100 (Row c, Column c) && isEmptyCell c then None
       else Some c) ∧
  keyed_by_coordinates (OpenTable_store vp (before ++ c :: after)%list).
Proof.
  intros Hafter. unfold OpenTable_store. split.
  - rewrite RenderVisible_lookup. unfold populate.
    rewrite fold_left_app. simpl.
    rewrite (fold_insert_keeps c after); [done | done |].
    by rewrite lookup_insert_eq.
  - intros key y Hy. apply RenderVisible_Some in Hy as [Hy _].
    revert key y Hy. apply fold_insert_keyed.
    intros k y Hy. by rewrite lookup_empty in Hy.
Qed.

Lemma populate_last_wins_witness :
  OpenTable_store vp_home
    [NewCell 1 1 "old"; NewCell 1 1 "new"; NewCell 2 1 "b"] !! (1, 1)
    = Some (NewCell 1 1 "new").
Proof.
  apply (populate_last_wins vp_home [NewCell 1 1 "old"] [NewCell 2 1 "b"]
           (NewCell 1 1 "new")).
  intros c' ->%list_elem_of_singleton. simpl. congruence.
Defined.

(** ** Validation rules: further properties *)

(** X27: after [deleteRule], and after [saveRule] with a rule made of white
    space only (which is always stored, without a call of the evaluator),
    the cell stored at the position accepts every value without a call of
    the evaluator, and the other positions of the store are untouched. *)
Theorem cleared_rule_accepts_everything `{GoFmt} `{GoCase} `{Govaluate}
    `{GoRegexp} (cellData : Cell) (ruleText : string) (row col : Z)
    (globalData : Store) :
  blank ruleText = true →
  ∃ c1 st1,
    saveRule cellData ruleText row col globalData = Ok (true, c1, st1) ∧
    ∀ st, st = (deleteRule cellData row col globalData).2 ∨ st = st1 →
    (∃ c, st !! (row, col) = Some c ∧
       ∀ newValue,
         CheckValidationRule c newValue = (Ok (true, ""), []) ∧
         EnforceValidationOnEdit c newValue = (Ok (true, None), []))
    ∧ ∀ key, key ≠ (row, col) → st !! key = globalData !! key.
Proof.
  intros Hb.
  assert (Ht : TrimSpace ruleText = "") by (by apply TrimSpace_empty_iff).
  unfold saveRule. rewrite Ht. simpl. eexists. eexists.
  split; [reflexivity|]. intros st Hst.
  assert (Hc : ∃ c, st = <[(row, col) := c]> globalData
                    ∧ nil_or_blank (Valrule c) = true).
  { destruct Hst as [-> | ->]; eexists; (split; [reflexivity|]); reflexivity. }
  destruct Hc as (c & -> & Hn). split.
  - exists c. rewrite lookup_insert_eq. split; [done|]. intros newValue.
    unfold EnforceValidationOnEdit, CheckValidationRule. rewrite Hn.
    split; [done|]. by destruct (String.eqb (TrimSpace newValue) "").
  - intros key Hk. by rewrite lookup_insert_ne.
Qed.

Lemma cleared_rule_accepts_everything_witness :
  ∃ c1 st1 c,
    @saveRule sample_case sample_govaluate sample_regexp
      failing_rule_cell "  " 1 1 ∅ = Ok (true, c1, st1) ∧
    st1 !! (1, 1) = Some c ∧
    @CheckValidationRule sample_fmt sample_case sample_govaluate c "7"
      = (Ok (true, ""), []).
Proof.
  destruct (@cleared_rule_accepts_everything sample_fmt sample_case
              sample_govaluate sample_regexp failing_rule_cell "  " 1 1 ∅
              eq_refl) as (c1 & st1 & Hs & Hall).
  destruct (Hall st1 (or_intror eq_refl)) as [(c & Hc & Hv) _].
  exists c1, st1, c. split; [done|]. split; [done|]. apply Hv.
Defined.

(** X28: [EnforceValidationOnEdit] panics exactly when the cell has a rule
    that is not blank, the value is not blank, and either the type of the
    cell is nil, or the evaluator panics while it compiles the rule with
    the value put in place of THIS or while it evaluates it (a function of
    the library reached with an argument it panics on). *)
Theorem EnforceValidationOnEdit_panics_iff `{GoFmt} `{GoCase} `{Govaluate}
    (cellData : Cell) (newValue : string) :
  (EnforceValidationOnEdit cellData newValue).1 = Panic ↔
  nil_or_blank (Valrule cellData) = false ∧ blank newValue = false ∧
  (Type_ cellData = None ∨
   ∃ ty ruleText testValue,
     Type_ cellData = Some ty ∧ Valrule cellData = Some ruleText ∧
     testValueOf cellData ty newValue = Some testValue ∧
     (NewEvaluableExpressionWithFunctions (evaluableRuleOf ruleText testValue)
        = Panic
      ∨ ∃ expr,
          NewEvaluableExpressionWithFunctions
            (evaluableRuleOf ruleText testValue) = Ok (inl expr)
          ∧ Evaluate expr = Panic)).
Proof.
  unfold EnforceValidationOnEdit, CheckValidationRule.
  rewrite !TrimSpace_eqb_blank.
  destruct (blank newValue); [naive_solver|].
  destruct (nil_or_blank (Valrule cellData)) eqn:Hn; [naive_solver|].
  destruct (Valrule cellData) as [ruleText|] eqn:Hr; [|done].
  destruct (Type_ cellData) as [t|] eqn:Ht; [|naive_solver].
  assert (Hno : ∀ P : Prop,
    (∀ ty rt tv, Some t = Some ty → Some ruleText = Some rt →
       testValueOf cellData ty newValue = Some tv →
       (NewEvaluableExpressionWithFunctions (evaluableRuleOf rt tv) = Panic
        ∨ ∃ expr, NewEvaluableExpressionWithFunctions (evaluableRuleOf rt tv)
                    = Ok (inl expr) ∧ Evaluate expr = Panic) → False) →
    false = false ∧ false = false ∧
    (Some t = None ∨
     ∃ ty rt tv, Some t = Some ty ∧ Some ruleText = Some rt ∧
       testValueOf cellData ty newValue = Some tv ∧
       (NewEvaluableExpressionWithFunctions (evaluableRuleOf rt tv) = Panic
        ∨ ∃ expr, NewEvaluableExpressionWithFunctions (evaluableRuleOf rt tv)
                    = Ok (inl expr) ∧ Evaluate expr = Panic)) → P).
  { intros P Hf (_ & _ & [? | (ty & rt & tv & HA & HB & HC & HD)]); [done|].
    destruct (Hf ty rt tv HA HB HC HD). }
  destruct (testValueOf cellData t newValue) as [testValue|] eqn:Htv.
  - destruct (NewEvaluableExpressionWithFunctions
                (evaluableRuleOf ruleText testValue)) as [[expr|err]|] eqn:Hc.
    + destruct (Evaluate expr) as [[v|err]|] eqn:He.
      * split.
        -- intros Hp. exfalso. simpl in Hp. rewrite ?Hr in Hp.
           by repeat case_match.
        -- apply Hno. intros ty rt tv ? ? ? [? | (e & ? & ?)];
             simplify_eq; congruence.
      * split.
        -- intros Hp. exfalso. simpl in Hp. by rewrite ?Hr in Hp.
        -- apply Hno. intros ty rt tv ? ? ? [? | (e & ? & ?)];
             simplify_eq; congruence.
      * split; [|done]. intros _. split; [done|]. split; [done|]. right.
        exists t, ruleText, testValue. repeat (split; [done|]). right. eauto.
    + split.
      * intros Hp. exfalso. simpl in Hp. by rewrite ?Hr in Hp.
      * apply Hno. intros ty rt tv ? ? ? [? | (e & ? & ?)];
          simplify_eq; congruence.
    + split; [|done]. intros _. split; [done|]. split; [done|]. right.
      exists t, ruleText, testValue. repeat (split; [done|]). by left.
  - split.
    + intros Hp. exfalso. simpl in Hp. by rewrite ?Hr in Hp.
    + apply Hno. intros ty rt tv ? ? ? _. simplify_eq.
Qed.

(** ** HTML export: escaping *)

Lemma has_byte_app (a : ascii) (s t : string) :
  has_byte a (s ++ t) = has_byte a s || has_byte a t.
Proof.
  induction s as [|b s IH]; [done|].
  change (Ascii.eqb a b || has_byte a (s ++ t)
          = Ascii.eqb a b || has_byte a s || has_byte a t).
  by rewrite IH, orb_assoc.
Qed.

Lemma prefix_single (a b : ascii) (t : string) :
  String.prefix (String a "") (String b t) = Ascii.eqb a b.
Proof.
  change (String.prefix (String a "") (String b t))
    with (if ascii_dec a b then String.prefix "" t else false).
  destruct (ascii_dec a b) as [->|Hne].
  - rewrite Ascii.eqb_refl. by destruct t.
  - by rewrite (proj2 (Ascii.eqb_neq a b) Hne).
Qed.

(** Replacing a single byte: the bytes of the result. *)
Lemma replace_byte_has_byte (a c : ascii) (new s : string) :
  has_byte c (replace_from (String a "") new 0 s)
  = (has_byte a s && has_byte c new)
    || existsb (λ b, negb (Ascii.eqb a b) && Ascii.eqb c b)
               (list_ascii_of_string s).
Proof.
  induction s as [|b s IH]; [done|].
  cbn [replace_from]. rewrite prefix_single.
  change (String.length (String a "") - 1)%nat with 0%nat.
  cbn [has_byte list_ascii_of_string existsb].
  destruct (Ascii.eqb a b) eqn:E.
  - rewrite has_byte_app, IH. simpl.
    destruct (has_byte c new), (has_byte a s); simpl; try done.
  - cbn [has_byte]. rewrite IH. simpl.
    destruct (Ascii.eqb c b), (has_byte a s), (has_byte c new); simpl; done.
Qed.

Lemma existsb_has_byte_false (a c : ascii) (s : string) :
  has_byte c s = false →
  existsb (λ b, negb (Ascii.eqb a b) && Ascii.eqb c b)
          (list_ascii_of_string s) = false.
Proof.
  induction s as [|b s IH]; [done|]. cbn [has_byte list_ascii_of_string existsb].
  intros [H1 H2]%orb_false_elim. rewrite H1, IH by done.
  by rewrite andb_false_r.
Qed.

Lemma existsb_same_byte_false (a : ascii) (s : string) :
  existsb (λ b, negb (Ascii.eqb a b) && Ascii.eqb a b)
          (list_ascii_of_string s) = false.
Proof.
  induction s as [|b s IH]; [done|]. cbn [list_ascii_of_string existsb].
  rewrite IH. by destruct (Ascii.eqb a b).
Qed.

Lemma replace_byte_absent (a : ascii) (new s : string) :
  has_byte a s = false → replace_from (String a "") new 0 s = s.
Proof.
  induction s as [|b s IH]; [done|]. cbn [has_byte replace_from].
  rewrite prefix_single. intros [H1 H2]%orb_false_elim.
  rewrite H1. by rewrite IH.
Qed.

(** X29: what [htmlEscape] returns holds none of the characters less-than,
    greater-than and double quote (byte 34), whatever the text; and a text
    free of these three and of the ampersand is returned as it is. *)
Theorem htmlEscape_removes_markup (s : string) :
  has_byte "<" (htmlEscape s) = false ∧
  has_byte ">" (htmlEscape s) = false ∧
  has_byte (ascii_of_Z 34) (htmlEscape s) = false ∧
  (has_byte "&" s = false → has_byte "<" s = false →
   has_byte ">" s = false → has_byte (ascii_of_Z 34) s = false →
   htmlEscape s = s).
Proof.
  unfold htmlEscape, ReplaceAll, dquote.
  set (s1 := replace_from "&" "&amp;" 0 s).
  set (s2 := replace_from "<" "&lt;" 0 s1).
  set (s3 := replace_from ">" "&gt;" 0 s2).
  assert (H2 : has_byte "<" s2 = false).
  { unfold s2. rewrite replace_byte_has_byte, existsb_same_byte_false.
    simpl. by rewrite ?andb_false_r. }
  assert (H3 : has_byte "<" s3 = false ∧ has_byte ">" s3 = false).
  { unfold s3. rewrite !replace_byte_has_byte, existsb_same_byte_false,
      (existsb_has_byte_false _ _ _ H2). simpl. by rewrite ?andb_false_r. }
  destruct H3 as [H3 H3'].
  rewrite !replace_byte_has_byte, existsb_same_byte_false,
    (existsb_has_byte_false _ _ _ H3), (existsb_has_byte_false _ _ _ H3').
  simpl. rewrite ?andb_false_r.
  split; [done|]. split; [done|]. split; [done|].
  intros Ha Hl Hg Hq. unfold s3, s2, s1.
  by rewrite (replace_byte_absent _ _ s Ha), (replace_byte_absent _ _ s Hl),
    (replace_byte_absent _ _ s Hg), (replace_byte_absent _ _ s Hq).
Qed.

(** ** Tab-delimited text *)

Lemma append_assoc_string (a b c : string) :
  ((a ++ b) ++ c = a ++ (b ++ c))%string.
Proof.
  induction a as [|x a IH]; [done|].
  change (String x ((a ++ b) ++ c) = String x (a ++ (b ++ c)))%string.
  by rewrite IH.
Qed.

Lemma append_String (x : ascii) (a b : string) :
  (String x a ++ b)%string = String x (a ++ b)%string.
Proof. done. Qed.

Lemma append_empty_l (b : string) : ("" ++ b)%string = b.
Proof. done. Qed.

Lemma has_byte_cons (c a : ascii) (s : string) :
  has_byte c (String a s) = false ↔ Ascii.eqb c a = false ∧ has_byte c s = false.
Proof. simpl. apply orb_false_iff. Qed.

(** The scanner reads back the lines that were written. *)
Lemma raw_lines_line (l rest : string) :
  has_byte LF l = false →
  raw_lines (l ++ nl ++ rest) = l :: raw_lines rest.
Proof.
  induction l as [|a l IH]; intros Hl.
  - change (raw_lines (String LF rest) = "" :: raw_lines rest).
    cbn [raw_lines]. by rewrite Ascii.eqb_refl.
  - apply has_byte_cons in Hl as [Ha Hl]. rewrite append_String.
    cbn [raw_lines]. rewrite eqb_sym, Ha, IH by done. done.
Qed.

Lemma raw_lines_written (lines : list string) :
  Forall (λ l, has_byte LF l = false) lines →
  raw_lines (fold_right (λ line acc, line ++ acc)%string ""
               (map (λ l, l ++ nl)%string lines)) = lines.
Proof.
  induction 1 as [|l lines Hl _ IH]; [done|]. simpl.
  rewrite append_assoc_string, raw_lines_line by done. by rewrite IH.
Qed.

Lemma has_byte_drop_bytes (c : ascii) (n : nat) (s : string) :
  has_byte c s = false → has_byte c (drop_bytes n s) = false.
Proof.
  revert s. induction n as [|n IH]; intros [|a s]; simpl; try done.
  intros [_ H]%orb_false_elim. by apply IH.
Qed.

Lemma dropCR_id (l : string) : has_byte CR l = false → dropCR l = l.
Proof.
  intros Hl. unfold dropCR, HasSuffix.
  destruct (_ <=? _)%nat; [|done]. simpl.
  destruct (String.eqb _ _) eqn:E; [|done].
  apply String.eqb_eq in E.
  pose proof (has_byte_drop_bytes CR (String.length l - 1) l Hl) as Hd.
  rewrite E in Hd. by vm_compute in Hd.
Qed.

(** Cutting at a separator of one byte. *)
Lemma split_from_piece (t : ascii) (v rest : string) :
  has_byte t v = false →
  split_from (String t "") 0 (v ++ String t rest)
  = v :: split_from (String t "") 0 rest.
Proof.
  induction v as [|a v IH]; intros Hv.
  - rewrite append_empty_l. cbn [split_from]. rewrite prefix_single.
    by rewrite Ascii.eqb_refl.
  - apply has_byte_cons in Hv as [Ha Hv]. rewrite append_String.
    cbn [split_from]. rewrite prefix_single, Ha, IH by done. done.
Qed.

Lemma split_from_last (t : ascii) (v : string) :
  has_byte t v = false → split_from (String t "") 0 v = [v].
Proof.
  induction v as [|a v IH]; intros Hv; [done|].
  apply has_byte_cons in Hv as [Ha Hv].
  cbn [split_from]. rewrite prefix_single, Ha, IH by done. done.
Qed.

Lemma Join_cons (v w : string) (values : list string) (sep : string) :
  Join (v :: w :: values) sep = (v ++ sep ++ Join (w :: values) sep)%string.
Proof. done. Qed.

Lemma Split_Join (values : list string) :
  values ≠ [] →
  Forall (λ v, has_byte TAB v = false) values →
  Split (Join values tab) tab = values.
Proof.
  intros Hne Hall. unfold Split, tab.
  induction Hall as [|v values Hv Hall IH]; [done|].
  destruct values as [|w values].
  - by apply split_from_last.
  - rewrite Join_cons. change (String TAB "" ++ ?s)%string with (String TAB s).
    rewrite split_from_piece by done. by rewrite IH.
Qed.

Lemma has_byte_Join (c : ascii) (values : list string) (sep : string) :
  has_byte c sep = false →
  Forall (λ v, has_byte c v = false) values →
  has_byte c (Join values sep) = false.
Proof.
  intros Hsep Hall. induction Hall as [|v values Hv Hall IH]; [done|].
  destruct values as [|w values]; [done|].
  rewrite Join_cons, !has_byte_app, Hv, Hsep, IH. done.
Qed.

(** The extent of the grid bounds every key. *)
Lemma extent_bounds (data : Store) :
  (∀ r c cell, data !! (r, c) = Some cell →
     1 <= r < MaxInt32 ∧ 1 <= c < MaxInt32) →
  0 <= fst (extent data) < MaxInt32 ∧ 0 <= snd (extent data) < MaxInt32 ∧
  ∀ r c cell, data !! (r, c) = Some cell →
    r <= fst (extent data) ∧ c <= snd (extent data).
Proof.
  unfold extent.
  apply (map_fold_weak_ind (λ (acc : Z * Z) (m : Store),
    (∀ r c cell, m !! (r, c) = Some cell →
       1 <= r < MaxInt32 ∧ 1 <= c < MaxInt32) →
    0 <= fst acc < MaxInt32 ∧ 0 <= snd acc < MaxInt32 ∧
    ∀ r c cell, m !! (r, c) = Some cell → r <= fst acc ∧ c <= snd acc)).
  - intros _. unfold MaxInt32. simpl. split; [lia|]. split; [lia|].
    intros r c cell Hk. by rewrite lookup_empty in Hk.
  - intros [kr kc] cell m [ar ac] Hm IH Hrange.
    destruct IH as (Hr & Hc & Hle).
    { intros r c cell' Hk. apply (Hrange r c cell').
      rewrite lookup_insert_ne; [done|]. intros [= <- <-]. congruence. }
    destruct (Hrange kr kc cell) as [Hkr Hkc]; [by rewrite lookup_insert_eq|].
    unfold extent_step. simpl in *.
    rewrite !int32_id by (unfold in_int32, MinInt32, MaxInt32 in *; lia).
    destruct (ar <? kr) eqn:E1, (ac <? kc) eqn:E2; zbool;
      (split; [lia|]; split; [lia|]);
      intros r c cell' [[[= <- <-] _] | [_ Hk]]%lookup_insert_Some;
      try lia; apply Hle in Hk; lia.
Qed.

Lemma extent_empty : extent ∅ = (0, 0).
Proof. unfold extent. by rewrite map_fold_empty. Qed.

(** The cells made from the fields of one line. *)
Lemma elem_txt_line_cells `{CellDefaults} (row k : Z) (values : list string)
    (c' : Cell) :
  c' ∈ txt_line_cells row k values ↔
  ∃ (i : nat) (v : string), values !! i = Some v ∧ v ≠ ""
    ∧ c' = txt_cell row (int32 (k + Z.of_nat i + 1)) v.
Proof.
  revert k. induction values as [|value rest IH]; intros k.
  - simpl. rewrite elem_of_nil. split; [done|]. by intros (i & v & ? & _).
  - cbn [txt_line_cells]. rewrite elem_of_app, IH. split.
    + intros [Hc | (i & v & Hi & Hv & ->)].
      * destruct (String.eqb value "") eqn:E; [by apply elem_of_nil in Hc|].
        apply list_elem_of_singleton in Hc as ->.
        exists 0%nat, value. split; [done|]. split.
        -- by apply String.eqb_neq.
        -- by rewrite Z.add_0_r.
      * exists (S i), v. split; [done|]. split; [done|].
        do 2 f_equal. lia.
    + intros ([|i] & v & Hi & Hv & ->).
      * left. simpl in Hi. injection Hi as ->.
        rewrite (proj2 (String.eqb_neq v "")) by done.
        rewrite Z.add_0_r. apply list_elem_of_singleton. done.
      * right. exists i, v. split; [done|]. split; [done|].
        do 2 f_equal. lia.
Qed.

(** The outer loop, on lines whose fields are known. *)
Lemma openTxt_loop_rows `{CellDefaults} (line : Z → string)
    (vals : Z → list string) (mcol : Z) (n : nat) :
  (∀ r, Split (line r) tab = vals r) →
  (∀ r, Z.of_nat (List.length (vals r)) = mcol) →
  0 <= mcol < MaxInt32 →
  ∀ (row0 mc0 : Z) (cells0 : list Cell),
  1 <= row0 → row0 + Z.of_nat n <= MaxInt32 → 0 <= mc0 <= mcol →
  openTxt_loop (map line (seqZ row0 (Z.of_nat n))) row0 mc0 cells0
  = ((cells0 ++ flat_map (λ r, txt_line_cells r 0 (vals r))
                         (seqZ row0 (Z.of_nat n)))%list,
     row0 + Z.of_nat n,
     if Z.of_nat n =? 0 then mc0 else mcol).
Proof.
  intros Hsplit Hlen Hmcol. induction n as [|n IH]; intros row0 mc0 cells0 H1 H2 H3.
  - simpl. by rewrite app_nil_r, Z.add_0_r.
  - rewrite seqZ_cons by lia. cbn [map openTxt_loop flat_map].
    rewrite Hsplit, Hlen.
    replace (Z.pred (Z.of_nat (S n))) with (Z.of_nat n) by lia.
    unfold Z.succ.
    rewrite (int32_id mcol), (int32_id (row0 + 1))
      by (unfold in_int32, MinInt32, MaxInt32 in *; lia).
    rewrite IH; [| lia | lia |].
    + rewrite <- app_assoc. f_equal; [f_equal; lia|].
      rewrite (proj2 (Z.eqb_neq (Z.of_nat (S n)) 0)) by lia.
      destruct (Z.of_nat n =? 0); destruct (mc0 <? mcol) eqn:E; zbool; lia.
    + destruct (mc0 <? mcol) eqn:E; zbool; lia.
Qed.

(** X30: what [SaveTableAsTXT] writes, [openTxtFile] reads back: when every key
    is positive and below the greatest [int32], no raw value holds a tab,
    a line feed or a carriage return, and every line written fits the
    buffer of the scanner, the text written is read without error, with
    the row and column counts of the grid, and the cells read are the
    cells of the sheet that have a raw value that is not empty, each at its
    position with that raw value, and with its formatting replaced by the
    defaults. *)
Theorem txt_export_import_roundtrip `{CellDefaults} (data : Store) :
  (∀ r c cell, data !! (r, c) = Some cell →
     1 <= r < MaxInt32 ∧ 1 <= c < MaxInt32) →
  (∀ key cell v, data !! key = Some cell → RawValue cell = Some v →
     has_byte TAB v = false ∧ has_byte LF v = false ∧ has_byte CR v = false) →
  forallb (λ r, len (txt_line data (snd (extent data)) r) <=? MaxScanTokenSize)
          (seqZ 1 (fst (extent data))) = true →
  ∃ text cells,
    SaveTableAsTXT_text data = Some text ∧
    openTxtFile_text text
      = inl (cells, fst (extent data), snd (extent data)) ∧
    ∀ c', c' ∈ cells ↔
      ∃ r c cell v, data !! (r, c) = Some cell ∧ RawValue cell = Some v
                    ∧ v ≠ "" ∧ c' = txt_cell r c v.
Proof.
  intros Hrange Hbytes Hshort.
  destruct (extent_bounds data Hrange) as (HmaxR & HmaxC & Hle).
  set (maxRow := fst (extent data)) in *.
  set (maxCol := snd (extent data)) in *.
  set (vals := λ r, map (txt_value data r) (seqZ 1 maxCol)).
  set (line := λ r, Join (vals r) tab).
  assert (Hval : ∀ r c, has_byte TAB (txt_value data r c) = false
                        ∧ has_byte LF (txt_value data r c) = false
                        ∧ has_byte CR (txt_value data r c) = false).
  { intros r c. unfold txt_value.
    destruct (data !! (r, c)) as [cell|] eqn:Hk; [|done].
    destruct (RawValue cell) as [v|] eqn:Hv; [|done]. eauto. }
  assert (Hvals : ∀ (c : ascii) r,
            (∀ r' c', has_byte c (txt_value data r' c') = false) →
            Forall (λ v, has_byte c v = false) (vals r)).
  { intros c r Hc. unfold vals. apply Forall_fmap, Forall_forall.
    intros x _. apply Hc. }
  assert (Hline : ∀ (c : ascii) r, has_byte c tab = false →
            (∀ r' c', has_byte c (txt_value data r' c') = false) →
            has_byte c (line r) = false).
  { intros c r Ht Hc. apply has_byte_Join; [done|]. by apply Hvals. }
  assert (Htext : SaveTableAsTXT_text data
            = Some (fold_right (λ l acc, l ++ acc)%string ""
                      (map (λ l, l ++ nl)%string
                         (map line (seqZ 1 maxRow))))).
  { unfold SaveTableAsTXT_text. fold maxRow maxCol.
    rewrite (proj2 (Z.eqb_neq maxRow MaxInt32)) by lia.
    rewrite (proj2 (Z.eqb_neq maxCol MaxInt32)) by lia.
    rewrite andb_false_r. simpl. by rewrite map_map. }
  eexists. exists (flat_map (λ r, txt_line_cells r 0 (vals r)) (seqZ 1 maxRow)).
  split; [exact Htext|].
  assert (Hscan : Scanner_scan
            (fold_right (λ l acc, l ++ acc)%string ""
               (map (λ l, l ++ nl)%string (map line (seqZ 1 maxRow))))
            = (map line (seqZ 1 maxRow), None)).
  { unfold Scanner_scan. rewrite raw_lines_written.
    - assert (Hfit : forallb (λ l, len l <? MaxScanTokenSize)
                       (map line (seqZ 1 maxRow)) = true).
      { rewrite forallb_forall in Hshort. apply forallb_forall.
        intros l Hl. apply in_map_iff in Hl as (r & <- & Hr).
        specialize (Hshort r Hr). apply Z.leb_le in Hshort.
        apply Z.ltb_lt. unfold txt_line in Hshort. fold (vals r) in Hshort.
        fold (line r) in Hshort. unfold len in *.
        rewrite length_app_string in Hshort. simpl in Hshort. lia. }
      rewrite Hfit. f_equal. rewrite <- (map_id (map line (seqZ 1 maxRow))) at 2.
      apply map_ext_in. intros l Hl. apply in_map_iff in Hl as (r & <- & _).
      apply dropCR_id, Hline; [done | intros; apply Hval].
    - apply Forall_fmap, Forall_forall. intros r _.
      apply Hline; [done | intros; apply Hval]. }
  destruct (decide (maxRow = 0)) as [H0 | Hpos].
  - (* no key: nothing is written *)
    assert (Hempty : data = ∅).
    { apply map_empty. intros [r c]. destruct (data !! (r, c)) eqn:Hk; [|done].
      destruct (Hrange r c _ Hk), (Hle r c _ Hk). lia. }
    split.
    + unfold openTxtFile_text. rewrite Hscan, H0. simpl.
      subst maxCol. rewrite Hempty, extent_empty. reflexivity.
    + intros c'. rewrite H0. simpl. rewrite elem_of_nil. split; [done|].
      intros (r & c & cell & v & Hk & _). rewrite Hempty in Hk.
      by rewrite lookup_empty in Hk.
  - assert (HmaxC1 : 1 <= maxCol).
    { destruct (map_choose_or_empty data) as [([r c] & cell & Hk) | Hempty].
      - destruct (Hrange r c _ Hk), (Hle r c _ Hk). lia.
      - subst maxRow. rewrite Hempty, extent_empty in Hpos. done. }
    assert (Hloop := openTxt_loop_rows line vals maxCol (Z.to_nat maxRow)).
    rewrite Z2Nat.id in Hloop by lia.
    specialize (Hloop ltac:(intros r; unfold line; apply Split_Join;
      [unfold vals; rewrite seqZ_cons by lia; done
      | apply Hvals; intros; apply Hval])).
    specialize (Hloop ltac:(intros r; unfold vals;
      rewrite length_map, length_seqZ; lia) ltac:(lia) 1 0 []
      ltac:(lia) ltac:(lia) ltac:(lia)).
    split.
    + unfold openTxtFile_text. rewrite Hscan, Hloop.
      rewrite (proj2 (Z.eqb_neq maxRow 0)) by lia.
      rewrite int32_id by (unfold in_int32, MinInt32, MaxInt32 in *; lia).
      replace (1 + maxRow - 1) with maxRow by lia. reflexivity.
    + intros c'. simpl. rewrite list_elem_of_In, in_flat_map. split.
      * intros (r & Hr & Hc). apply list_elem_of_In, elem_of_seqZ in Hr.
        apply list_elem_of_In, elem_txt_line_cells in Hc
          as (i & v & Hi & Hv & ->).
        unfold vals in Hi. apply list_lookup_fmap_Some in Hi as (c & -> & Hc).
        apply lookup_seqZ in Hc as [-> Hi].
        rewrite int32_id by (unfold in_int32, MinInt32, MaxInt32 in *; lia).
        replace (0 + Z.of_nat i + 1) with (1 + Z.of_nat i) by lia.
        unfold txt_value in *.
        destruct (data !! (r, 1 + Z.of_nat i)) as [cell|] eqn:Hk; [|done].
        destruct (RawValue cell) as [v|] eqn:Hr'; [|done].
        exists r, (1 + Z.of_nat i), cell, v. done.
      * intros (r & c & cell & v & Hk & Hraw & Hv & ->).
        destruct (Hrange r c _ Hk) as [Hr Hc], (Hle r c _ Hk) as [Hr' Hc'].
        exists r. split; [apply list_elem_of_In, elem_of_seqZ; lia|].
        apply list_elem_of_In, elem_txt_line_cells.
        exists (Z.to_nat (c - 1)), v. split; [|split; [done|]].
        -- unfold vals. apply list_lookup_fmap_Some. exists c. split.
           ++ unfold txt_value. by rewrite Hk, Hraw.
           ++ apply lookup_seqZ. lia.
        -- rewrite int32_id by (unfold in_int32, MinInt32, MaxInt32 in *; lia).
           f_equal. lia.
Qed.

Lemma txt_export_import_roundtrip_witness :
  ∃ text cells,
    SaveTableAsTXT_text sample_store = Some text ∧
    @openTxtFile_text sample_defaults text
      = inl (cells, fst (extent sample_store), snd (extent sample_store)) ∧
    ∀ c', c' ∈ cells ↔
      ∃ r c cell v, sample_store !! (r, c) = Some cell ∧ RawValue cell = Some v
                    ∧ v ≠ "" ∧ c' = @txt_cell sample_defaults r c v.
Proof.
  apply (@txt_export_import_roundtrip sample_defaults sample_store).
  - intros r c cell Hk.
    apply sample_store_lookup in Hk as [[[= -> ->] _] | [[[= -> ->] _] | [[= -> ->] _]]];
      unfold MaxInt32; lia.
  - intros key cell v Hk Hv.
    apply sample_store_lookup in Hk as [[_ ->] | [[_ ->] | [_ ->]]];
      injection Hv as <-; repeat split; reflexivity.
  - vm_compute. reflexivity.
Defined.
